(** * KDJP-Enter bookstore: cart store, checkout validator and order creation

    A shallow embedding of the cart store ([frontend/src/hooks/useCart.ts]),
    the checkout page ([CheckoutPage]: field validators and [handleSubmit]),
    the order model ([backend/models/Order.js]), the mailer and the
    [createOrder] controller ([backend/controllers/orderController.js]),
    followed by the properties proved about them.

    JavaScript numbers are IEEE 754 binary64 values and are embedded as Rocq's
    primitive [float]s, with the same operations ([+], [*], [-], [Math.abs],
    [<=], [>]).  JavaScript strings that are inspected character by character
    (form fields) are sequences of UTF-16 code units, embedded as [list N];
    opaque strings (identifiers, titles, messages) are Rocq [string]s. *)

From Stdlib Require Import Floats ZArith NArith List Ascii String Bool Lia.
From Stdlib Require Import DecimalString.
From stdpp Require Import gmap strings.
Import ListNotations.

Local Open Scope bool_scope.
Local Open Scope string_scope.
Local Open Scope list_scope.

Set Warnings "-inexact-float".

(* ===================================================================== *)
(** ** JavaScript values *)
(* ===================================================================== *)

Module JS.

(** A UTF-16 code unit. *)
Definition char := N.

(** A string whose characters are looked at: a list of code units. *)
Definition jsstring := list char.

Definition of_string (s : string) : jsstring :=
  List.map N_of_ascii (list_ascii_of_string s).

(** [\d] without the unicode flag: the ten ASCII digits. *)
Definition is_digit (c : char) : bool :=
  ((48 <=? c) && (c <=? 57))%N.

(** [\s], also what [String.prototype.trim] strips: WhiteSpace and
    LineTerminator of ECMAScript. *)
Definition is_space (c : char) : bool :=
  (((9 <=? c) && (c <=? 13))      (* TAB LF VT FF CR *)
   || (c =? 32)                    (* SP *)
   || (c =? 160)                   (* U+00A0 *)
   || (c =? 5760)                  (* U+1680 *)
   || ((8192 <=? c) && (c <=? 8202)) (* U+2000 .. U+200A *)
   || (c =? 8232) || (c =? 8233)   (* U+2028 U+2029 *)
   || (c =? 8239)                  (* U+202F *)
   || (c =? 8287)                  (* U+205F *)
   || (c =? 12288)                 (* U+3000 *)
   || (c =? 65279))%N.             (* U+FEFF *)

Fixpoint trimStart (s : jsstring) : jsstring :=
  match s with
  | c :: s' => if is_space c then trimStart s' else s
  | [] => []
  end.

Definition trimEnd (s : jsstring) : jsstring :=
  rev (trimStart (rev s)).

(** [s.trim()] *)
Definition trim (s : jsstring) : jsstring := trimEnd (trimStart s).

(** Number of digit characters of a string. *)
Definition count_digits (s : jsstring) : nat :=
  List.length (List.filter is_digit s).

(** Truthiness of a number: [0], [-0] and [NaN] are falsy. *)
Definition truthy_number (x : float) : bool :=
  negb (PrimFloat.is_zero x || PrimFloat.is_nan x).

(** Truthiness of a string: only the empty string is falsy. *)
Definition truthy_string (s : string) : bool :=
  negb (String.eqb s "").

(** Truthiness of a value that is a string or [undefined]. *)
Definition truthy_ostring (s : option string) : bool :=
  match s with
  | Some v => truthy_string v
  | None => false
  end.

(** [a || b] on values that are strings or [undefined]. *)
Definition or_ostring (a b : option string) : option string :=
  if truthy_ostring a then a else b.

End JS.

(* ===================================================================== *)
(** ** Regular expressions, as [RegExp.prototype.test] runs them *)
(* ===================================================================== *)

(** The matcher follows the ECMAScript semantics of patterns: a pattern
    compiles to a matcher taking the current state and a continuation, and
    backtracking is the failure of a continuation.  The state is the part of
    the input that is still to be read; captures are not kept, [test] does not
    return them. *)

Module RegExp.
Import JS.

(** Members of a character class. *)
Inductive atom :=
| Digit               (* \d *)
| Space               (* \s *)
| Lit (c : char).     (* one character *)

Inductive regex :=
| Eps                                           (* empty pattern *)
| Bol                                           (* ^ *)
| Eol                                           (* $ *)
| Cls (neg : bool) (atoms : list atom)          (* [...] and [^...] *)
| Seq (r1 r2 : regex)                           (* r1 r2 *)
| Alt (r1 r2 : regex)                           (* r1 | r2 *)
| Group (r : regex)                             (* ( r ) *)
| Quant (r : regex) (min : nat) (max : option nat). (* greedy r{min,max} *)

Definition atom_matches (a : atom) (c : char) : bool :=
  match a with
  | Digit => is_digit c
  | Space => is_space c
  | Lit d => N.eqb c d
  end.

Definition class_matches (neg : bool) (atoms : list atom) (c : char) : bool :=
  xorb neg (existsb (fun a => atom_matches a c) atoms).

Definition State := jsstring.
Definition Continuation := State -> bool.
Definition Matcher := State -> Continuation -> bool.

(** RepeatMatcher(m, min, max, greedy = true, x, c).  [n] counts the rounds
    that are left ([max]); an iteration that has reached [min] and consumes
    nothing fails (the empty check). *)
Fixpoint RepeatMatcher (m : Matcher) (n min : nat) (x : State)
    (c : Continuation) {struct n} : bool :=
  match n with
  | O => c x
  | S n' =>
      let d : Continuation := fun y =>
        if Nat.eqb min 0 && Nat.eqb (List.length y) (List.length x) then false
        else RepeatMatcher m n' (Nat.pred min) y c in
      if Nat.eqb min 0 then m x d || c x else m x d
  end.

(** Rounds granted to a quantifier.  With no upper bound, every round after
    the first [min] has to consume a character, so that [min] plus the length
    of the rest of the input is never reached. *)
Definition rounds (min : nat) (max : option nat) (x : State) : nat :=
  match max with
  | Some n => n
  | None => min + List.length x
  end.

(** [matcher len r]: the matcher of [r] on an input of [len] code units. *)
Fixpoint matcher (len : nat) (r : regex) (x : State) (c : Continuation)
    {struct r} : bool :=
  match r with
  | Eps => c x
  | Bol => Nat.eqb (List.length x) len && c x
  | Eol => match x with [] => c x | _ :: _ => false end
  | Cls neg atoms =>
      match x with
      | [] => false
      | ch :: y => if class_matches neg atoms ch then c y else false
      end
  | Seq r1 r2 => matcher len r1 x (fun y => matcher len r2 y c)
  | Alt r1 r2 => matcher len r1 x c || matcher len r2 x c
  | Group r1 => matcher len r1 x c
  | Quant r1 min max =>
      RepeatMatcher (matcher len r1) (rounds min max x) min x c
  end.

(** The search loop of RegExpBuiltinExec: try every start index in turn. *)
Fixpoint search (len : nat) (r : regex) (x : State) : bool :=
  matcher len r x (fun _ => true)
  || match x with
     | [] => false
     | _ :: y => search len r y
     end.

(** [r.test(s)] for a pattern without flags. *)
Definition test (r : regex) (s : jsstring) : bool :=
  search (List.length s) r s.

(** Pattern syntax. *)
Definition chr (s : string) : regex := Cls false (List.map Lit (of_string s)).
Definition opt (r : regex) : regex := Quant r 0 (Some 1).
Definition plus (r : regex) : regex := Quant r 1 None.
Fixpoint seq (rs : list regex) : regex :=
  match rs with
  | [] => Eps
  | [r] => r
  | r :: rs' => Seq r (seq rs')
  end.

(** Digits a match of the pattern reads at least. *)
Fixpoint digits_lo (r : regex) : nat :=
  match r with
  | Eps | Bol | Eol => 0
  | Cls neg atoms =>
      if negb neg && negb (Nat.eqb (List.length atoms) 0)
         && forallb (fun a => match a with
                              | Digit => true
                              | Space => false
                              | Lit c => is_digit c
                              end) atoms
      then 1 else 0
  | Seq r1 r2 => digits_lo r1 + digits_lo r2
  | Alt r1 r2 => Nat.min (digits_lo r1) (digits_lo r2)
  | Group r1 => digits_lo r1
  | Quant r1 min (Some n) => Nat.min min n * digits_lo r1
  | Quant r1 min None => min * digits_lo r1
  end.

(** Digits a match of the pattern reads at most ([None]: no bound). *)
Fixpoint digits_hi (r : regex) : option nat :=
  match r with
  | Eps | Bol | Eol => Some 0
  | Cls neg atoms =>
      if negb neg
         && forallb (fun a => match a with
                              | Digit => false
                              | Space => true
                              | Lit c => negb (is_digit c)
                              end) atoms
      then Some 0 else Some 1
  | Seq r1 r2 =>
      match digits_hi r1, digits_hi r2 with
      | Some a, Some b => Some (a + b)
      | _, _ => None
      end
  | Alt r1 r2 =>
      match digits_hi r1, digits_hi r2 with
      | Some a, Some b => Some (Nat.max a b)
      | _, _ => None
      end
  | Group r1 => digits_hi r1
  | Quant r1 min (Some n) =>
      match digits_hi r1 with
      | Some a => Some (n * a)
      | None => None
      end
  | Quant r1 min None =>
      match digits_hi r1 with
      | Some 0 => Some 0
      | _ => None
      end
  end.

(** Whether every match of the pattern ends on a [$]. *)
Fixpoint ends_at_eol (r : regex) : bool :=
  match r with
  | Eol => true
  | Seq _ r2 => ends_at_eol r2
  | Alt r1 r2 => ends_at_eol r1 && ends_at_eol r2
  | Group r1 => ends_at_eol r1
  | _ => false
  end.

(** [reads m lo hi e]: whenever the matcher [m] succeeds, it has read a part
    [w] of the input with between [lo] and [hi] digits before calling its
    continuation, at the end of the input when [e] is set. *)
Definition reads (m : Matcher) (lo : nat) (hi : option nat) (e : bool) : Prop :=
  forall x c, m x c = true ->
    exists w y, x = w ++ y /\ c y = true
      /\ lo <= count_digits w
      /\ (forall h, hi = Some h -> count_digits w <= h)
      /\ (e = true -> y = []).

(** A matcher looks at its continuation only on states that are not longer
    than the one it starts from. *)
Definition local (m : Matcher) : Prop :=
  forall x c1 c2,
    (forall y, List.length y <= List.length x -> c1 y = c2 y) ->
    m x c1 = m x c2.

(** *** The strings a pattern matches

    [denote len r x y]: the pattern [r] can read the input from the state
    [x] to the state [y], on an input of [len] code units. *)

Fixpoint iter (R : State -> State -> Prop) (k : nat) (x y : State) : Prop :=
  match k with
  | O => x = y
  | S k' => exists z, R x z /\ iter R k' z y
  end.

Fixpoint denote (len : nat) (r : regex) (x y : State) {struct r} : Prop :=
  match r with
  | Eps => x = y
  | Bol => List.length x = len /\ x = y
  | Eol => x = [] /\ y = []
  | Cls neg atoms =>
      exists ch, x = ch :: y /\ class_matches neg atoms ch = true
  | Seq r1 r2 => exists z, denote len r1 x z /\ denote len r2 z y
  | Alt r1 r2 => denote len r1 x y \/ denote len r2 x y
  | Group r1 => denote len r1 x y
  | Quant r1 min max =>
      exists k, min <= k /\ (forall n, max = Some n -> k <= n)
                /\ iter (denote len r1) k x y
  end.

(** A pattern the syntax of ECMAScript admits: no quantifier has a lower
    bound above its upper bound. *)
Fixpoint wellFormed (r : regex) : bool :=
  match r with
  | Eps | Bol | Eol | Cls _ _ => true
  | Seq r1 r2 | Alt r1 r2 => wellFormed r1 && wellFormed r2
  | Group r1 => wellFormed r1
  | Quant r1 min max =>
      wellFormed r1
      && match max with Some n => Nat.leb min n | None => true end
  end.

(** The characters a pattern can read. *)
Fixpoint may_read (r : regex) (ch : char) : bool :=
  match r with
  | Eps | Bol | Eol => false
  | Cls neg atoms => class_matches neg atoms ch
  | Seq r1 r2 | Alt r1 r2 => may_read r1 ch || may_read r2 ch
  | Group r1 | Quant r1 _ _ => may_read r1 ch
  end.

End RegExp.

(* ===================================================================== *)
(** ** Completions: a call returns a value or throws *)
(* ===================================================================== *)

Module Completion.

Inductive completion (E A : Type) :=
| Normal (a : A)
| Throw (e : E).
Arguments Normal {E A} a.
Arguments Throw {E A} e.

Definition bind {E A B} (c : completion E A) (k : A -> completion E B)
  : completion E B :=
  match c with
  | Normal a => k a
  | Throw e => Throw e
  end.

(** [arr.map(f)] with a callback that may throw: elements are visited in
    order and the first exception ends the call. *)
Fixpoint mapM {E A B} (f : A -> completion E B) (l : list A)
  : completion E (list B) :=
  match l with
  | [] => Normal []
  | a :: l' =>
      bind (f a) (fun b => bind (mapM f l') (fun bs => Normal (b :: bs)))
  end.

(** [arr.filter(p)] with a predicate that may throw. *)
Fixpoint filterM {E A} (p : A -> completion E bool) (l : list A)
  : completion E (list A) :=
  match l with
  | [] => Normal []
  | a :: l' =>
      bind (p a) (fun keep =>
      bind (filterM p l') (fun r => Normal (if keep then a :: r else r)))
  end.

(** [arr.find(p)] with a predicate that may throw: the search stops at the
    first hit, so elements after it are never looked at. *)
Fixpoint findM {E A} (p : A -> completion E bool) (l : list A)
  : completion E (option A) :=
  match l with
  | [] => Normal None
  | a :: l' =>
      bind (p a) (fun hit => if hit then Normal (Some a) else findM p l')
  end.

(** [arr.reduce(f, init)] with a callback that may throw. *)
Fixpoint reduceM {E A B} (f : B -> A -> completion E B) (l : list A) (init : B)
  : completion E B :=
  match l with
  | [] => Normal init
  | a :: l' => bind (f init a) (fun acc => reduceM f l' acc)
  end.

End Completion.

Import Completion.

#[global] Instance completion_ret {E} : MRet (completion E) :=
  fun A a => Normal a.
#[global] Instance completion_bind {E} : MBind (completion E) :=
  fun A B k c => Completion.bind c k.

(* ===================================================================== *)
(** ** The cart store: [frontend/src/hooks/useCart.ts] *)
(* ===================================================================== *)

Module Cart.
Import JS.
Local Open Scope float_scope.

(** [Book] of [types/index.ts]; only the fields the store reads. *)
Record Book := mkBook {
  _id : option string;
  id : option string;
  title : string;
  publisher : string;
  price : float;
  image : string
}.

(** [CartItem].  In a store read back from [localStorage] the [book] of an
    entry may be missing, which is what [cleanupCart] looks for. *)
Record CartItem := mkCartItem {
  book : option Book;
  quantity : float
}.

Record CartState := mkCartState {
  items : list CartItem;
  totalItems : float;
  totalPrice : float
}.

(** Reading a property of [undefined]. *)
Inductive exn := TypeError.

Abbreviation M := (completion exn).

(** [item.book._id || item.book.id] *)
Definition bookId_of (b : Book) : option string :=
  or_ostring (_id b) (id b).

Definition itemId (item : CartItem) : M (option string) :=
  match book item with
  | Some b => Normal (bookId_of b)
  | None => Throw TypeError
  end.

(** [(item.book._id || item.book.id) === bookId] for a string [bookId]. *)
Definition same_id (v : option string) (bookId : string) : bool :=
  match v with
  | Some s => String.eqb s bookId
  | None => false
  end.

Definition hasId (bookId : string) (item : CartItem) : M bool :=
  v ← itemId item; Normal (same_id v bookId).

(** [calculateTotals] *)
Definition calculateTotals (items : list CartItem) : M (float * float) :=
  let totalItems := fold_left (fun sum item => sum + quantity item) items 0 in
  totalPrice ← reduceM (fun sum item =>
                  match book item with
                  | Some b => Normal (sum + price b * quantity item)
                  | None => Throw TypeError
                  end) items 0;
  Normal (totalItems, totalPrice).

(** The initial state of the store. *)
Definition initialState : CartState :=
  {| items := []; totalItems := 0; totalPrice := 0 |}.

(** [item.book && (item.book._id || item.book.id)], as a condition. *)
Definition validItem (item : CartItem) : bool :=
  match book item with
  | Some b => truthy_ostring (bookId_of b)
  | None => false
  end.

(** An action of the store ends normally with the state it has [set] (the
    state it started from when it returns before [set]), or throws before
    [set], and the store keeps its state. *)
Definition action := CartState -> M CartState.

(** [cleanupCart] *)
Definition cleanupCart : action := fun st =>
  let validItems := List.filter validItem (items st) in
  if negb (Nat.eqb (List.length validItems) (List.length (items st))) then
    '(totalItems, totalPrice) ← calculateTotals validItems;
    Normal {| items := validItems; totalItems := totalItems;
              totalPrice := totalPrice |}
  else Normal st.

(** [addToCart(book, quantity = 1)] *)
Definition addToCart (book : Book) (quantity : option float) : action :=
  fun st =>
  let quantity := default 1 quantity in
  match bookId_of book with
  | Some bookId =>
      if negb (truthy_string bookId) then Normal st else
      existingItem ← findM (hasId bookId) (items st);
      newItems ←
        match existingItem with
        | Some _ =>
            mapM (fun item : CartItem =>
                    hit ← hasId bookId item;
                    Normal (if (hit : bool)
                            then {| Cart.book := Cart.book item;
                                    Cart.quantity :=
                                      Cart.quantity item + quantity |}
                            else item))
                 (items st)
        | None =>
            Normal (items st ++ [{| Cart.book := Some book;
                                    Cart.quantity := quantity |}])
        end;
      '(totalItems, totalPrice) ← calculateTotals newItems;
      Normal {| items := newItems; totalItems := totalItems;
                totalPrice := totalPrice |}
  | None => Normal st
  end.

(** [removeFromCart(bookId)] *)
Definition removeFromCart (bookId : string) : action := fun st =>
  itemToRemove ← findM (hasId bookId) (items st);
  match itemToRemove with
  | None => Normal st
  | Some _ =>
      newItems ← filterM (fun item : CartItem =>
                    hit ← hasId bookId item; Normal (negb hit))
                  (items st);
      '(totalItems, totalPrice) ← calculateTotals newItems;
      Normal {| items := newItems; totalItems := totalItems;
                totalPrice := totalPrice |}
  end.

(** [updateQuantity(bookId, quantity)] *)
Definition updateQuantity (bookId : string) (quantity : float) : action :=
  fun st =>
  if quantity <=? 0 then removeFromCart bookId st else
  newItems ← mapM (fun item : CartItem =>
                hit ← hasId bookId item;
                Normal (if (hit : bool)
                        then {| Cart.book := Cart.book item;
                                Cart.quantity := quantity |}
                        else item))
              (items st);
  '(totalItems, totalPrice) ← calculateTotals newItems;
  Normal {| items := newItems; totalItems := totalItems;
            totalPrice := totalPrice |}.

(** [clearCart] *)
Definition clearCart : action := fun _ =>
  Normal {| items := []; totalItems := 0; totalPrice := 0 |}.

(** The predicate of [getCartItem] and [isInCart], which guards against a
    missing [book]. *)
Definition guardedHasId (bookId : string) (item : CartItem) : bool :=
  match book item with
  | Some b => same_id (bookId_of b) bookId
  | None => false
  end.

(** [getCartItem(bookId)] *)
Definition getCartItem (bookId : string) (st : CartState) : option CartItem :=
  List.find (guardedHasId bookId) (items st).

(** [isInCart(bookId)] *)
Definition isInCart (bookId : string) (st : CartState) : bool :=
  existsb (guardedHasId bookId) (items st).

(** [isEmpty] of [useCartOperations] *)
Definition isEmpty (st : CartState) : bool :=
  Nat.eqb (List.length (items st)) 0.

(** The persisted state, [{ items }]: what [partialize] hands to the
    storage, and what the storage hands back (see [readBack]). *)
Record Persisted := mkPersisted {
  p_items : list CartItem
}.

(** [partialize] *)
Definition partialize (st : CartState) : Persisted :=
  {| p_items :=
       List.map (fun item => {| book := book item; quantity := quantity item |})
                (List.filter validItem (items st)) |}.

(** The default [merge] of zustand's [persist]:
    [{ ...currentState, ...persistedState }]. *)
Definition merge (persisted : Persisted) (current : CartState) : CartState :=
  {| items := p_items persisted;
     totalItems := totalItems current;
     totalPrice := totalPrice current |}.

(** Rehydration, from the persisted state as the storage has handed it back:
    [persist] reads the stored state back when the store is
    created, [set]s the merge of it with the store's state and then runs the
    callback of [onRehydrateStorage], which calls [state.cleanupCart()].  An
    exception of [cleanupCart] would leave the merged state in place. *)
Definition rehydrate (persisted : Persisted) : CartState :=
  let merged := merge persisted initialState in
  match cleanupCart merged with
  | Normal st => st
  | Throw _ => merged
  end.

(** *** The storage: [createJSONStorage(() => localStorage)] *)

(** A number after [JSON.stringify] and [JSON.parse]: [NaN] and the
    infinities are written as [null], and [null] is what comes back
    ([None]); [-0] is written as [0]; every other number is written in digits
    that read back as the same number. *)
Definition throughJSON (x : float) : option float :=
  if PrimFloat.is_nan x || PrimFloat.is_infinity x then None
  else if PrimFloat.is_zero x then Some 0
  else Some x.

(** An entry after the storage: its quantity and the price of its book have
    gone through JSON, the strings come back as they were and a property
    that was [undefined] is not there.  An entry of which a number has come
    back as [null] is no [CartItem] any more; the embedding follows the store
    on from the states all of whose numbers come back as numbers, and the
    result is [None] for the others. *)
Definition entryThroughJSON (item : CartItem) : option CartItem :=
  q ← throughJSON (quantity item);
  match book item with
  | Some b =>
      p ← throughJSON (price b);
      Some {| book := Some {| _id := _id b; id := id b; title := title b;
                              publisher := publisher b; price := p;
                              image := image b |};
              quantity := q |}
  | None => Some {| book := None; quantity := q |}
  end.

Fixpoint entriesThroughJSON (l : list CartItem) : option (list CartItem) :=
  match l with
  | [] => Some []
  | item :: l' =>
      item' ← entryThroughJSON item;
      rest ← entriesThroughJSON l';
      Some (item' :: rest)
  end.

(** [getItem] after [setItem]: the persisted state as it is read back. *)
Definition readBack (persisted : Persisted) : option Persisted :=
  option_map mkPersisted (entriesThroughJSON (p_items persisted)).

(** A reload of the page: [persist] has written the [partialize]d state of
    the store, and the new store is rehydrated from what is read back. *)
Definition reload (st : CartState) : option CartState :=
  option_map rehydrate (readBack (partialize st)).

(** A number that comes back from the storage as it was written, and an
    entry all of whose numbers do. *)
Definition jsonSafe (x : float) : Prop := throughJSON x = Some x.

Definition safeEntry (item : CartItem) : Prop :=
  jsonSafe (quantity item)
  /\ forall b, book item = Some b -> jsonSafe (price b).

(** The store seen from outside: an action that throws leaves the state as
    it was. *)
Definition dispatch (a : action) (st : CartState) : CartState :=
  match a st with
  | Normal st' => st'
  | Throw _ => st
  end.

(** The four mutations of the store, as data. *)
Inductive op :=
| AddToCart (book : Book) (quantity : option float)
| RemoveFromCart (bookId : string)
| UpdateQuantity (bookId : string) (quantity : float)
| ClearCart.

Definition action_of (o : op) : action :=
  match o with
  | AddToCart b q => addToCart b q
  | RemoveFromCart i => removeFromCart i
  | UpdateQuantity i q => updateQuantity i q
  | ClearCart => clearCart
  end.

(** The states the store goes through, one after each operation. *)
Fixpoint states (ops : list op) (st : CartState) : list CartState :=
  match ops with
  | [] => []
  | o :: ops' =>
      let st' := dispatch (action_of o) st in
      st' :: states ops' st'
  end.

(** The sum of the quantities and the sum of quantity times unit price over
    a list of entries that all have a book, accumulated from [0] in list
    order. *)
Definition sumQuantity (items : list CartItem) : float :=
  fold_left (fun sum item => sum + quantity item) items 0.

Definition lineTotal (item : CartItem) : float :=
  match book item with
  | Some b => price b * quantity item
  | None => nan
  end.

Definition sumPrice (items : list CartItem) : float :=
  fold_left (fun sum item => sum + lineTotal item) items 0.

Definition hasBook (item : CartItem) : Prop := book item <> None.

(** The invariant of [CartState]: every entry has a book, and the cached
    totals are the sums over the entries. *)
Definition consistent (st : CartState) : Prop :=
  Forall hasBook (items st)
  /\ totalItems st = sumQuantity (items st)
  /\ totalPrice st = sumPrice (items st).

(** The state with the entries [l] and the totals recomputed from them. *)
Definition recomputed (l : list CartItem) : CartState :=
  {| items := l; totalItems := sumQuantity l; totalPrice := sumPrice l |}.

(** *** The entries of the cart after an operation *)

(** The identifier of an entry, [None] when it has none. *)
Definition entryId (item : CartItem) : option string :=
  match book item with
  | Some b => bookId_of b
  | None => None
  end.

(** A cart whose entries all have a resolvable identifier, each identifier
    once. *)
Definition wellKept (st : CartState) : Prop :=
  Forall (fun item => validItem item = true) (items st)
  /\ NoDup (List.map entryId (items st)).

(** The entries an operation leaves, computed without the store. *)
Definition itemsAfter (o : op) (l : list CartItem) : list CartItem :=
  match o with
  | AddToCart b q =>
      match bookId_of b with
      | Some bookId =>
          if truthy_string bookId then
            if existsb (guardedHasId bookId) l
            then List.map (fun item =>
                             if guardedHasId bookId item
                             then {| book := book item;
                                     quantity := quantity item + default 1 q |}
                             else item) l
            else l ++ [{| book := Some b; quantity := default 1 q |}]
          else l
      | None => l
      end
  | RemoveFromCart bookId =>
      List.filter (fun item => negb (guardedHasId bookId item)) l
  | UpdateQuantity bookId q =>
      if q <=? 0
      then List.filter (fun item => negb (guardedHasId bookId item)) l
      else List.map (fun item =>
                       if guardedHasId bookId item
                       then {| book := book item; quantity := q |}
                       else item) l
  | ClearCart => []
  end.

(** [addMultipleItems] of [useCartOperations]: [items.forEach] calls
    [addToCart] for each element; an exception of a call ends the loop and
    leaves the store as the calls before it have set it. *)
Fixpoint addMultipleItems (batch : list (Book * float)) (st : CartState)
  : M unit * CartState :=
  match batch with
  | [] => (Normal tt, st)
  | (book, quantity) :: rest =>
      match addToCart book (Some quantity) st with
      | Normal st' => addMultipleItems rest st'
      | Throw e => (Throw e, st)
      end
  end.

(** The quantity held of an identifier once an element of a batch has been
    added to the quantity [held] before ([None]: no entry). *)
Definition addedTo (bookId : string) (held : option float)
    (element : Book * float) : option float :=
  if same_id (bookId_of (fst element)) bookId
  then Some match held with
            | Some x => x + snd element
            | None => snd element
            end
  else held.

End Cart.

(* ===================================================================== *)
(** ** The cart icon: [frontend/src/components/layout/CartIcon] *)
(* ===================================================================== *)

Module Header.
Local Open Scope float_scope.

(** The item count badge of [CartIcon]:
    [totalItems > 0 && (totalItems > 99 ? '99+' : totalItems)]. *)
Inductive Badge :=
| NoBadge
| Count (totalItems : float)
| Many.                         (* '99+' *)

Definition badge (totalItems : float) : Badge :=
  if 0 <? totalItems
  then if 99 <? totalItems then Many else Count totalItems
  else NoBadge.

End Header.

(* ===================================================================== *)
(** ** The order model, the mailer and the [createOrder] controller *)
(* ===================================================================== *)

Module Backend.
Import JS.

(** *** Documents *)

(** A document of the [books] collection, as [Book.findById(id).lean()]
    returns it; the fields [createOrder] reads, all required by the schema. *)
Record Book := mkBook {
  book_title : string;
  book_publisher : string;
  book_price : float;
  book_image : string
}.

Inductive Status := pending | confirmed | shipped | delivered | cancelled.
Inductive PaymentStatus := payment_pending | paid | failed | refunded.

(** [orderItemSchema]; also an element of [processedItems]. *)
Record OrderItem := mkOrderItem {
  book : string;
  quantity : float;
  price : float;
  title : string;
  publisher : string;
  image : string
}.

(** [customerSchema].  A field that was never given is [None]. *)
Record Customer := mkCustomer {
  name : option jsstring;
  organization : option jsstring;
  phone : option jsstring;
  email : option jsstring;
  address : option jsstring
}.

(** The object [createOrder] hands to [new Order(...)]. *)
Record OrderData := mkOrderData {
  od_customer : Customer;
  od_items : list OrderItem;
  od_totalPrice : float;
  od_shippingAddress : option jsstring;
  od_notes : jsstring
}.

(** [orderSchema]: a document of the [orders] collection. *)
Record Order := mkOrder {
  orderId : string;
  customer : Customer;
  items : list OrderItem;
  totalPrice : float;
  status : Status;
  paymentStatus : PaymentStatus;
  shippingAddress : option jsstring;
  notes : jsstring;
  createdAt : Z;
  updatedAt : Z
}.

(** *** The world around the controller *)

Inductive MailKind := OrderNotification | OrderConfirmation.

Inductive Recipient :=
| OwnerEmail                        (* process.env.OWNER_EMAIL *)
| CustomerEmail (e : option jsstring).

(** What [transporter.sendMail] is asked to send; the text and HTML bodies,
    rendered from the order, are left out. *)
Record Mail := mkMail {
  mail_kind : MailKind;
  mail_to : Recipient;
  mail_orderId : string
}.

(** The database and the mails that went out.  [orders] is keyed by
    [orderId], on which the schema declares a unique index. *)
Record World := mkWorld {
  books : gmap string Book;
  orders : gmap string Order;
  outbox : list Mail
}.

(** What one request gets from outside the program: the clock, the random
    generator, the mail transport and a string built-in. *)
Record Env := mkEnv {
  (** the time at which the document is saved ([timestamps], [updatedAt]) *)
  saveTime : Z;
  (** [Date.now()] in the [orderId] hook *)
  idTime : Z;
  (** [Math.random().toString(36)] in the [orderId] hook *)
  random36 : string;
  (** whether [transporter.sendMail] delivers the mail or rejects *)
  sendMail : Mail -> bool;
  (** [String.prototype.toLowerCase] *)
  toLowerCase : jsstring -> jsstring
}.

Record FieldError := mkFieldError {
  field : string;
  fe_message : string
}.

Inductive exn :=
| TypeError (message : string)
| ValidationError (errors : list FieldError)
| MongoServerError (code : Z) (message : string)
| MailError (message : string).

Definition exn_message (e : exn) : string :=
  match e with
  | TypeError m => m
  | ValidationError _ => "Order validation failed"
  | MongoServerError _ m => m
  | MailError m => m
  end.

(** *** [models/Order.js] *)

(** The pattern of [customerSchema.phone]:
    [/^\+?(\d{1,3})?[-.\s]?(\(?\d{3}\)?[-.\s]?)?(\d[-.\s]?){6,15}\d$/] *)
Definition phonePattern : RegExp.regex :=
  let d := RegExp.Cls false [RegExp.Digit] in
  let sep := RegExp.Cls false
               [RegExp.Lit 45%N; RegExp.Lit 46%N; RegExp.Space] in
  RegExp.seq
    [ RegExp.Bol;
      RegExp.opt (RegExp.chr "+");
      RegExp.opt (RegExp.Group (RegExp.Quant d 1 (Some 3)));
      RegExp.opt sep;
      RegExp.opt (RegExp.Group (RegExp.seq
        [ RegExp.opt (RegExp.chr "(");
          RegExp.Quant d 3 (Some 3);
          RegExp.opt (RegExp.chr ")");
          RegExp.opt sep ]));
      RegExp.Quant (RegExp.Group (RegExp.seq [d; RegExp.opt sep])) 6 (Some 15);
      d;
      RegExp.Eol ].

(** The pattern of [customerSchema.email]: [/^[^\s@]+@[^\s@]+\.[^\s@]+$/] *)
Definition emailPattern : RegExp.regex :=
  let c := RegExp.Cls true [RegExp.Space; RegExp.Lit 64%N] in
  RegExp.seq
    [ RegExp.Bol;
      RegExp.plus c; RegExp.chr "@";
      RegExp.plus c; RegExp.chr ".";
      RegExp.plus c;
      RegExp.Eol ].

(** The setters of a [String] path: [trim: true], [lowercase: true]. *)
Definition set_trim (v : option jsstring) : option jsstring :=
  option_map trim v.

Definition set_lowercase (env : Env) (v : option jsstring) : option jsstring :=
  option_map (toLowerCase env) v.

(** [required] on a [String] path: the value is a non-empty string. *)
Definition check_required (path msg : string) (v : option jsstring)
  : list FieldError :=
  match v with
  | Some (_ :: _) => []
  | _ => [mkFieldError path msg]
  end.

(** [maxlength]: skipped when there is no value. *)
Definition check_maxlength (path msg : string) (max : nat)
    (v : option jsstring) : list FieldError :=
  match v with
  | Some s => if Nat.leb (List.length s) max then []
              else [mkFieldError path msg]
  | None => []
  end.

(** A [validate] entry with a pattern: skipped when there is no value. *)
Definition check_pattern (path msg : string) (r : RegExp.regex)
    (v : option jsstring) : list FieldError :=
  match v with
  | Some s => if RegExp.test r s then [] else [mkFieldError path msg]
  | None => []
  end.

(** A [Number] path that is required and has a [min]: the cast refuses
    [NaN], and the value is to be at least [min]. *)
Definition check_number (path castmsg minmsg : string) (min v : float)
  : list FieldError :=
  if PrimFloat.is_nan v then [mkFieldError path castmsg]
  else if (min <=? v)%float then [] else [mkFieldError path minmsg].

(** [required] on an opaque string. *)
Definition check_required_string (path msg : string) (v : string)
  : list FieldError :=
  if truthy_string v then [] else [mkFieldError path msg].

(** The first validator of a path that fails reports; the others of that
    path are not run. *)
Definition first_error (checks : list (list FieldError)) : list FieldError :=
  match List.filter (fun l => negb (Nat.eqb (List.length l) 0)) checks with
  | l :: _ => l
  | [] => []
  end.

Definition decimal (n : nat) : string :=
  NilZero.string_of_uint (Nat.to_uint n).

(** Validation of [customerSchema], on the values the setters left. *)
Definition validateCustomer (c : Customer) : list FieldError :=
  first_error
    [ check_required "customer.name" "Customer name is required" (name c);
      check_maxlength "customer.name" "Name cannot exceed 100 characters"
        100 (name c) ]
  ++ check_maxlength "customer.organization"
       "Organization name cannot exceed 100 characters" 100 (organization c)
  ++ first_error
       [ check_required "customer.phone" "Phone number is required" (phone c);
         check_pattern "customer.phone" "Please enter a valid phone number"
           phonePattern (phone c) ]
  ++ first_error
       [ check_required "customer.email" "Email is required" (email c);
         check_pattern "customer.email" "Please enter a valid email address"
           emailPattern (email c) ]
  ++ first_error
       [ check_required "customer.address" "Address is required" (address c);
         check_maxlength "customer.address"
           "Address cannot exceed 500 characters" 500 (address c) ].

(** Validation of one [orderItemSchema] element at index [i].  The [book]
    reference of an element is the identifier [Book.findById] has just
    resolved, which the cast to [ObjectId] accepts. *)
Definition validateItem (i : nat) (it : OrderItem) : list FieldError :=
  let p := fun f => "items." +:+ decimal i +:+ "." +:+ f in
  check_number (p "quantity") "Cast to Number failed"
    "Quantity must be at least 1" 1%float (quantity it)
  ++ check_number (p "price") "Cast to Number failed"
       "Price cannot be negative" 0%float (price it)
  ++ check_required_string (p "title") "Book title is required" (title it)
  ++ check_required_string (p "publisher") "Publisher is required"
       (publisher it)
  ++ check_required_string (p "image") "Book image is required" (image it).

Fixpoint validateItems (i : nat) (l : list OrderItem) : list FieldError :=
  match l with
  | [] => []
  | it :: l' => validateItem i it ++ validateItems (S i) l'
  end.

(** [new Order(orderData)]: the setters and the defaults of [orderSchema].
    [orderId] stays unset until the hook. *)
Definition newOrder (env : Env) (d : OrderData) : Order :=
  let c := od_customer d in
  {| orderId := "";
     customer :=
       {| name := set_trim (name c);
          organization := set_trim (organization c);
          phone := set_trim (phone c);
          email := set_lowercase env (set_trim (email c));
          address := set_trim (address c) |};
     items := od_items d;
     totalPrice := od_totalPrice d;
     status := pending;
     paymentStatus := payment_pending;
     shippingAddress := set_trim (od_shippingAddress d);
     notes := trim (od_notes d);
     createdAt := saveTime env;
     updatedAt := saveTime env |}.

(** Validation of [orderSchema]. *)
Definition validateOrder (o : Order) : list FieldError :=
  validateCustomer (customer o)
  ++ validateItems 0 (items o)
  ++ (if Nat.ltb 0 (List.length (items o)) then []
      else [mkFieldError "items" "Order must contain at least one item"])
  ++ check_number "totalPrice" "Cast to Number failed"
       "Total price cannot be negative" 0%float (totalPrice o)
  ++ check_required "shippingAddress" "Shipping address is required"
       (shippingAddress o)
  ++ check_maxlength "notes" "Notes cannot exceed 1000 characters" 1000
       (Some (notes o)).

Definition toUpperCase_ascii (a : ascii) : ascii :=
  let n := nat_of_ascii a in
  if Nat.leb 97 n && Nat.leb n 122 then ascii_of_nat (n - 32) else a.

(** [toUpperCase] on the output of [toString(36)], whose characters are
    ASCII. *)
Fixpoint toUpperCase (s : string) : string :=
  match s with
  | EmptyString => EmptyString
  | String a s' => String (toUpperCase_ascii a) (toUpperCase s')
  end.

(** [`${n}`] for the integer [Date.now()] returns. *)
Definition string_of_Z (z : Z) : string :=
  NilZero.string_of_int (Z.to_int z).

(** The second [pre('save')] hook:
    [`ORD-${Date.now()}-${Math.random().toString(36).substr(2, 9).toUpperCase()}`]
    when the document has no [orderId]. *)
Definition generateOrderId (env : Env) : string :=
  "ORD-" +:+ string_of_Z (idTime env) +:+ "-"
  +:+ toUpperCase (String.substring 2 9 (random36 env)).

Definition preSave (env : Env) (o : Order) : Order :=
  (* first hook: this.updatedAt = new Date() *)
  let o1 := {| orderId := orderId o; customer := customer o; items := items o;
               totalPrice := totalPrice o; status := status o;
               paymentStatus := paymentStatus o;
               shippingAddress := shippingAddress o; notes := notes o;
               createdAt := createdAt o; updatedAt := saveTime env |} in
  (* second hook *)
  if negb (truthy_string (orderId o1)) then
    {| orderId := generateOrderId env; customer := customer o1;
       items := items o1; totalPrice := totalPrice o1; status := status o1;
       paymentStatus := paymentStatus o1;
       shippingAddress := shippingAddress o1; notes := notes o1;
       createdAt := createdAt o1; updatedAt := updatedAt o1 |}
  else o1.

(** [order.save()]: validation, then the hooks, then the insertion, which the
    unique index on [orderId] refuses (error code 11000) when the identifier
    is taken. *)
Definition save (env : Env) (o : Order) (w : World)
  : completion exn Order * World :=
  match validateOrder o with
  | (_ :: _) as errs => (Throw (ValidationError errs), w)
  | [] =>
      let o' := preSave env o in
      match orders w !! orderId o' with
      | Some _ =>
          (Throw (MongoServerError 11000 "E11000 duplicate key error"), w)
      | None =>
          (Normal o',
           {| books := books w;
              orders := <[orderId o' := o']> (orders w);
              outbox := outbox w |})
      end
  end.

(** *** [utils/mailer.js] *)

(** The body of both senders: build the mail, [await transporter.sendMail],
    and in the [catch] log and throw the error again. *)
Definition deliver (env : Env) (m : Mail) (w : World)
  : completion exn unit * World :=
  if sendMail env m then
    (Normal tt,
     {| books := books w; orders := orders w; outbox := outbox w ++ [m] |})
  else (Throw (MailError "sendMail failed"), w).

(** [sendOrderNotificationToOwner] *)
Definition sendOrderNotificationToOwner (env : Env) (o : Order) (w : World)
  : completion exn unit * World :=
  deliver env {| mail_kind := OrderNotification; mail_to := OwnerEmail;
                 mail_orderId := orderId o |} w.

(** [sendOrderConfirmationToCustomer] *)
Definition sendOrderConfirmationToCustomer (env : Env) (o : Order) (w : World)
  : completion exn unit * World :=
  deliver env {| mail_kind := OrderConfirmation;
                 mail_to := CustomerEmail (email (customer o));
                 mail_orderId := orderId o |} w.

(** *** [controllers/orderController.js] *)

(** An element of [req.body.items]; a property that is not there is
    [None]. *)
Record ItemRequest := mkItemRequest {
  bookId : option string;
  req_quantity : option float
}.

(** [req.body.items]: not there, there but no array, or an array. *)
Inductive ItemsField :=
| ItemsUndefined
| ItemsNotArray
| ItemsArray (l : list ItemRequest).

Record Body := mkBody {
  body_customer : option Customer;
  body_items : ItemsField;
  body_totalPrice : option float;
  body_notes : option jsstring
}.

(** The request: its body, and what [validationResult(req)] holds after the
    validation chain of the route has run. *)
Record Request := mkRequest {
  validationErrors : list FieldError;
  body : Body
}.

(** The order as the success response shows it. *)
Record OrderView := mkOrderView {
  view_id : string;
  view_orderId : string;
  view_customer : Customer;
  view_items : list OrderItem;
  view_totalPrice : float;
  view_status : Status;
  view_orderDate : Z
}.

(** [res.status(...).json({...})]; a property that is not sent is [None]
    (or an empty list of details).  The [meta] of the success response, which
    repeats [orderId] and reports the time the request took, is left out. *)
Record Response := mkResponse {
  res_status : Z;
  success : bool;
  error : option string;
  message : option string;
  details : list FieldError;
  calculatedTotal : option float;
  providedTotal : option float;
  data : option OrderView
}.

Definition failure (status : Z) (error message : string) : Response :=
  {| res_status := status; success := false; error := Some error;
     message := Some message; details := [];
     calculatedTotal := None; providedTotal := None; data := None |}.

(** How the body of the handler is left before its end: by [return], or by
    an exception, which the [catch] of the handler receives. *)
Inductive exit :=
| Return (r : Response)
| Raise (e : exn).

Abbreviation Handler := (completion exit).

(** [x || ''] for an optional string. *)
Definition or_empty (v : option jsstring) : jsstring :=
  match v with
  | Some ((_ :: _) as s) => s
  | _ => []
  end.

(** The arguments of the first [logger.logOrderOperation]:
    [customer.email] and [items.length] are read while [customer] and
    [items] may be [undefined]. *)
Definition readLoggedFields (b : Body) : Handler Customer :=
  match body_customer b with
  | None =>
      Throw (Raise (TypeError "Cannot read properties of undefined"))
  | Some customer =>
      match body_items b with
      | ItemsUndefined =>
          Throw (Raise (TypeError "Cannot read properties of undefined"))
      | _ => Normal customer
      end
  end.

(** One round of [for (const item of items)]. *)
Definition processItem (w : World) (acc : list OrderItem * float)
    (item : ItemRequest) : Handler (list OrderItem * float) :=
  let '(processedItems, calculatedTotal) := acc in
  match bookId item, req_quantity item with
  | Some bookId, Some quantity =>
      if negb (truthy_string bookId) || negb (truthy_number quantity)
         || (quantity <=? 0)%float
      then Throw (Return (failure 400 "Invalid item data"
                    "Each item must have a valid bookId and quantity"))
      else
        match books w !! bookId with
        | None =>
            Throw (Return (failure 404 "Book not found"
                     ("Book with ID " +:+ bookId +:+ " not found")))
        | Some book =>
            let itemTotal := (book_price book * quantity)%float in
            Normal (processedItems ++
                      [{| Backend.book := bookId;
                          quantity := quantity;
                          price := book_price book;
                          title := book_title book;
                          publisher := book_publisher book;
                          image := book_image book |}],
                    (calculatedTotal + itemTotal)%float)
        end
  | _, _ =>
      Throw (Return (failure 400 "Invalid item data"
               "Each item must have a valid bookId and quantity"))
  end.

(** [orderData], the object the handler builds once the checks have
    passed. *)
Definition makeOrderData (customer : Customer) (processedItems : list OrderItem)
    (calculatedTotal : float) (notes : option jsstring) : OrderData :=
  {| od_customer :=
       {| name := name customer;
          organization := Some (or_empty (organization customer));
          phone := phone customer;
          email := email customer;
          address := address customer |};
     od_items := processedItems;
     od_totalPrice := calculatedTotal;
     od_shippingAddress := address customer;
     od_notes := or_empty notes |}.

(** The handler up to [const order = new Order(orderData)]: every check, and
    the order data when all of them pass.  Nothing is written here. *)
Definition prepare (req : Request) (w : World) : Handler OrderData :=
  if negb (Nat.eqb (List.length (validationErrors req)) 0) then
    Throw (Return
      {| res_status := 400; success := false;
         error := Some "Validation failed";
         message := Some "Please check your input data";
         details := validationErrors req;
         calculatedTotal := None; providedTotal := None; data := None |})
  else
    let b := body req in
    customer ← readLoggedFields b;
    (* Validate items array *)
    items ← match body_items b with
            | ItemsArray ((_ :: _) as l) => Normal l
            | _ => Throw (Return (failure 400 "Invalid order items"
                            "Order must contain at least one item"))
            end;
    (* Validate total price *)
    totalPrice ← match body_totalPrice b with
                 | Some t =>
                     if negb (truthy_number t) || (t <=? 0)%float
                     then Throw (Return (failure 400 "Invalid total price"
                                   "Total price must be greater than zero"))
                     else Normal t
                 | None => Throw (Return (failure 400 "Invalid total price"
                                    "Total price must be greater than zero"))
                 end;
    (* Process order items and validate books *)
    '(processedItems, calculatedTotal) ←
      reduceM (processItem w) items ([], 0%float);
    (* Validate calculated total matches provided total *)
    if (0.01 <? abs (calculatedTotal - totalPrice))%float then
      Throw (Return
        {| res_status := 400; success := false;
           error := Some "Total price mismatch";
           message := Some "Calculated total does not match provided total";
           details := [];
           calculatedTotal := Some calculatedTotal;
           providedTotal := Some totalPrice; data := None |})
    else Normal (makeOrderData customer processedItems calculatedTotal
                   (body_notes b)).

(** The [try] around the two mails: the confirmation is sent after the
    notification has been, and an exception of either ends the block and is
    logged. *)
Definition sendOrderEmails (env : Env) (o : Order) (w : World) : World :=
  match sendOrderNotificationToOwner env o w with
  | (Normal _, w1) =>
      match sendOrderConfirmationToCustomer env o w1 with
      | (Normal _, w2) => w2
      | (Throw _, w2) => w2
      end
  | (Throw _, w1) => w1
  end.

(** The [catch] of the handler. *)
Definition handleError (e : exn) : Response :=
  match e with
  | ValidationError errs =>
      {| res_status := 400; success := false;
         error := Some "Validation error";
         message := Some "Please check your input data";
         details := errs;
         calculatedTotal := None; providedTotal := None; data := None |}
  | MongoServerError code _ =>
      if (code =? 11000)%Z
      then failure 409 "Duplicate order" "An order with this ID already exists"
      else failure 500 "Failed to create order" (exn_message e)
  | TypeError _ | MailError _ =>
      failure 500 "Failed to create order" (exn_message e)
  end.

Definition created (o : Order) : Response :=
  {| res_status := 201; success := true; error := None;
     message := Some "Order created successfully"; details := [];
     calculatedTotal := None; providedTotal := None;
     data := Some {| view_id := orderId o;
                     view_orderId := orderId o;
                     view_customer := customer o;
                     view_items := items o;
                     view_totalPrice := totalPrice o;
                     view_status := status o;
                     view_orderDate := createdAt o |} |}.

(** [createOrder]: the response, and the world the request leaves. *)
Definition createOrder (env : Env) (req : Request) (w : World)
  : Response * World :=
  match prepare req w with
  | Throw (Return r) => (r, w)
  | Throw (Raise e) => (handleError e, w)
  | Normal orderData =>
      match save env (newOrder env orderData) w with
      | (Throw e, w1) => (handleError e, w1)
      | (Normal order, w1) =>
          let w2 := sendOrderEmails env order w1 in
          (created order, w2)
      end
  end.

(** *** Notions the properties are stated with *)

(** An item of a request that has a [bookId] and a quantity above zero. *)
Definition wellFormedItem (item : ItemRequest) : bool :=
  match bookId item, req_quantity item with
  | Some bookId, Some quantity =>
      truthy_string bookId && truthy_number quantity
      && negb (quantity <=? 0)%float
  | _, _ => false
  end.

(** The line of an item that resolves to a catalog book: the identifier and
    the quantity of the request with the price, title, publisher and image
    of the catalog. *)
Definition snapshot (w : World) (item : ItemRequest) : option OrderItem :=
  match bookId item, req_quantity item with
  | Some bookId, Some quantity =>
      match books w !! bookId with
      | Some book =>
          Some {| Backend.book := bookId;
                  quantity := quantity;
                  price := book_price book;
                  title := book_title book;
                  publisher := book_publisher book;
                  image := book_image book |}
      | None => None
      end
  | _, _ => None
  end.

(** The lines of the items of a request, when all of them resolve. *)
Fixpoint resolve (w : World) (l : list ItemRequest) : option (list OrderItem) :=
  match l with
  | [] => Some []
  | item :: l' =>
      match snapshot w item, resolve w l' with
      | Some s, Some ss => Some (s :: ss)
      | _, _ => None
      end
  end.

(** The sum of price times quantity over lines, added to [acc] in order. *)
Definition lineTotals (lines : list OrderItem) (acc : float) : float :=
  fold_left (fun sum line => (sum + price line * quantity line)%float)
            lines acc.

(** The total the server calculates: the sum over the items of catalog
    price times quantity. *)
Definition catalogTotal (w : World) (l : list ItemRequest) : option float :=
  option_map (fun lines => lineTotals lines 0%float) (resolve w l).

(** The response to a total that is off by more than the tolerance. *)
Definition totalMismatch (calculated provided : float) : Response :=
  {| res_status := 400; success := false;
     error := Some "Total price mismatch";
     message := Some "Calculated total does not match provided total";
     details := [];
     calculatedTotal := Some calculated;
     providedTotal := Some provided; data := None |}.

(** A request that gets as far as the comparison of the totals: it has come
    through the validation of the route, has a customer, a non-empty array of
    well-formed items that all resolve, and a total above zero. *)
Record reachesIntegrityCheck (req : Request) (w : World)
    (customer : Customer) (l : list ItemRequest) (totalPrice : float)
    (lines : list OrderItem) : Prop := {
  ric_validation : validationErrors req = [];
  ric_customer : body_customer (body req) = Some customer;
  ric_items : body_items (body req) = ItemsArray l;
  ric_nonempty : l <> [];
  ric_total : body_totalPrice (body req) = Some totalPrice;
  ric_total_truthy : truthy_number totalPrice = true;
  ric_total_positive : (totalPrice <=? 0)%float = false;
  ric_wellFormed : forallb wellFormedItem l = true;
  ric_resolve : resolve w l = Some lines
}.

(** The defects of a request that make the server refuse it. *)
Inductive defective (w : World) (req : Request) : Prop :=
| NoItems :
    body_items (body req) = ItemsUndefined
    \/ body_items (body req) = ItemsNotArray
    \/ body_items (body req) = ItemsArray [] ->
    defective w req
| NoTotal (t : float) :
    body_totalPrice (body req) = Some t -> (t <=? 0)%float = true ->
    defective w req
| NoBookId (l : list ItemRequest) (item : ItemRequest) :
    body_items (body req) = ItemsArray l -> In item l ->
    truthy_ostring (bookId item) = false ->
    defective w req
| NoQuantity (l : list ItemRequest) (item : ItemRequest) (q : float) :
    body_items (body req) = ItemsArray l -> In item l ->
    req_quantity item = Some q -> (q <=? 0)%float = true ->
    defective w req
| Unresolved (l : list ItemRequest) (item : ItemRequest) (bookId : string) :
    body_items (body req) = ItemsArray l -> In item l ->
    Backend.bookId item = Some bookId -> books w !! bookId = None ->
    defective w req.

(** A request whose only defect is an item that does not resolve. *)
Record unresolvedOnly (req : Request) (w : World) : Prop := {
  uo_validation : validationErrors req = [];
  uo_customer : body_customer (body req) <> None;
  uo_items : exists l, body_items (body req) = ItemsArray l
                       /\ forallb wellFormedItem l = true
                       /\ resolve w l = None;
  uo_total : exists t, body_totalPrice (body req) = Some t
                       /\ truthy_number t = true
                       /\ (t <=? 0)%float = false
}.

(** The two mails of an order. *)
Definition notificationMail (o : Order) : Mail :=
  {| mail_kind := OrderNotification; mail_to := OwnerEmail;
     mail_orderId := orderId o |}.

Definition confirmationMail (o : Order) : Mail :=
  {| mail_kind := OrderConfirmation;
     mail_to := CustomerEmail (email (customer o));
     mail_orderId := orderId o |}.

(** *** [getOrderById] and the virtuals of [orderSchema] *)

(** The virtual [totalItems]:
    [this.items.reduce((total, item) => total + item.quantity, 0)]. *)
Definition order_totalItems (o : Order) : float :=
  fold_left (fun total item => (total + quantity item)%float) (items o)
            0%float.

(** What [populate('items.book', 'title publisher image')] puts in the place
    of a [book] reference: the selected fields of the book, or [null] when
    the book is gone. *)
Record PopulatedBook := mkPopulatedBook {
  pb_id : string;
  pb_title : string;
  pb_publisher : string;
  pb_image : string
}.

Record PopulatedItem := mkPopulatedItem {
  pi_book : option PopulatedBook;
  pi_quantity : float;
  pi_price : float;
  pi_title : string;
  pi_publisher : string;
  pi_image : string
}.

(** The order as [findOne(...).populate(...).lean()] returns it. *)
Record OrderDocument := mkOrderDocument {
  doc_orderId : string;
  doc_customer : Customer;
  doc_items : list PopulatedItem;
  doc_totalPrice : float;
  doc_status : Status;
  doc_paymentStatus : PaymentStatus;
  doc_shippingAddress : option jsstring;
  doc_notes : jsstring;
  doc_createdAt : Z;
  doc_updatedAt : Z
}.

Record LookupResponse := mkLookupResponse {
  lookup_status : Z;
  lookup_success : bool;
  lookup_error : option string;
  lookup_message : option string;
  lookup_data : option OrderDocument
}.

Definition populateItem (w : World) (it : OrderItem) : PopulatedItem :=
  {| pi_book :=
       match books w !! book it with
       | Some b => Some {| pb_id := book it; pb_title := book_title b;
                           pb_publisher := book_publisher b;
                           pb_image := book_image b |}
       | None => None
       end;
     pi_quantity := quantity it;
     pi_price := price it;
     pi_title := title it;
     pi_publisher := publisher it;
     pi_image := image it |}.

Definition populateOrder (w : World) (o : Order) : OrderDocument :=
  {| doc_orderId := orderId o;
     doc_customer := customer o;
     doc_items := List.map (populateItem w) (items o);
     doc_totalPrice := totalPrice o;
     doc_status := status o;
     doc_paymentStatus := paymentStatus o;
     doc_shippingAddress := shippingAddress o;
     doc_notes := notes o;
     doc_createdAt := createdAt o;
     doc_updatedAt := updatedAt o |}.

(** [getOrderById], for the [id] of the route, while the database answers
    the query (the [catch] of the handler is for a query that fails). *)
Definition getOrderById (id : string) (w : World) : LookupResponse :=
  match orders w !! id with
  | None =>
      {| lookup_status := 404; lookup_success := false;
         lookup_error := Some "Order not found";
         lookup_message := Some ("No order found with ID: " +:+ id);
         lookup_data := None |}
  | Some order =>
      {| lookup_status := 200; lookup_success := true;
         lookup_error := None; lookup_message := None;
         lookup_data := Some (populateOrder w order) |}
  end.

(** What a stored order has to be like for the schema to let it in. *)
Record schemaValid (o : Order) : Prop := {
  sv_items : items o <> [];
  sv_lines : Forall (fun it =>
               (1 <=? quantity it)%float = true
               /\ (0 <=? price it)%float = true
               /\ title it <> "" /\ publisher it <> "" /\ image it <> "")
             (items o);
  sv_total : (0 <=? totalPrice o)%float = true;
  sv_name : exists s, name (customer o) = Some s
                      /\ s <> [] /\ List.length s <= 100;
  sv_phone : exists s, phone (customer o) = Some s
                       /\ RegExp.test phonePattern s = true;
  sv_email : exists s, email (customer o) = Some s
                       /\ RegExp.test emailPattern s = true;
  sv_address : exists s, address (customer o) = Some s
                         /\ s <> [] /\ List.length s <= 500;
  sv_shipping : exists s, shippingAddress o = Some s /\ s <> [];
  sv_notes : List.length (notes o) <= 1000
}.

(** The route [POST /api/orders] answering requests one after the other,
    each with the clock, the random generator and the mail transport of its
    time. *)
Definition serve (l : list (Env * Request)) (w : World) : World :=
  fold_left (fun w er => snd (createOrder (fst er) (snd er) w)) l w.

(** A database with a catalog and no order yet. *)
Definition freshWorld (catalog : gmap string Book) : World :=
  {| books := catalog; orders := ∅; outbox := [] |}.

(** What holds of the database between requests: an order is stored under
    its own [orderId], which the hook has generated; it is one the schema
    lets in, in the state the defaults give; and every mail that went out is
    a mail of a stored order. *)
Record storeInvariant (w : World) : Prop := {
  inv_keys : forall id o, orders w !! id = Some o ->
               orderId o = id /\ String.prefix "ORD-" id = true;
  inv_schema : forall id o, orders w !! id = Some o ->
                 schemaValid o /\ status o = pending
                 /\ paymentStatus o = payment_pending;
  inv_mails : forall m, In m (outbox w) ->
                exists o, orders w !! mail_orderId m = Some o
                          /\ (m = notificationMail o \/ m = confirmationMail o)
}.

End Backend.

(* ===================================================================== *)
(** ** The checkout page: field validators and [handleSubmit] *)
(* ===================================================================== *)

Module Checkout.
Import JS.

(** [PHONE_REGEX]:
    [/^\+?(\d{1,3})?[-.\s]?(\(?\d{3}\)?[-.\s]?)?(\d[-.\s]?){6,15}\d$/] *)
Definition PHONE_REGEX : RegExp.regex :=
  let digit := RegExp.Cls false [RegExp.Digit] in
  let separator :=
    RegExp.Cls false [RegExp.Lit 45%N; RegExp.Lit 46%N; RegExp.Space] in
  RegExp.seq
    [ RegExp.Bol;
      RegExp.opt (RegExp.chr "+");
      RegExp.opt (RegExp.Group (RegExp.Quant digit 1 (Some 3)));
      RegExp.opt separator;
      RegExp.opt (RegExp.Group (RegExp.seq
        [ RegExp.opt (RegExp.chr "(");
          RegExp.Quant digit 3 (Some 3);
          RegExp.opt (RegExp.chr ")");
          RegExp.opt separator ]));
      RegExp.Quant (RegExp.Group (RegExp.seq [digit; RegExp.opt separator]))
        6 (Some 15);
      digit;
      RegExp.Eol ].

(** [EMAIL_REGEX]: [/^[^\s@]+@[^\s@]+\.[^\s@]+$/] *)
Definition EMAIL_REGEX : RegExp.regex :=
  let other := RegExp.Cls true [RegExp.Space; RegExp.Lit 64%N] in
  RegExp.seq
    [ RegExp.Bol;
      RegExp.plus other; RegExp.chr "@";
      RegExp.plus other; RegExp.chr ".";
      RegExp.plus other;
      RegExp.Eol ].

(** [CheckoutFormData] *)
Record CheckoutFormData := mkForm {
  name : jsstring;
  organization : option jsstring;
  phone : jsstring;
  email : jsstring;
  address : jsstring;
  notes : option jsstring
}.

(** [keyof CheckoutFormData] *)
Inductive FieldName :=
| f_name | f_organization | f_phone | f_email | f_address | f_notes.

Definition key (f : FieldName) : string :=
  match f with
  | f_name => "name"
  | f_organization => "organization"
  | f_phone => "phone"
  | f_email => "email"
  | f_address => "address"
  | f_notes => "notes"
  end.

(** [!value.trim()] *)
Definition blank (value : jsstring) : bool :=
  Nat.eqb (List.length (trim value)) 0.

(** [validateField(name, value)]: the error message, [""] when there is
    none. *)
Definition validateField (name : FieldName) (value : jsstring) : string :=
  match name with
  | f_name =>
      if blank value then "Name is required"
      else if Nat.ltb (List.length (trim value)) 2
           then "Name must be at least 2 characters"
           else ""
  | f_phone =>
      if blank value then "Phone number is required"
      else if negb (RegExp.test PHONE_REGEX (trim value))
           then "Please enter a valid phone number (e.g., +1-555-123-4567)"
           else ""
  | f_email =>
      if blank value then "Email is required"
      else if negb (RegExp.test EMAIL_REGEX (trim value))
           then "Please enter a valid email address"
           else ""
  | f_address =>
      if blank value then "Address is required"
      else if Nat.ltb (List.length (trim value)) 10
           then "Address must be at least 10 characters"
           else ""
  | _ => ""
  end.

(** [formData[fieldName]]; [undefined] is [None]. *)
Definition get (formData : CheckoutFormData) (f : FieldName)
  : option jsstring :=
  match f with
  | f_name => Some (name formData)
  | f_organization => organization formData
  | f_phone => Some (phone formData)
  | f_email => Some (email formData)
  | f_address => Some (address formData)
  | f_notes => notes formData
  end.

Definition requiredFields : list FieldName :=
  [f_name; f_phone; f_email; f_address].

(** [validateForm]: the verdict, and the errors it hands to [setErrors]. *)
Definition validateForm (formData : CheckoutFormData)
  : bool * gmap string string :=
  fold_left
    (fun (acc : bool * gmap string string) fieldName =>
       let '(isValid, newErrors) := acc in
       match get formData fieldName with
       | Some value =>
           let error := validateField fieldName value in
           if truthy_string error
           then (false, <[key fieldName := error]> newErrors)
           else acc
       | None => acc
       end)
    requiredFields (true, ∅).

(** The body of [orderApi.createOrder]'s request. *)
Record OrderItemRequest := mkOrderItemRequest {
  bookId : string;
  quantity : float
}.

Record OrderRequest := mkOrderRequest {
  req_customer : CheckoutFormData;
  req_items : list OrderItemRequest;
  req_totalPrice : float;
  req_notes : jsstring
}.

(** What [handleSubmit] reads of [response.data]. *)
Record OrderRef := mkOrderRef {
  ref_orderId : option string;
  ref_id : option string
}.

(** [ApiResponse<Order>]; a [data] that is absent or falsy is [None]. *)
Record ApiResponse := mkApiResponse {
  api_success : bool;
  api_data : option OrderRef;
  api_error : option string
}.

(** What [fetch] and [response.json()] gave: an exception (no connection, a
    body that is no JSON), or a status line and the body the server sent. *)
Inductive Exchange :=
| FetchFailed (message : string)
| Fetched (r : Backend.Response).

(** [response.ok] *)
Definition ok (r : Backend.Response) : bool :=
  ((200 <=? Backend.res_status r) && (Backend.res_status r <=? 299))%Z.

(** [apiRequest], on the exchange its [fetch] had. *)
Definition apiRequest (x : Exchange) : ApiResponse :=
  match x with
  | Fetched r =>
      if negb (ok r) then
        {| api_success := false; api_data := None;
           api_error :=
             let e := or_ostring (Backend.error r) (Backend.message r) in
             if truthy_ostring e then e
             else Some ("HTTP error! status: "
                        +:+ Backend.string_of_Z (Backend.res_status r)) |}
      else
        {| api_success := true;
           api_data :=
             Some match Backend.data r with
                  | Some v =>
                      {| ref_orderId := Some (Backend.view_orderId v);
                         ref_id := Some (Backend.view_id v) |}
                  | None => {| ref_orderId := None; ref_id := None |}
                  end;
           api_error := None |}
  | FetchFailed message =>
      {| api_success := false; api_data := None; api_error := Some message |}
  end.

(** How [await orderApi.createOrder(orderData)] ends. *)
Inductive ApiOutcome :=
| Resolved (response : ApiResponse)
| Rejected (message : string).

(** Whether [handleSubmit] takes the answer for a success:
    [response.success && response.data]. *)
Definition confirmed (o : ApiOutcome) : bool :=
  match o with
  | Resolved response =>
      api_success response
      && match api_data response with Some _ => true | None => false end
  | Rejected _ => false
  end.

(** What the page shows and holds. *)
Record Page := mkPage {
  formData : CheckoutFormData;
  errors : gmap string string;
  isSubmitting : bool;
  cart : Cart.CartState
}.

(** What [handleSubmit] does to the outside, in the order it does it. *)
Inductive event :=
| CreateOrderCall (request : OrderRequest)
| ToastSuccess
| ClearCart
| RedirectLater (orderId : option string)
| ToastError.

(** The callback of [items.map] in [handleSubmit]. *)
Definition toOrderItem (item : Cart.CartItem)
  : completion string OrderItemRequest :=
  match Cart.book item with
  | None => Throw "Invalid cart item: book is undefined"
  | Some b =>
      match Cart.bookId_of b with
      | Some bookId =>
          if truthy_string bookId
          then Normal {| bookId := bookId; quantity := Cart.quantity item |}
          else Throw ("Invalid book ID for item: " +:+ Cart.title b)
      | None => Throw ("Invalid book ID for item: " +:+ Cart.title b)
      end
  end.

Definition set_errors (p : Page) (e : gmap string string) : Page :=
  {| formData := formData p; errors := e;
     isSubmitting := isSubmitting p; cart := cart p |}.

Definition set_isSubmitting (p : Page) (b : bool) : Page :=
  {| formData := formData p; errors := errors p;
     isSubmitting := b; cart := cart p |}.

Definition set_cart (p : Page) (c : Cart.CartState) : Page :=
  {| formData := formData p; errors := errors p;
     isSubmitting := isSubmitting p; cart := c |}.

(** The [catch] and [finally] of [handleSubmit]. *)
Definition submitFailed (evs : list event) (p : Page) : list event * Page :=
  (evs ++ [ToastError],
   set_isSubmitting
     (set_errors p
        {[ "submit" := "Failed to process your order. Please try again." ]})
     false).

(** [handleSubmit], given how the order-creation call answers. *)
Definition handleSubmit (api : OrderRequest -> ApiOutcome) (p : Page)
  : list event * Page :=
  let '(valid, newErrors) := validateForm (formData p) in
  let p := set_errors p newErrors in
  if negb valid then ([], p) else
  let p := set_isSubmitting p true in
  match mapM toOrderItem (Cart.items (cart p)) with
  | Throw _ => submitFailed [] p
  | Normal items =>
      let orderData :=
        {| req_customer := formData p;
           req_items := items;
           req_totalPrice := Cart.totalPrice (cart p);
           req_notes := Backend.or_empty (notes (formData p)) |} in
      let evs := [CreateOrderCall orderData] in
      match api orderData with
      | Rejected _ => submitFailed evs p
      | Resolved response =>
          match api_success response, api_data response with
          | true, Some d =>
              let orderId := or_ostring (ref_orderId d) (ref_id d) in
              (evs ++ [ToastSuccess; ClearCart; RedirectLater orderId],
               set_isSubmitting
                 (set_cart p (Cart.dispatch Cart.clearCart (cart p)))
                 false)
          | _, _ => submitFailed evs p
          end
      end
  end.

(** *** Characters of a form field *)

(** A character that is neither white space nor [@]. *)
Definition plainChar (ch : char) : bool :=
  negb (is_space ch || N.eqb ch 64).

(** A character a phone number may have: a digit, white space, or one of
    [+], [(], [)], [-], [.]. *)
Definition phoneChar (ch : char) : bool :=
  is_digit ch || is_space ch || existsb (N.eqb ch) (of_string "+()-.").

(** *** The request on the wire *)

(** A number through [JSON.stringify] and [JSON.parse]: [NaN] and the
    infinities become [null], [-0] becomes [0], every other number comes
    back as it is. *)
Definition jsonNumber (x : float) : option float :=
  if PrimFloat.is_nan x || PrimFloat.is_infinity x then None
  else if PrimFloat.is_zero x then Some 0%float
  else Some x.

(** An element of [orderData.items] as the server reads it in [req.body]. *)
Definition toBodyItem (item : OrderItemRequest) : Backend.ItemRequest :=
  {| Backend.bookId := Some (bookId item);
     Backend.req_quantity := jsonNumber (quantity item) |}.

(** A cart entry whose book the catalog of the server has, under the
    identifier of the entry and at the price the cart shows. *)
Definition catalogPrice (w : Backend.World) (entry : Cart.CartItem) : Prop :=
  exists b id bk,
    Cart.book entry = Some b /\ Cart.bookId_of b = Some id
    /\ Backend.books w !! id = Some bk
    /\ Backend.book_price bk = Cart.price b.

End Checkout.

(* ===================================================================== *)
(** ** Sample data *)
(* ===================================================================== *)

Module Sample.
Import JS Backend.

Definition B1 : string := "64b7f0c2a1d3e4f5a6b7c8d9".

Definition algebra : Book :=
  {| book_title := "Algebra"; book_publisher := "KDJP";
     book_price := 12.99; book_image := "https://example.com/algebra.png" |}.

(** A catalog with one book, no order and no mail. *)
Definition world : World :=
  {| books := {[ B1 := algebra ]}; orders := ∅; outbox := [] |}.

(** [toLowerCase] on ASCII letters. *)
Definition lower (s : jsstring) : jsstring :=
  List.map (fun c => if ((65 <=? c) && (c <=? 90))%N then (c + 32)%N else c) s.

(** A request served while the mail transport works. *)
Definition env : Env :=
  {| saveTime := 1730000000000; idTime := 1730000000001;
     random36 := "0.k3j9x2m1p8q";
     sendMail := fun _ => true;
     toLowerCase := lower |}.

(** The same while the transport refuses the mail to the owner only. *)
Definition env_owner_down : Env :=
  {| saveTime := 1730000000000; idTime := 1730000000001;
     random36 := "0.k3j9x2m1p8q";
     sendMail := fun m => match mail_kind m with
                          | OrderNotification => false
                          | OrderConfirmation => true
                          end;
     toLowerCase := lower |}.

Definition alice : Customer :=
  {| name := Some (of_string "Alice Doe");
     organization := None;
     phone := Some (of_string "+1-555-123-4567");
     email := Some (of_string "alice@example.com");
     address := Some (of_string "12 Main Street, Springfield") |}.

(** Two copies of [B1] for a claimed total. *)
Definition order_of (bookId : string) (total : float) : Request :=
  {| validationErrors := [];
     body := {| body_customer := Some alice;
                body_items := ItemsArray
                  [ {| bookId := Some bookId; req_quantity := Some 2%float |} ];
                body_totalPrice := Some total;
                body_notes := None |} |}.

Definition line : OrderItem :=
  {| book := B1; quantity := 2; price := 12.99; title := "Algebra";
     publisher := "KDJP"; image := "https://example.com/algebra.png" |}.

(** The checkout page of a customer with one entry in the cart. *)
Definition page : Checkout.Page :=
  {| Checkout.formData :=
       {| Checkout.name := of_string "Alice Doe";
          Checkout.organization := Some [];
          Checkout.phone := of_string "+1-555-123-4567";
          Checkout.email := of_string "alice@example.com";
          Checkout.address := of_string "12 Main Street, Springfield";
          Checkout.notes := None |};
     Checkout.errors := ∅;
     Checkout.isSubmitting := false;
     Checkout.cart :=
       Cart.recomputed
         [ {| Cart.book :=
                Some {| Cart._id := Some B1; Cart.id := None;
                        Cart.title := "Algebra"; Cart.publisher := "KDJP";
                        Cart.price := 12.99;
                        Cart.image := "https://example.com/algebra.png" |};
              Cart.quantity := 2 |} ] |}.

(** The request of the page as the server reads it, for a customer the
    validation chain of the route lets through as [alice]. *)
Definition wire (r : Checkout.OrderRequest) : Request :=
  {| validationErrors := [];
     body := {| body_customer := Some alice;
                body_items :=
                  ItemsArray (List.map Checkout.toBodyItem
                                (Checkout.req_items r));
                body_totalPrice :=
                  Checkout.jsonNumber (Checkout.req_totalPrice r);
                body_notes := Some (Checkout.req_notes r) |} |}.

End Sample.

(* ===================================================================== *)
(** * Properties *)
(* ===================================================================== *)

(** ** Strings *)

Section StringFacts.
Import JS.

Lemma space_not_digit (c : char) : is_space c = true -> is_digit c = false.
Proof.
  unfold is_space, is_digit. intros Hs.
  destruct (N.leb_spec 48 c) as [Hlo|Hlo]; [|reflexivity].
  destruct (N.leb_spec c 57) as [Hhi|Hhi]; [|reflexivity].
  exfalso. revert Hs.
  replace (c <=? 13)%N with false by (symmetry; apply N.leb_gt; lia).
  replace (8192 <=? c)%N with false by (symmetry; apply N.leb_gt; lia).
  repeat match goal with
         | |- context [N.eqb c ?k] =>
             replace (N.eqb c k) with false by (symmetry; apply N.eqb_neq; lia)
         end.
  rewrite andb_false_r. discriminate.
Qed.

Lemma count_digits_app (s t : jsstring) :
  count_digits (s ++ t) = count_digits s + count_digits t.
Proof.
  unfold count_digits. rewrite List.filter_app. apply List.length_app.
Qed.

Lemma count_digits_rev (s : jsstring) : count_digits (rev s) = count_digits s.
Proof.
  induction s as [|c s IH]; [reflexivity|].
  simpl rev. rewrite count_digits_app, IH.
  change (c :: s) with ([c] ++ s). rewrite count_digits_app. lia.
Qed.

Lemma count_digits_trimStart (s : jsstring) :
  count_digits (trimStart s) = count_digits s.
Proof.
  induction s as [|c s IH]; [reflexivity|].
  simpl. destruct (is_space c) eqn:Hc; [|reflexivity].
  rewrite IH. unfold count_digits. simpl.
  now rewrite (space_not_digit c Hc).
Qed.

Lemma count_digits_trim (s : jsstring) : count_digits (trim s) = count_digits s.
Proof.
  unfold trim, trimEnd.
  now rewrite count_digits_rev, count_digits_trimStart, count_digits_rev,
    count_digits_trimStart.
Qed.

End StringFacts.

(** ** Regular expressions: what a match has read *)

Section RegExpFacts.
Import JS RegExp.

Lemma all_digit_atoms (atoms : list atom) (ch : char) :
  forallb (fun a => match a with
                    | Digit => true
                    | Space => false
                    | Lit c => is_digit c
                    end) atoms = true ->
  existsb (fun a => atom_matches a ch) atoms = true ->
  is_digit ch = true.
Proof.
  induction atoms as [|a atoms IH]; simpl; [discriminate|].
  intros Hall Hex. apply andb_prop in Hall as [Ha Hall].
  apply orb_prop in Hex as [Hex|Hex]; [|now apply IH].
  destruct a as [| |d]; simpl in *; try congruence.
  apply N.eqb_eq in Hex. now subst.
Qed.

Lemma no_digit_atoms (atoms : list atom) (ch : char) :
  forallb (fun a => match a with
                    | Digit => false
                    | Space => true
                    | Lit c => negb (is_digit c)
                    end) atoms = true ->
  existsb (fun a => atom_matches a ch) atoms = true ->
  is_digit ch = false.
Proof.
  induction atoms as [|a atoms IH]; simpl; [discriminate|].
  intros Hall Hex. apply andb_prop in Hall as [Ha Hall].
  apply orb_prop in Hex as [Hex|Hex]; [|now apply IH].
  destruct a as [| |d]; simpl in *; try congruence.
  - now apply space_not_digit.
  - apply N.eqb_eq in Hex. subst. now apply negb_true_iff.
Qed.

Lemma count_digits_one (ch : char) :
  count_digits [ch] = if is_digit ch then 1 else 0.
Proof. unfold count_digits. simpl. now destruct (is_digit ch). Qed.

Lemma RepeatMatcher_reads (m : Matcher) lo hi e :
  reads m lo hi e ->
  forall n min x c, RepeatMatcher m n min x c = true ->
    exists w y, x = w ++ y /\ c y = true
      /\ Nat.min min n * lo <= count_digits w
      /\ (forall a, hi = Some a -> count_digits w <= n * a).
Proof.
  intros Hm. induction n as [|n IH]; intros min x c H.
  - simpl in H. exists [], x. rewrite Nat.min_0_r. simpl.
    repeat split; auto; intros; unfold count_digits; simpl; lia.
  - simpl in H.
    assert (Hround :
      m x (fun y => if Nat.eqb min 0 && Nat.eqb (length y) (length x)
                    then false
                    else RepeatMatcher m n (Nat.pred min) y c) = true ->
      exists w y, x = w ++ y /\ c y = true
        /\ Nat.min min (S n) * lo <= count_digits w
        /\ (forall a, hi = Some a -> count_digits w <= S n * a)).
    { intros H1. apply Hm in H1 as (w1 & y1 & -> & Hd & Hlo & Hhi & _).
      destruct (Nat.eqb min 0 && Nat.eqb (length y1) (length (w1 ++ y1)));
        [discriminate|].
      apply IH in Hd as (w2 & y2 & -> & Hc & Hlo2 & Hhi2).
      exists (w1 ++ w2), y2. rewrite <- List.app_assoc.
      repeat split; auto; rewrite count_digits_app.
      - destruct min as [|min]; simpl in *; [lia|].
        nia.
      - intros a Ha. specialize (Hhi a Ha). specialize (Hhi2 a Ha). lia. }
    destruct (Nat.eqb_spec min 0) as [->|Hne].
    + apply orb_prop in H as [H|H]; [now apply Hround|].
      exists [], x. simpl. repeat split; auto;
        intros; unfold count_digits; simpl; lia.
    + now apply Hround.
Qed.

Lemma matcher_reads (len : nat) (r : regex) :
  reads (matcher len r) (digits_lo r) (digits_hi r) (ends_at_eol r).
Proof.
  induction r as [| | |neg atoms|r1 IH1 r2 IH2|r1 IH1 r2 IH2|r1 IH1
                  |r1 IH1 min max]; intros x c H; simpl in H.
  - exists [], x. simpl. repeat split; auto; try discriminate.
    intros h [= <-]. reflexivity.
  - apply andb_prop in H as [_ H].
    exists [], x. simpl. repeat split; auto; try discriminate.
    intros h [= <-]. reflexivity.
  - destruct x; [|discriminate].
    exists [], []. simpl. repeat split; auto.
    intros h [= <-]. reflexivity.
  - destruct x as [|ch y]; [discriminate|].
    destruct (class_matches neg atoms ch) eqn:Hcls; [|discriminate].
    exists [ch], y. simpl ends_at_eol.
    repeat split; auto; try discriminate; rewrite count_digits_one.
    + simpl. destruct neg; simpl; [lia|].
      destruct (Nat.eqb (length atoms) 0); simpl; [lia|].
      match goal with |- context [forallb ?f atoms] =>
        destruct (forallb f atoms) eqn:Hall end; [|lia].
      unfold class_matches in Hcls. simpl in Hcls.
      now rewrite (all_digit_atoms atoms ch Hall Hcls).
    + simpl. intros h.
      destruct neg; simpl.
      * intros [= <-]. destruct (is_digit ch); lia.
      * match goal with |- context [forallb ?f atoms] =>
          destruct (forallb f atoms) eqn:Hall end;
          intros [= <-]; [|destruct (is_digit ch); lia].
        unfold class_matches in Hcls. simpl in Hcls.
        now rewrite (no_digit_atoms atoms ch Hall Hcls).
  - apply IH1 in H as (w1 & y1 & -> & H & Hlo1 & Hhi1 & _).
    apply IH2 in H as (w2 & y2 & -> & H & Hlo2 & Hhi2 & He).
    exists (w1 ++ w2), y2. rewrite <- List.app_assoc.
    repeat split; auto; rewrite count_digits_app; simpl; [lia|].
    intros h. destruct (digits_hi r1) as [a|]; [|discriminate].
    destruct (digits_hi r2) as [b|]; [|discriminate].
    intros [= <-]. specialize (Hhi1 a eq_refl). specialize (Hhi2 b eq_refl).
    lia.
  - apply orb_prop in H as [H|H].
    + apply IH1 in H as (w & y & -> & H & Hlo & Hhi & He).
      exists w, y. repeat split; auto; simpl; [lia| |].
      * intros h. destruct (digits_hi r1) as [a|]; [|discriminate].
        destruct (digits_hi r2) as [b|]; [|discriminate].
        intros [= <-]. specialize (Hhi a eq_refl). lia.
      * intros Hb. apply andb_prop in Hb as [Hb _]. auto.
    + apply IH2 in H as (w & y & -> & H & Hlo & Hhi & He).
      exists w, y. repeat split; auto; simpl; [lia| |].
      * intros h. destruct (digits_hi r1) as [a|]; [|discriminate].
        destruct (digits_hi r2) as [b|]; [|discriminate].
        intros [= <-]. specialize (Hhi b eq_refl). lia.
      * intros Hb. apply andb_prop in Hb as [_ Hb]. auto.
  - apply IH1 in H as (w & y & -> & H & Hlo & Hhi & He).
    exists w, y. repeat split; auto.
  - apply (RepeatMatcher_reads _ _ _ _ IH1) in H
      as (w & y & -> & H & Hlo & Hhi).
    exists w, y. simpl ends_at_eol. repeat split; auto; try discriminate.
    + simpl. destruct max as [n|]; simpl in *; [exact Hlo|].
      rewrite Nat.min_l in Hlo by lia. exact Hlo.
    + simpl. intros h. destruct max as [n|]; simpl in *.
      * destruct (digits_hi r1) as [a|]; [|discriminate].
        intros [= <-]. now apply Hhi.
      * destruct (digits_hi r1) as [[|a]|]; try discriminate.
        intros [= <-]. specialize (Hhi 0 eq_refl). lia.
Qed.

(** A successful search has matched at some suffix of the input. *)
Lemma search_inv (len : nat) (r : regex) (x : State) :
  search len r x = true ->
  exists pre t, x = pre ++ t /\ matcher len r t (fun _ => true) = true.
Proof.
  induction x as [|ch x IH]; simpl; intros H.
  - rewrite orb_false_r in H. now exists [], [].
  - apply orb_prop in H as [H|H].
    + now exists [], (ch :: x).
    + apply IH in H as (pre & t & -> & H). now exists (ch :: pre), t.
Qed.

(** A pattern [^r] with [r] ending on [$] matches the whole string, and the
    digits of the string are within the bounds of [r]. *)
Lemma test_anchored_digits (r : regex) (s : jsstring) (hi : nat) :
  ends_at_eol r = true ->
  digits_hi r = Some hi ->
  test (Seq Bol r) s = true ->
  digits_lo r <= count_digits s <= hi
  /\ matcher (length s) r s (fun _ => true) = true.
Proof.
  intros He Hhi H. unfold test in H.
  apply search_inv in H as (pre & t & Hs & H). simpl in H.
  apply andb_prop in H as [Hlen H]. apply Nat.eqb_eq in Hlen.
  assert (pre = []) as ->.
  { rewrite Hs, List.length_app in Hlen. destruct pre; [reflexivity|].
    simpl in Hlen. lia. }
  simpl in Hs. subst t. split; [|exact H].
  apply matcher_reads in H as (w & y & Hs & _ & Hlo & Hhi' & Hy).
  rewrite (Hy He), List.app_nil_r in Hs. subst w.
  split; [exact Hlo|now apply Hhi'].
Qed.

(** *** Quantifiers without an upper bound

    The rounds granted by [rounds] are enough: more of them change
    nothing. *)

Lemma RepeatMatcher_local (m : Matcher) :
  local m -> forall n min, local (fun x c => RepeatMatcher m n min x c).
Proof.
  intros Hm. induction n as [|n IH]; intros min x c1 c2 Hc; simpl.
  - apply Hc. lia.
  - rewrite (Hc x) by lia.
    rewrite (Hm x _ (fun y =>
               if Nat.eqb min 0 && Nat.eqb (length y) (length x) then false
               else RepeatMatcher m n (Nat.pred min) y c2)); [reflexivity|].
    intros y Hy.
    destruct (Nat.eqb min 0 && Nat.eqb (length y) (length x));
      [reflexivity|].
    apply IH. intros z Hz. apply Hc. lia.
Qed.

Lemma matcher_local (len : nat) (r : regex) : local (matcher len r).
Proof.
  induction r as [| | |neg atoms|r1 IH1 r2 IH2|r1 IH1 r2 IH2|r1 IH1
                  |r1 IH1 min max]; intros x c1 c2 Hc; simpl.
  - apply Hc. lia.
  - rewrite (Hc x) by lia. reflexivity.
  - destruct x; [apply Hc; simpl; lia|reflexivity].
  - destruct x as [|ch y]; [reflexivity|].
    destruct (class_matches neg atoms ch); [|reflexivity].
    apply Hc. simpl. lia.
  - apply IH1. intros y Hy. apply IH2. intros z Hz. apply Hc. lia.
  - rewrite (IH1 x c1 c2 Hc), (IH2 x c1 c2 Hc). reflexivity.
  - now apply IH1.
  - now apply (RepeatMatcher_local _ IH1).
Qed.

Lemma matcher_fails (len : nat) (r : regex) (x : State) (c : Continuation) :
  (forall y, length y <= length x -> c y = false) ->
  matcher len r x c = false.
Proof.
  intros Hc.
  destruct (matcher len r x (fun _ => false)) eqn:H.
  - apply matcher_reads in H as (w & y & _ & H & _). discriminate.
  - rewrite <- H. apply matcher_local. exact Hc.
Qed.

Lemma one_more_round (len : nat) (r : regex) (c : Continuation) :
  forall n min x, min + length x <= n ->
    RepeatMatcher (matcher len r) (S n) min x c
    = RepeatMatcher (matcher len r) n min x c.
Proof.
  induction n as [|n IH]; intros min x Hn.
  - assert (min = 0) as -> by lia.
    destruct x as [|ch x]; [|simpl in Hn; lia].
    simpl. rewrite matcher_fails; [reflexivity|].
    intros y Hy. destruct y; [reflexivity|simpl in Hy; lia].
  - change (RepeatMatcher (matcher len r) (S (S n)) min x c)
      with (let d : Continuation := fun y =>
              if Nat.eqb min 0 && Nat.eqb (length y) (length x) then false
              else RepeatMatcher (matcher len r) (S n) (Nat.pred min) y c in
            if Nat.eqb min 0 then matcher len r x d || c x
            else matcher len r x d).
    change (RepeatMatcher (matcher len r) (S n) min x c)
      with (let d : Continuation := fun y =>
              if Nat.eqb min 0 && Nat.eqb (length y) (length x) then false
              else RepeatMatcher (matcher len r) n (Nat.pred min) y c in
            if Nat.eqb min 0 then matcher len r x d || c x
            else matcher len r x d).
    cbv zeta.
    rewrite (matcher_local len r x _ (fun y =>
               if Nat.eqb min 0 && Nat.eqb (length y) (length x) then false
               else RepeatMatcher (matcher len r) n (Nat.pred min) y c));
      [reflexivity|].
    intros y Hy.
    destruct (Nat.eqb_spec min 0) as [->|Hmin]; cbn [andb Nat.pred].
    + destruct (Nat.eqb_spec (length y) (length x)) as [_|Hlen];
        [reflexivity|].
      apply IH. simpl. lia.
    + apply IH. lia.
Qed.

(** The matcher of [r{min,}] is the matcher of [r{min,n}] for every [n] from
    [min] plus the length of the input on. *)
Lemma rounds_enough (len : nat) (r : regex) (c : Continuation)
    (min : nat) (x : State) (k : nat) :
  RepeatMatcher (matcher len r) (rounds min None x + k) min x c
  = matcher len (Quant r min None) x c.
Proof.
  simpl. induction k as [|k IH].
  - now rewrite Nat.add_0_r.
  - rewrite Nat.add_succ_r, one_more_round by lia. exact IH.
Qed.

End RegExpFacts.

(** ** Regular expressions: the matcher and the strings a pattern matches *)

Section RegExpSemantics.
Import JS RegExp.

Lemma iter_app (R : State -> State -> Prop) (k : nat) (x y : State) :
  (forall a b, R a b -> exists w, a = w ++ b) ->
  iter R k x y -> exists w, x = w ++ y.
Proof.
  intros HR. revert x. induction k as [|k IH]; simpl; intros x H.
  - subst. now exists [].
  - destruct H as (z & Hxz & Hzy).
    apply HR in Hxz as (w1 & ->). apply IH in Hzy as (w2 & ->).
    exists (w1 ++ w2). now rewrite List.app_assoc.
Qed.

(** What a pattern reads is a prefix of the state it starts from. *)
Lemma denote_app (len : nat) (r : regex) :
  forall x y, denote len r x y -> exists w, x = w ++ y.
Proof.
  induction r as [| | |neg atoms|r1 IH1 r2 IH2|r1 IH1 r2 IH2|r1 IH1
                  |r1 IH1 min max]; simpl; intros x y H.
  - subst. now exists [].
  - destruct H as [_ ->]. now exists [].
  - destruct H as [-> ->]. now exists [].
  - destruct H as (ch & -> & _). now exists [ch].
  - destruct H as (z & H1 & H2).
    apply IH1 in H1 as (w1 & ->). apply IH2 in H2 as (w2 & ->).
    exists (w1 ++ w2). now rewrite List.app_assoc.
  - destruct H as [H|H]; [now apply IH1|now apply IH2].
  - now apply IH1.
  - destruct H as (k & _ & _ & H). now apply (iter_app _ k _ _ IH1).
Qed.

Lemma same_length_suffix (w y : State) :
  length y = length (w ++ y) -> w = [].
Proof.
  rewrite List.length_app. destruct w; [reflexivity|simpl; lia].
Qed.

(** Soundness of the repetition: a success has gone through a number of
    rounds within the bounds. *)
Lemma RepeatMatcher_sound (m : Matcher) (R : State -> State -> Prop) :
  (forall x c, m x c = true -> exists y, R x y /\ c y = true) ->
  forall n min x c, RepeatMatcher m n min x c = true ->
    exists k y, Nat.min min n <= k /\ k <= n /\ iter R k x y /\ c y = true.
Proof.
  intros Hm. induction n as [|n IH]; intros min x c H; simpl in H.
  - exists 0, x. rewrite Nat.min_0_r. simpl. auto.
  - assert (Hround :
      m x (fun y => if Nat.eqb min 0 && Nat.eqb (length y) (length x)
                    then false
                    else RepeatMatcher m n (Nat.pred min) y c) = true ->
      exists k y, Nat.min min (S n) <= k /\ k <= S n
                  /\ iter R k x y /\ c y = true).
    { intros H1. apply Hm in H1 as (z & Hxz & Hd).
      destruct (Nat.eqb min 0 && Nat.eqb (length z) (length x));
        [discriminate|].
      apply IH in Hd as (k & y & Hlo & Hhi & Hit & Hc).
      exists (S k), y. split; [destruct min; simpl in *; lia|].
      split; [lia|]. split; [|exact Hc]. simpl. now exists z. }
    destruct (Nat.eqb_spec min 0) as [->|Hne].
    + apply orb_prop in H as [H|H]; [now apply Hround|].
      exists 0, x. simpl. repeat split; auto; lia.
    + now apply Hround.
Qed.

(** The matcher succeeds only on what the pattern matches. *)
Lemma matcher_sound (len : nat) (r : regex) :
  wellFormed r = true ->
  forall x c, matcher len r x c = true ->
    exists y, denote len r x y /\ c y = true.
Proof.
  induction r as [| | |neg atoms|r1 IH1 r2 IH2|r1 IH1 r2 IH2|r1 IH1
                  |r1 IH1 min max]; simpl; intros Hwf x c H.
  - now exists x.
  - apply andb_prop in H as [Hl H]. apply Nat.eqb_eq in Hl. now exists x.
  - destruct x; [|discriminate]. now exists [].
  - destruct x as [|ch y]; [discriminate|].
    destruct (class_matches neg atoms ch) eqn:Hcls; [|discriminate].
    exists y. split; [|exact H]. now exists ch.
  - apply andb_prop in Hwf as [Hwf1 Hwf2].
    apply (IH1 Hwf1) in H as (z & H1 & H).
    apply (IH2 Hwf2) in H as (y & H2 & H).
    exists y. split; [|exact H]. now exists z.
  - apply andb_prop in Hwf as [Hwf1 Hwf2].
    apply orb_prop in H as [H|H].
    + apply (IH1 Hwf1) in H as (y & H1 & H). exists y. auto.
    + apply (IH2 Hwf2) in H as (y & H2 & H). exists y. auto.
  - now apply IH1.
  - apply andb_prop in Hwf as [Hwf1 Hb].
    apply (RepeatMatcher_sound _ _ (IH1 Hwf1)) in H
      as (k & y & Hlo & Hhi & Hit & Hc).
    exists y. split; [|exact Hc]. exists k.
    destruct max as [n|]; simpl in *.
    + apply Nat.leb_le in Hb. repeat split; auto; [lia|].
      intros n' [= <-]. exact Hhi.
    + repeat split; auto; [lia|discriminate].
Qed.

(** Completeness of the repetition: [k] rounds of the pattern are found,
    whether the rounds granted are at least [k] or at least [min] plus the
    length of the input. *)
Lemma RepeatMatcher_complete (m : Matcher) (R : State -> State -> Prop) :
  (forall x y c, R x y -> c y = true -> m x c = true) ->
  (forall a b, R a b -> exists w, a = w ++ b) ->
  forall k n min x y c,
    iter R k x y -> c y = true -> min <= k ->
    k <= n \/ min + length x <= n ->
    RepeatMatcher m n min x c = true.
Proof.
  intros Hm HR. induction k as [|k IH]; intros n min x y c Hit Hc Hmin Hn.
  - simpl in Hit. subst y. assert (min = 0) as -> by lia.
    destruct n; simpl; [exact Hc|]. rewrite Hc. apply orb_true_r.
  - destruct Hit as (z & Hxz & Hzy).
    destruct (HR _ _ Hxz) as (w1 & Hw1).
    destruct (iter_app R k z y HR Hzy) as (w2 & Hw2).
    destruct n as [|n].
    + simpl. destruct Hn as [Hn|Hn]; [lia|].
      assert (x = []) as -> by (destruct x; [reflexivity|simpl in Hn; lia]).
      symmetry in Hw1. apply List.app_eq_nil in Hw1 as [_ ->].
      symmetry in Hw2. apply List.app_eq_nil in Hw2 as [_ ->].
      exact Hc.
    + simpl. destruct min as [|min]; simpl.
      * destruct (Nat.eqb_spec (length z) (length x)) as [Hlen|Hlen].
        -- assert (w1 = []) as ->
             by (apply (same_length_suffix w1 z); now rewrite <- Hw1).
           simpl in Hw1. subst z.
           apply (IH (S n) 0 x y c Hzy Hc); lia.
        -- apply orb_true_intro. left.
           apply (Hm x z); [exact Hxz|].
           simpl. destruct (Nat.eqb_spec (length z) (length x));
             [contradiction|].
           apply (IH n 0 z y c Hzy Hc); [lia|].
           assert (length z < length x).
           { rewrite Hw1, List.length_app in *. lia. }
           lia.
      * apply (Hm x z); [exact Hxz|].
        apply (IH n min z y c Hzy Hc); [lia|].
        assert (length z <= length x)
          by (rewrite Hw1, List.length_app; lia).
        lia.
Qed.

(** The matcher finds every match of the pattern. *)
Lemma matcher_complete (len : nat) (r : regex) :
  forall x y c, denote len r x y -> c y = true -> matcher len r x c = true.
Proof.
  induction r as [| | |neg atoms|r1 IH1 r2 IH2|r1 IH1 r2 IH2|r1 IH1
                  |r1 IH1 min max]; simpl; intros x y c H Hc.
  - now subst.
  - destruct H as [Hl ->]. rewrite Hc, Hl, Nat.eqb_refl. reflexivity.
  - destruct H as [-> ->]. exact Hc.
  - destruct H as (ch & -> & Hcls). now rewrite Hcls.
  - destruct H as (z & H1 & H2).
    apply (IH1 x z); [exact H1|]. now apply (IH2 z y).
  - destruct H as [H|H].
    + rewrite (IH1 x y c H Hc). reflexivity.
    + rewrite (IH2 x y c H Hc). apply orb_true_r.
  - now apply (IH1 x y).
  - destruct H as (k & Hmin & Hmax & Hit).
    apply (RepeatMatcher_complete _ _ IH1 (denote_app len r1) k _ _ _ y);
      auto.
    destruct max as [n|]; simpl; [left; now apply Hmax|right; lia].
Qed.

Lemma search_here (len : nat) (r : regex) (x : State) :
  matcher len r x (fun _ => true) = true -> search len r x = true.
Proof. intros H. destruct x; simpl; now rewrite H. Qed.

(** [test] on a pattern [^r$]: the pattern [r] matches the whole string. *)
Lemma test_anchored (r : regex) (s : jsstring) :
  wellFormed r = true ->
  test (Seq Bol (Seq r Eol)) s = true <-> denote (length s) r s [].
Proof.
  intros Hwf. unfold test. split.
  - intros H. apply search_inv in H as (pre & t & Hs & H).
    apply matcher_sound in H as (y & H & _);
      [|simpl; now rewrite Hwf].
    simpl in H. destruct H as (z & [Hlen <-] & z' & H & -> & ->).
    assert (pre = []) as ->.
    { rewrite Hs, List.length_app in Hlen. destruct pre; [reflexivity|].
      simpl in Hlen. lia. }
    simpl in Hs. now subst.
  - intros H.
    assert (Hm : matcher (length s) (Seq Bol (Seq r Eol)) s (fun _ => true)
                 = true).
    { apply (matcher_complete _ _ s []); [|reflexivity].
      simpl. exists s. split; [now split|]. exists []. now split. }
    now apply search_here.
Qed.

(** What a pattern reads consists of characters it can read. *)
Lemma denote_may_read (len : nat) (r : regex) :
  forall x y, denote len r x y ->
    exists w, x = w ++ y /\ Forall (fun ch => may_read r ch = true) w.
Proof.
  induction r as [| | |neg atoms|r1 IH1 r2 IH2|r1 IH1 r2 IH2|r1 IH1
                  |r1 IH1 min max]; simpl; intros x y H.
  - subst. now exists [].
  - destruct H as [_ ->]. now exists [].
  - destruct H as [-> ->]. now exists [].
  - destruct H as (ch & -> & Hc). exists [ch]. split; [reflexivity|].
    now repeat constructor.
  - destruct H as (z & H1 & H2).
    apply IH1 in H1 as (w1 & -> & F1). apply IH2 in H2 as (w2 & -> & F2).
    exists (w1 ++ w2). split; [now rewrite List.app_assoc|].
    apply List.Forall_app. split;
      (eapply List.Forall_impl; [|eassumption]); simpl; intros ch ->;
      [reflexivity|apply orb_true_r].
  - destruct H as [H|H].
    + apply IH1 in H as (w & -> & F). exists w. split; [reflexivity|].
      eapply List.Forall_impl; [|exact F]. simpl. now intros ch ->.
    + apply IH2 in H as (w & -> & F). exists w. split; [reflexivity|].
      eapply List.Forall_impl; [|exact F]. simpl. intros ch ->.
      apply orb_true_r.
  - now apply IH1.
  - destruct H as (k & _ & _ & H). revert x H.
    induction k as [|k IHk]; simpl; intros x H.
    + subst. now exists [].
    + destruct H as (z & H1 & H2).
      apply IH1 in H1 as (w1 & -> & F1). apply IHk in H2 as (w2 & -> & F2).
      exists (w1 ++ w2). split; [now rewrite List.app_assoc|].
      now apply List.Forall_app.
Qed.

(** One or more characters of a class. *)
Lemma denote_plus_class (len : nat) (neg : bool) (atoms : list atom)
    (x y : State) :
  denote len (plus (Cls neg atoms)) x y
  <-> exists w, w <> [] /\ x = w ++ y
                /\ Forall (fun ch => class_matches neg atoms ch = true) w.
Proof.
  unfold plus. simpl. split.
  - intros (k & Hk & _ & H).
    assert (Hw : exists w, length w = k /\ x = w ++ y
               /\ Forall (fun ch => class_matches neg atoms ch = true) w).
    { clear Hk. revert x H. induction k as [|k IH]; simpl; intros x H.
      - subst. now exists [].
      - destruct H as (z & (ch & -> & Hc) & H).
        apply IH in H as (w & Hl & -> & F).
        exists (ch :: w). simpl. repeat split; auto. }
    destruct Hw as (w & Hl & -> & F). exists w. repeat split; auto.
    intros ->. simpl in Hl. lia.
  - intros (w & Hne & -> & F). exists (length w).
    split; [destruct w; [contradiction|simpl; lia]|].
    split; [discriminate|]. clear Hne.
    induction F as [|ch w Hc _ IH]; simpl; [reflexivity|].
    exists (w ++ y). split; [now exists ch|exact IH].
Qed.

End RegExpSemantics.

(** ** The phone validator *)

Section PhoneValidator.
Import JS.

Lemma validateField_phone_inv (value : jsstring) :
  Checkout.validateField Checkout.f_phone value = "" ->
  RegExp.test Checkout.PHONE_REGEX (trim value) = true.
Proof.
  unfold Checkout.validateField.
  destruct (Checkout.blank value); [discriminate|].
  destruct (RegExp.test Checkout.PHONE_REGEX (trim value));
    [reflexivity|discriminate].
Qed.

(** The server's [customerSchema.phone] and the route's validator use the
    pattern of the checkout page. *)
Lemma phonePattern_is_PHONE_REGEX : Backend.phonePattern = Checkout.PHONE_REGEX.
Proof. reflexivity. Qed.

(** Twenty-two digits in a row are a valid phone number. *)
Example phone_22_digits_accepted :
  Checkout.validateField Checkout.f_phone
    (of_string "1234567890123456789012") = ""
  /\ count_digits (of_string "1234567890123456789012") = 22.
Proof. split; vm_compute; reflexivity. Qed.

(** C9, as stated, fails: a string of seventeen digits is accepted, so the
    accepted strings do not all have at most 16 digits. *)
Lemma phone_at_most_16_digits_refuted :
  ~ (forall value : jsstring,
       Checkout.validateField Checkout.f_phone value = "" ->
       7 <= count_digits value <= 16).
Proof.
  intros H.
  specialize (H (of_string "12345678901234567")).
  assert (Hacc : Checkout.validateField Checkout.f_phone
                   (of_string "12345678901234567") = "")
    by (vm_compute; reflexivity).
  apply H in Hacc. vm_compute in Hacc. lia.
Qed.

(** C9, amended: every string the checkout phone validator accepts has at
    least 7 and at most 22 digit characters (up to 3 of a country code, 3 of
    an area code, 6 to 15 of the repeated group and the last one); the
    server's schema uses the same pattern; ["+1-555-123-4567"] is accepted
    and ["abc"] is rejected. *)
Theorem phone_validator_digit_bounds :
  (forall value : jsstring,
     Checkout.validateField Checkout.f_phone value = "" ->
     7 <= count_digits value <= 22)
  /\ Backend.phonePattern = Checkout.PHONE_REGEX
  /\ Checkout.validateField Checkout.f_phone (of_string "+1-555-123-4567") = ""
  /\ Checkout.validateField Checkout.f_phone (of_string "abc") <> "".
Proof.
  split; [|split; [reflexivity|split; [vm_compute; reflexivity|]]].
  - intros value H. apply validateField_phone_inv in H.
    rewrite <- (count_digits_trim value).
    cbv [Checkout.PHONE_REGEX RegExp.seq] in H.
    eapply test_anchored_digits in H; [|reflexivity|reflexivity].
    exact (proj1 H).
  - vm_compute. discriminate.
Qed.

(** The amended bound at the example of the error message. *)
Lemma phone_validator_digit_bounds_witness :
  Checkout.validateField Checkout.f_phone (of_string "+1-555-123-4567") = ""
  /\ 7 <= count_digits (of_string "+1-555-123-4567") <= 22.
Proof.
  split.
  - vm_compute; reflexivity.
  - apply (proj1 phone_validator_digit_bounds). vm_compute; reflexivity.
Defined.

End PhoneValidator.

(** ** The cart store *)

Section CartFacts.
Import JS Cart.
Local Open Scope float_scope.

Ltac unbind := unfold mbind, completion_bind, Completion.bind in *.

Lemma bind_Normal {E A B} (a : A) (f : A -> completion E B) :
  (Normal a ≫= f) = f a.
Proof. reflexivity. Qed.

Lemma reduceM_lineTotal (l : list CartItem) (acc : float) :
  Forall hasBook l ->
  reduceM (fun sum item =>
             match book item with
             | Some b => Normal (sum + price b * quantity item)
             | None => Throw TypeError
             end) l acc
  = Normal (fold_left (fun sum item => sum + lineTotal item) l acc).
Proof.
  intros H. revert acc. induction H as [|item l Hb _ IH]; intros acc.
  - reflexivity.
  - simpl. unfold lineTotal at 2. unfold hasBook in Hb.
    destruct (book item); [|contradiction]. simpl. apply IH.
Qed.

Lemma calculateTotals_sums (l : list CartItem) :
  Forall hasBook l ->
  calculateTotals l = Normal (sumQuantity l, sumPrice l).
Proof.
  intros H. unfold calculateTotals. unbind.
  now rewrite (reduceM_lineTotal l 0 H).
Qed.

Lemma hasId_guarded (bookId : string) (item : CartItem) :
  hasBook item -> hasId bookId item = Normal (guardedHasId bookId item).
Proof.
  unfold hasBook, hasId, itemId, guardedHasId. unbind.
  destruct (book item); [reflexivity|contradiction].
Qed.

Lemma findM_hasId (bookId : string) (l : list CartItem) :
  Forall hasBook l ->
  findM (hasId bookId) l = Normal (List.find (guardedHasId bookId) l).
Proof.
  induction 1 as [|item l Hb _ IH]; [reflexivity|].
  simpl. rewrite (hasId_guarded _ _ Hb). simpl.
  destruct (guardedHasId bookId item); [reflexivity|exact IH].
Qed.

Lemma mapM_hasId (bookId : string) (g : CartItem -> CartItem)
    (l : list CartItem) :
  Forall hasBook l ->
  mapM (fun item : CartItem =>
          hit ← hasId bookId item;
          Normal (if (hit : bool) then g item else item)) l
  = Normal (List.map (fun item => if guardedHasId bookId item
                                  then g item else item) l).
Proof.
  induction 1 as [|item l Hb _ IH]; [reflexivity|].
  simpl. rewrite IH, (hasId_guarded _ _ Hb). reflexivity.
Qed.

Lemma filterM_hasId (bookId : string) (l : list CartItem) :
  Forall hasBook l ->
  filterM (fun item : CartItem =>
             hit ← hasId bookId item; Normal (negb hit)) l
  = Normal (List.filter (fun item => negb (guardedHasId bookId item)) l).
Proof.
  induction 1 as [|item l Hb _ IH]; [reflexivity|].
  simpl. rewrite IH, (hasId_guarded _ _ Hb). simpl.
  destruct (guardedHasId bookId item); reflexivity.
Qed.

Lemma hasBook_map (bookId : string) (g : CartItem -> CartItem)
    (l : list CartItem) :
  (forall item, book (g item) = book item) ->
  Forall hasBook l ->
  Forall hasBook (List.map (fun item => if guardedHasId bookId item
                                        then g item else item) l).
Proof.
  intros Hg H. apply List.Forall_map.
  eapply List.Forall_impl; [|exact H].
  intros item Hb. destruct (guardedHasId bookId item); [|exact Hb].
  unfold hasBook. now rewrite Hg.
Qed.

Lemma hasBook_filter (p : CartItem -> bool) (l : list CartItem) :
  Forall hasBook l -> Forall hasBook (List.filter p l).
Proof.
  intros H. apply List.Forall_forall. intros item Hin.
  apply List.filter_In in Hin as [Hin _].
  revert item Hin. now apply List.Forall_forall.
Qed.

Lemma recomputed_consistent (l : list CartItem) :
  Forall hasBook l -> consistent (recomputed l).
Proof. intros H. repeat split. exact H. Qed.

(** On a cart whose entries all have a book no action throws, and an action
    either leaves the state as it is or sets recomputed totals. *)
Lemma action_recomputes (o : op) (st : CartState) :
  Forall hasBook (items st) ->
  action_of o st = Normal st
  \/ exists l, Forall hasBook l /\ action_of o st = Normal (recomputed l).
Proof.
  intros H.
  assert (Hremove : forall bookId,
    removeFromCart bookId st = Normal st
    \/ exists l, Forall hasBook l
         /\ removeFromCart bookId st = Normal (recomputed l)).
  { intros bookId. unfold removeFromCart.
    rewrite (findM_hasId _ _ H), bind_Normal.
    destruct (List.find (guardedHasId bookId) (items st)); [|now left].
    right. rewrite (filterM_hasId _ _ H), bind_Normal.
    eexists. split; [|rewrite calculateTotals_sums; [reflexivity|]];
      now apply hasBook_filter. }
  destruct o as [b q|bookId|bookId q|]; simpl.
  - unfold addToCart.
    destruct (bookId_of b) as [bookId|]; [|now left].
    destruct (truthy_string bookId); simpl; [|now left].
    right. rewrite (findM_hasId _ _ H), bind_Normal.
    destruct (List.find (guardedHasId bookId) (items st)).
    + rewrite (mapM_hasId bookId
                 (fun item => {| book := book item;
                                 quantity := quantity item + default 1 q |})
                 _ H), bind_Normal.
      eexists. split; [|rewrite calculateTotals_sums; [reflexivity|]];
        now apply hasBook_map.
    + rewrite bind_Normal.
      eexists. split; [|rewrite calculateTotals_sums; [reflexivity|]];
        (apply List.Forall_app; split; [exact H|]);
        now repeat constructor.
  - apply Hremove.
  - unfold updateQuantity. destruct (q <=? 0); [apply Hremove|].
    right.
    rewrite (mapM_hasId bookId
               (fun item => {| book := book item; quantity := q |}) _ H),
      bind_Normal.
    eexists. split; [|rewrite calculateTotals_sums; [reflexivity|]];
      now apply hasBook_map.
  - right. exists []. split; [constructor|reflexivity].
Qed.

Lemma dispatch_consistent (o : op) (st : CartState) :
  consistent st -> consistent (dispatch (action_of o) st).
Proof.
  intros Hc. unfold dispatch.
  destruct (action_recomputes o st (proj1 Hc)) as [->|(l & Hl & ->)].
  - exact Hc.
  - now apply recomputed_consistent.
Qed.

Lemma states_consistent (ops : list op) (st : CartState) :
  consistent st -> Forall consistent (states ops st).
Proof.
  revert st. induction ops as [|o ops IH]; intros st Hc; simpl.
  - constructor.
  - pose proof (dispatch_consistent o st Hc) as Hc'.
    constructor; [exact Hc'|now apply IH].
Qed.

Lemma initialState_consistent : consistent initialState.
Proof. repeat split. constructor. Qed.

(** On a new store the invariant of the totals holds: for every sequence of
    [addToCart], [removeFromCart], [updateQuantity] and [clearCart]
    operations on it, after each operation [totalItems] is the sum of the
    quantities and [totalPrice] the sum of quantity times unit price over the
    entries of the cart (every one of which has a book).  The totals are
    recomputed from the entries by every operation that changes them; an
    operation that returns before [set] relies on the totals it finds. *)
Theorem cart_totals_invariant (ops : list op) :
  Forall (fun st =>
            Forall hasBook (items st)
            /\ totalItems st = sumQuantity (items st)
            /\ totalPrice st = sumPrice (items st))
         (states ops initialState).
Proof. apply states_consistent, initialState_consistent. Qed.

(** The scenario of the specification: add three, set to one, remove. *)
Example cart_scenario :
  let bookX := {| _id := Some "x1"; id := None; title := "X";
                  publisher := "P"; price := 12.5; image := "x.png" |} in
  List.map (fun st => (isEmpty st, totalItems st, totalPrice st))
    (states [ AddToCart bookX (Some 3); UpdateQuantity "x1" 1;
              RemoveFromCart "x1" ] initialState)
  = [ (false, 3, 37.5); (false, 1, 12.5); (true, 0, 0) ].
Proof. vm_compute. reflexivity. Qed.

(** *** Adding the same book twice *)

Lemma find_none (p : CartItem -> bool) (l : list CartItem) :
  existsb p l = false -> List.find p l = None.
Proof.
  induction l as [|x l IH]; simpl; [reflexivity|].
  destruct (p x); [discriminate|exact IH].
Qed.

Lemma find_last (p : CartItem -> bool) (l : list CartItem) (x : CartItem) :
  existsb p l = false -> p x = true -> List.find p (l ++ [x]) = Some x.
Proof.
  induction l as [|y l IH]; simpl; intros Hl Hx.
  - now rewrite Hx.
  - destruct (p y); [discriminate|now apply IH].
Qed.

Lemma map_untouched (p : CartItem -> bool) (g : CartItem -> CartItem)
    (l : list CartItem) :
  existsb p l = false ->
  List.map (fun item => if p item then g item else item) l = l.
Proof.
  induction l as [|y l IH]; simpl; [reflexivity|].
  destruct (p y); [discriminate|]. intros Hl. now rewrite IH.
Qed.

Lemma filter_untouched (p : CartItem -> bool) (l : list CartItem) :
  existsb p l = false -> List.filter p l = [].
Proof.
  induction l as [|y l IH]; simpl; [reflexivity|].
  destruct (p y); [discriminate|exact IH].
Qed.

Lemma guardedHasId_own (b : Book) (bookId : string) (q : float) :
  bookId_of b = Some bookId ->
  guardedHasId bookId {| book := Some b; quantity := q |} = true.
Proof.
  intros Hb. unfold guardedHasId. simpl. rewrite Hb. simpl.
  apply String.eqb_refl.
Qed.

(** C6: for every book with a resolvable identifier that is not yet in the
    cart, [addToCart] with quantity [a] and then again with the same book
    and quantity [b] leaves exactly one entry for that identifier, with
    quantity [a + b], after the entries the cart had. *)
Theorem addToCart_twice_merges (st : CartState) (b : Book) (bookId : string)
    (qa qb : option float) :
  Forall hasBook (items st) ->
  bookId_of b = Some bookId ->
  truthy_string bookId = true ->
  isInCart bookId st = false ->
  let merged := {| book := Some b;
                   quantity := default 1 qa + default 1 qb |} in
  let st2 := dispatch (addToCart b qb) (dispatch (addToCart b qa) st) in
  items st2 = items st ++ [merged]
  /\ List.filter (guardedHasId bookId) (items st2) = [merged]
  /\ consistent st2.
Proof.
  intros Hbooks Hid Htruthy Hnew merged st2.
  unfold isInCart in Hnew.
  set (first := {| book := Some b; quantity := default 1 qa |}).
  assert (H1 : addToCart b qa st = Normal (recomputed (items st ++ [first]))).
  { unfold addToCart. rewrite Hid, Htruthy. simpl.
    rewrite (findM_hasId _ _ Hbooks), bind_Normal, (find_none _ _ Hnew),
      bind_Normal.
    rewrite calculateTotals_sums; [reflexivity|].
    apply List.Forall_app. split; [exact Hbooks|].
    now repeat constructor. }
  assert (Hbooks1 : Forall hasBook (items st ++ [first])).
  { apply List.Forall_app. split; [exact Hbooks|]. now repeat constructor. }
  assert (Hown : guardedHasId bookId first = true)
    by now apply guardedHasId_own.
  assert (H2 : addToCart b qb (recomputed (items st ++ [first]))
               = Normal (recomputed (items st ++ [merged]))).
  { unfold addToCart. rewrite Hid, Htruthy. simpl.
    rewrite (findM_hasId _ _ Hbooks1), bind_Normal,
      (find_last _ _ _ Hnew Hown).
    rewrite (mapM_hasId bookId
               (fun item => {| book := book item;
                               quantity := quantity item + default 1 qb |})
               _ Hbooks1), bind_Normal.
    rewrite List.map_app, (map_untouched _ _ _ Hnew). simpl List.map.
    rewrite Hown. change (Cart.book first) with (Some b).
    change (Cart.quantity first) with (default 1 qa). fold merged.
    rewrite calculateTotals_sums; [reflexivity|].
    apply List.Forall_app. split; [exact Hbooks|].
    now repeat constructor. }
  assert (Hst2 : st2 = recomputed (items st ++ [merged])).
  { unfold st2, dispatch. now rewrite H1, H2. }
  rewrite Hst2. simpl. split; [reflexivity|split].
  - rewrite List.filter_app, (filter_untouched _ _ Hnew). simpl.
    unfold merged. now rewrite (guardedHasId_own b bookId _ Hid).
  - apply recomputed_consistent, List.Forall_app.
    split; [exact Hbooks|]. now repeat constructor.
Qed.

(** C6 on a new cart, with the quantities 2 and 3. *)
Lemma addToCart_twice_merges_witness :
  let b := {| _id := Some "64b7f0c2a1d3e4f5a6b7c8d9"; id := None;
              title := "Algebra"; publisher := "KDJP"; price := 12.99;
              image := "https://example.com/a.png" |} in
  let merged := {| book := Some b; quantity := 2 + 3 |} in
  let st2 := dispatch (addToCart b (Some 3))
               (dispatch (addToCart b (Some 2)) initialState) in
  items st2 = [merged]
  /\ List.filter (guardedHasId "64b7f0c2a1d3e4f5a6b7c8d9") (items st2)
     = [merged]
  /\ consistent st2.
Proof.
  intros b merged st2.
  exact (addToCart_twice_merges initialState b "64b7f0c2a1d3e4f5a6b7c8d9"
           (Some 2) (Some 3) (List.Forall_nil hasBook) eq_refl eq_refl eq_refl).
Defined.

(** *** Rehydration *)

Lemma validItem_hasBook (item : CartItem) :
  validItem item = true -> hasBook item.
Proof. unfold validItem, hasBook. now destruct (book item). Qed.

Lemma filter_validItem_hasBook (l : list CartItem) :
  Forall hasBook (List.filter validItem l).
Proof.
  apply List.Forall_forall. intros item Hin.
  apply List.filter_In in Hin as [_ Hv]. now apply validItem_hasBook.
Qed.

Lemma filter_same_length (p : CartItem -> bool) (l : list CartItem) :
  length (List.filter p l) = length l -> List.filter p l = l.
Proof.
  induction l as [|x l IH]; simpl; [reflexivity|].
  destruct (p x); simpl; intros Hlen.
  - f_equal. apply IH. lia.
  - pose proof (List.filter_length_le p l). lia.
Qed.

(** [cleanupCart] never throws; it keeps the valid entries, and recomputes
    the totals only when it has dropped an entry. *)
Lemma cleanupCart_cases (st : CartState) :
  (List.filter validItem (items st) = items st
   /\ cleanupCart st = Normal st)
  \/ (length (List.filter validItem (items st)) <> length (items st)
      /\ cleanupCart st
         = Normal (recomputed (List.filter validItem (items st)))).
Proof.
  unfold cleanupCart.
  destruct (Nat.eqb_spec (length (List.filter validItem (items st)))
                         (length (items st))) as [Heq|Hne]; simpl.
  - left. split; [now apply filter_same_length|reflexivity].
  - right. split; [exact Hne|].
    now rewrite (calculateTotals_sums _ (filter_validItem_hasBook _)).
Qed.

(** Rehydration drops the entries without a resolvable identifier. *)
Lemma rehydrate_items (blob : Persisted) :
  items (rehydrate blob) = List.filter validItem (p_items blob).
Proof.
  unfold rehydrate.
  destruct (cleanupCart_cases (merge blob initialState))
    as [[Hsame ->]|[_ ->]]; simpl in *; [now rewrite Hsame|reflexivity].
Qed.

(** When an entry was dropped, the totals are recomputed. *)
Lemma rehydrate_corrupted (blob : Persisted) :
  List.filter validItem (p_items blob) <> p_items blob ->
  rehydrate blob = recomputed (List.filter validItem (p_items blob)).
Proof.
  intros Hne. unfold rehydrate.
  destruct (cleanupCart_cases (merge blob initialState))
    as [[Hsame _]|[_ ->]]; simpl in *; [contradiction|reflexivity].
Qed.

(** When no entry was dropped, the totals stay those of the new store. *)
Lemma rehydrate_intact (blob : Persisted) :
  List.filter validItem (p_items blob) = p_items blob ->
  rehydrate blob
  = {| items := p_items blob; totalItems := 0; totalPrice := 0 |}.
Proof.
  intros Hsame. unfold rehydrate.
  destruct (cleanupCart_cases (merge blob initialState))
    as [[_ ->]|[Hne _]]; simpl in *; [reflexivity|].
  now rewrite Hsame in Hne.
Qed.

(** Running [cleanupCart] a second time changes nothing. *)
Lemma cleanupCart_idempotent (st st1 : CartState) :
  cleanupCart st = Normal st1 -> cleanupCart st1 = Normal st1.
Proof.
  intros H1.
  assert (Hitems : List.filter validItem (items st1) = items st1).
  { destruct (cleanupCart_cases st) as [[Hsame E]|[_ E]];
      rewrite E in H1; injection H1 as <-; [exact Hsame|].
    simpl. clear. induction (items st) as [|x l IH]; [reflexivity|].
    simpl. destruct (validItem x) eqn:Hx; simpl; [|exact IH].
    now rewrite Hx, IH. }
  destruct (cleanupCart_cases st1) as [[_ E]|[Hne _]]; [exact E|].
  now rewrite Hitems in Hne.
Qed.

(** C4 at a blob the store itself has written: one valid entry, two copies
    of a book at 10.  After rehydration the entry is there and both totals
    are [0], while the sums over the entries are [2] and [20]. *)
Theorem rehydrate_keeps_initial_totals :
  let b := {| _id := Some "64b7f0c2a1d3e4f5a6b7c8d9"; id := None;
              title := "Algebra"; publisher := "KDJP"; price := 10;
              image := "https://example.com/a.png" |} in
  let blob := partialize (dispatch (addToCart b (Some 2)) initialState) in
  let st := rehydrate blob in
  items st = [{| book := Some b; quantity := 2 |}]
  /\ totalItems st = 0 /\ totalPrice st = 0
  /\ sumQuantity (items st) = 2 /\ sumPrice (items st) = 20
  /\ (totalItems st =? sumQuantity (items st)) = false
  /\ (totalPrice st =? sumPrice (items st)) = false.
Proof. vm_compute. repeat split; reflexivity. Qed.

(** The blob of C4 goes through the storage unchanged: its numbers are [2]
    and [10]. *)
Example written_blob_reads_back :
  let b := {| _id := Some "64b7f0c2a1d3e4f5a6b7c8d9"; id := None;
              title := "Algebra"; publisher := "KDJP"; price := 10;
              image := "https://example.com/a.png" |} in
  let blob := partialize (dispatch (addToCart b (Some 2)) initialState) in
  readBack blob = Some blob.
Proof. vm_compute. reflexivity. Qed.

(** What the storage does to numbers that JSON cannot write. *)
Example throughJSON_cases :
  throughJSON nan = None /\ throughJSON infinity = None
  /\ throughJSON neg_infinity = None
  /\ throughJSON (-0) = Some 0 /\ throughJSON 12.5 = Some 12.5.
Proof. vm_compute. repeat split; reflexivity. Qed.

(** C3 fails on a store that has been reloaded: the cart holds two copies of
    a book at 10 and the page is loaded again; [removeFromCart] of an
    identifier that is not in the cart and [addToCart] of a book without
    identifier both return before [set], and after each of the two
    operations the cart has its entry, [totalItems] and [totalPrice] are
    [0], and the sums over the entries are [2] and [20]. *)
Theorem reloaded_cart_totals_stay_stale :
  let b := {| _id := Some "64b7f0c2a1d3e4f5a6b7c8d9"; id := None;
              title := "Algebra"; publisher := "KDJP"; price := 10;
              image := "https://example.com/a.png" |} in
  let loose := {| _id := None; id := None; title := "Loose leaf";
                  publisher := "KDJP"; price := 3;
                  image := "https://example.com/l.png" |} in
  let ops := [RemoveFromCart "absent"; AddToCart loose None] in
  exists st0,
    reload (dispatch (addToCart b (Some 2)) initialState) = Some st0
    /\ List.map (fun st => (items st, totalItems st, totalPrice st,
                            sumQuantity (items st), sumPrice (items st)))
                (states ops st0)
       = [ ([{| book := Some b; quantity := 2 |}], 0, 0, 2, 20);
           ([{| book := Some b; quantity := 2 |}], 0, 0, 2, 20) ]
    /\ Forall (fun st =>
                 (totalItems st =? sumQuantity (items st)) = false
                 /\ (totalPrice st =? sumPrice (items st)) = false)
              (states ops st0).
Proof.
  intros b loose ops. eexists.
  split; [vm_compute; reflexivity|].
  split; [vm_compute; reflexivity|].
  vm_compute. repeat constructor.
Qed.

End CartFacts.

(** ** Floating-point comparisons *)

Section FloatFacts.

Lemma SFcompare_antisym (x y : SpecFloat.spec_float) :
  SpecFloat.SFcompare y x = option_map CompOpp (SpecFloat.SFcompare x y).
Proof.
  destruct x as [[]| [] | |[] mx ex], y as [[]| [] | |[] my ey];
    simpl; try reflexivity;
    rewrite (Z.compare_antisym ex ey);
    destruct (ex ?= ey)%Z; simpl; try reflexivity;
    rewrite !Pos.compare_cont_spec; simpl;
    rewrite (Pos.compare_antisym mx my);
    destruct (mx ?= my)%positive; reflexivity.
Qed.

(** [x <= y] excludes [y < x]. *)
Lemma leb_not_ltb (x y : float) :
  (x <=? y)%float = true -> (y <? x)%float = false.
Proof.
  rewrite FloatAxioms.leb_spec, FloatAxioms.ltb_spec.
  unfold SpecFloat.SFleb, SpecFloat.SFltb.
  rewrite (SFcompare_antisym (Prim2SF x) (Prim2SF y)).
  destruct (SpecFloat.SFcompare (Prim2SF x) (Prim2SF y)) as [[]|];
    simpl; congruence.
Qed.

End FloatFacts.

(** ** Order creation *)

Section BackendFacts.
Import JS Backend.

Local Ltac bad_item :=
  simpl; split; [reflexivity|split; [reflexivity|left; split; reflexivity]].

(** The loop over the items: it ends normally exactly on well-formed items
    that all resolve, with their lines and the sum of the line totals, and
    otherwise returns a 400 or a 404. *)
Lemma processItems_spec (w : World) (l : list ItemRequest) :
  forall p0 c0,
  match reduceM (processItem w) l (p0, c0) with
  | Normal (p, c) =>
      forallb wellFormedItem l = true
      /\ exists lines, resolve w l = Some lines
           /\ p = p0 ++ lines /\ c = lineTotals lines c0
  | Throw (Return r) =>
      success r = false /\ data r = None
      /\ ((res_status r = 400%Z /\ forallb wellFormedItem l = false)
          \/ (res_status r = 404%Z /\ error r = Some "Book not found"
              /\ resolve w l = None))
  | Throw (Raise _) => False
  end.
Proof.
  induction l as [|item l IH]; intros p0 c0.
  - simpl. split; [reflexivity|]. exists []. now rewrite List.app_nil_r.
  - cbn [reduceM forallb resolve].
    unfold processItem at 1. unfold snapshot.
    change (wellFormedItem item)
      with (match bookId item, req_quantity item with
            | Some i, Some q =>
                truthy_string i && truthy_number q && negb (q <=? 0)%float
            | _, _ => false
            end).
    destruct (bookId item) as [i|]; [|bad_item].
    destruct (req_quantity item) as [q|]; [|bad_item].
    destruct (truthy_string i); [|bad_item].
    destruct (truthy_number q); [|bad_item].
    destruct (q <=? 0)%float; [bad_item|]. cbn [negb orb andb].
    destruct (books w !! i) as [b|]; cbn [bind];
      [|split; [reflexivity|split; [reflexivity|]];
        right; repeat split; reflexivity].
    specialize (IH (p0 ++ [{| book := i; quantity := q;
                              price := book_price b; title := book_title b;
                              publisher := book_publisher b;
                              image := book_image b |}])
                   (c0 + book_price b * q)%float).
    destruct (reduceM (processItem w) l _) as [[p c]|[r|e]];
      [| |exact IH].
    + destruct IH as (Hwf & lines & -> & -> & ->).
      split; [exact Hwf|]. eexists. split; [reflexivity|].
      now rewrite <- List.app_assoc.
    + destruct IH as (Hs & Hd & [[H4 Hwf]|(H4 & He & Hr)]).
      * split; [exact Hs|split; [exact Hd|]]. left. now split.
      * split; [exact Hs|split; [exact Hd|]]. right. now rewrite Hr.
Qed.

Lemma readLoggedFields_some (b : Body) (customer : Customer) :
  body_customer b = Some customer ->
  body_items b <> ItemsUndefined ->
  readLoggedFields b = Normal customer.
Proof.
  intros Hc Hi. unfold readLoggedFields. rewrite Hc.
  now destruct (body_items b).
Qed.

(** A request that reaches the comparison of the totals is decided by it. *)
Lemma prepare_reaches (req : Request) (w : World) (customer : Customer)
    (l : list ItemRequest) (totalPrice : float) (lines : list OrderItem) :
  reachesIntegrityCheck req w customer l totalPrice lines ->
  prepare req w
  = if (0.01 <? abs (lineTotals lines 0 - totalPrice))%float
    then Throw (Return (totalMismatch (lineTotals lines 0) totalPrice))
    else Normal (makeOrderData customer lines (lineTotals lines 0)
                   (body_notes (body req))).
Proof.
  intros [Hv Hc Hi Hne Ht Htruthy Hpos Hwf Hres].
  unfold prepare. rewrite Hv. cbn [length Nat.eqb negb]. cbv zeta.
  rewrite (readLoggedFields_some _ _ Hc) by (rewrite Hi; discriminate).
  rewrite bind_Normal, Hi.
  destruct l as [|item l]; [contradiction|].
  rewrite bind_Normal, Ht, Htruthy, Hpos. cbn [negb orb].
  rewrite bind_Normal.
  pose proof (processItems_spec w (item :: l) [] 0%float) as Hloop.
  destruct (reduceM (processItem w) (item :: l) ([], 0%float))
    as [[p c]|[r|e]].
  - destruct Hloop as (_ & lines' & Hres' & -> & ->).
    rewrite Hres in Hres'. injection Hres' as <-.
    rewrite bind_Normal. reflexivity.
  - destruct Hloop as (_ & _ & [[_ Hwf']|(_ & _ & Hres')]); congruence.
  - contradiction.
Qed.

(** Every response [prepare] returns is a rejection. *)
Lemma prepare_Return_failure (req : Request) (w : World) (r : Response) :
  prepare req w = Throw (Return r) -> success r = false /\ data r = None.
Proof.
  unfold prepare.
  destruct (negb (Nat.eqb (length (validationErrors req)) 0));
    [intros [= <-]; now split|].
  cbv zeta. unfold readLoggedFields.
  destruct (body_customer (body req)) as [customer|]; [|discriminate].
  destruct (body_items (body req)) as [| |[|item l]];
    try discriminate; rewrite bind_Normal;
    try (intros [= <-]; now split).
  rewrite bind_Normal.
  destruct (body_totalPrice (body req)) as [t|];
    [|intros [= <-]; now split].
  destruct (negb (truthy_number t) || (t <=? 0)%float);
    [intros [= <-]; now split|].
  rewrite bind_Normal.
  pose proof (processItems_spec w (item :: l) [] 0%float) as Hloop.
  destruct (reduceM (processItem w) (item :: l) ([], 0%float))
    as [[p c]|[r'|e]].
  - rewrite bind_Normal.
    destruct (0.01 <? abs (c - t))%float; [|discriminate].
    intros [= <-]. now split.
  - intros [= <-]. destruct Hloop as (Hs & Hd & _). now split.
  - contradiction.
Qed.

(** When [prepare] ends normally, the request has reached the comparison of
    the totals and the two totals are within the tolerance. *)
Lemma prepare_Normal_inv (req : Request) (w : World) (od : OrderData) :
  prepare req w = Normal od ->
  exists customer l totalPrice lines,
    reachesIntegrityCheck req w customer l totalPrice lines
    /\ (0.01 <? abs (lineTotals lines 0 - totalPrice))%float = false
    /\ od = makeOrderData customer lines (lineTotals lines 0)
              (body_notes (body req)).
Proof.
  unfold prepare.
  destruct (validationErrors req) as [|v vs] eqn:Hv; [|discriminate].
  cbn [length Nat.eqb negb]. cbv zeta. unfold readLoggedFields.
  destruct (body_customer (body req)) as [customer|] eqn:Hc; [|discriminate].
  destruct (body_items (body req)) as [| |[|item l]] eqn:Hi;
    try discriminate.
  rewrite !bind_Normal.
  destruct (body_totalPrice (body req)) as [t|] eqn:Ht; [|discriminate].
  destruct (truthy_number t) eqn:Htruthy; [|discriminate].
  destruct (t <=? 0)%float eqn:Hpos; [discriminate|].
  cbn [negb orb]. rewrite bind_Normal.
  pose proof (processItems_spec w (item :: l) [] 0%float) as Hloop.
  destruct (reduceM (processItem w) (item :: l) ([], 0%float))
    as [[p c]|[r'|e]]; [|discriminate|contradiction].
  destruct Hloop as (Hwf & lines & Hres & -> & ->).
  rewrite bind_Normal.
  destruct (0.01 <? abs (lineTotals lines 0 - t))%float eqn:Hcmp;
    [discriminate|].
  intros [= <-]. exists customer, (item :: l), t, lines.
  split; [|split; [exact Hcmp|reflexivity]].
  constructor; auto.
Qed.

Lemma handleError_failure (e : exn) :
  success (handleError e) = false /\ data (handleError e) = None.
Proof.
  destruct e as [m|errs|code m|m]; simpl; try (now split).
  destruct (code =? 11000)%Z; now split.
Qed.

Lemma save_inv (env : Env) (o : Order) (w : World) :
  match save env o w with
  | (Normal o', w1) =>
      validateOrder o = [] /\ o' = preSave env o
      /\ orders w !! orderId o' = None
      /\ w1 = {| books := books w;
                 orders := <[orderId o' := o']> (orders w);
                 outbox := outbox w |}
  | (Throw _, w1) => w1 = w
  end.
Proof.
  unfold save. destruct (validateOrder o); [|reflexivity].
  destruct (orders w !! orderId (preSave env o)) eqn:Hfree; [reflexivity|].
  repeat split. exact Hfree.
Qed.

(** The mails touch nothing but the outbox: the notification goes out when
    the transport takes it, and the confirmation only after it. *)
Lemma sendOrderEmails_spec (env : Env) (o : Order) (w : World) :
  sendOrderEmails env o w
  = {| books := books w; orders := orders w;
       outbox := outbox w ++
         (if sendMail env (notificationMail o)
          then notificationMail o
               :: (if sendMail env (confirmationMail o)
                   then [confirmationMail o] else [])
          else []) |}.
Proof.
  unfold sendOrderEmails, sendOrderNotificationToOwner,
    sendOrderConfirmationToCustomer, deliver.
  fold (notificationMail o). fold (confirmationMail o).
  destruct w as [bs os ob]. simpl.
  destruct (sendMail env (notificationMail o)); simpl.
  - destruct (sendMail env (confirmationMail o)); simpl.
    + now rewrite <- List.app_assoc.
    + reflexivity.
  - now rewrite List.app_nil_r.
Qed.

(** [createOrder] either rejects and leaves the world as it was, or has
    checked the request, saved the order and answers with it. *)
Lemma createOrder_cases (env : Env) (req : Request) (w : World) :
  (success (fst (createOrder env req w)) = false
   /\ data (fst (createOrder env req w)) = None
   /\ snd (createOrder env req w) = w)
  \/ (exists od order,
        prepare req w = Normal od
        /\ validateOrder (newOrder env od) = []
        /\ order = preSave env (newOrder env od)
        /\ orders w !! orderId order = None
        /\ createOrder env req w
           = (created order,
              sendOrderEmails env order
                {| books := books w;
                   orders := <[orderId order := order]> (orders w);
                   outbox := outbox w |})).
Proof.
  unfold createOrder.
  destruct (prepare req w) as [od|[r|e]] eqn:Hp.
  - pose proof (save_inv env (newOrder env od) w) as Hs.
    destruct (save env (newOrder env od) w) as [[order|e] w1].
    + destruct Hs as (Hv & -> & Hfree & ->).
      right. exists od, (preSave env (newOrder env od)). auto.
    + left. subst w1. simpl.
      destruct (handleError_failure e). auto.
  - left. simpl. destruct (prepare_Return_failure _ _ _ Hp). auto.
  - left. simpl. destruct (handleError_failure e). auto.
Qed.

End BackendFacts.

(** ** Order creation: integrity check, rejections, round trip and mails *)

Section OrderProperties.
Import JS Backend.

(** C1: for a request that reaches the comparison of the totals (its items
    all resolve to catalog books), with [calc] the sum over the items of
    catalog price times quantity: when [|calc - totalPrice| > 0.01] the
    request is answered by the 400 "Total price mismatch" that reports both
    totals and the world is left as it was, no order saved; when
    [|calc - totalPrice| <= 0.01] the check is passed and the handler has
    the order data with the lines and [calc]. *)
Theorem total_integrity_check (env : Env) (req : Request) (w : World)
    (customer : Customer) (l : list ItemRequest) (totalPrice : float)
    (lines : list OrderItem) :
  reachesIntegrityCheck req w customer l totalPrice lines ->
  let calc := lineTotals lines 0 in
  catalogTotal w l = Some calc
  /\ ((0.01 <? abs (calc - totalPrice))%float = true ->
      createOrder env req w = (totalMismatch calc totalPrice, w)
      /\ calculatedTotal (totalMismatch calc totalPrice) = Some calc
      /\ providedTotal (totalMismatch calc totalPrice) = Some totalPrice)
  /\ ((abs (calc - totalPrice) <=? 0.01)%float = true ->
      prepare req w
      = Normal (makeOrderData customer lines calc (body_notes (body req)))).
Proof.
  intros Hr calc. split; [|split].
  - unfold catalogTotal. now rewrite (ric_resolve _ _ _ _ _ _ Hr).
  - intros Hgt. unfold createOrder.
    rewrite (prepare_reaches _ _ _ _ _ _ Hr). fold calc. rewrite Hgt.
    repeat split.
  - intros Hle. rewrite (prepare_reaches _ _ _ _ _ _ Hr). fold calc.
    now rewrite (leb_not_ltb _ _ Hle).
Qed.

Lemma sample_reaches (total : float) :
  truthy_number total = true -> (total <=? 0)%float = false ->
  reachesIntegrityCheck (Sample.order_of Sample.B1 total) Sample.world
    Sample.alice
    [ {| bookId := Some Sample.B1; req_quantity := Some 2%float |} ]
    total [Sample.line].
Proof.
  intros Ht Hp. constructor; try reflexivity; try assumption. discriminate.
Qed.

(** C1 on two copies of a book at 12.99 with a claimed total of 20. *)
Lemma total_integrity_check_witness :
  createOrder Sample.env (Sample.order_of Sample.B1 20) Sample.world
  = (totalMismatch 25.98 20, Sample.world).
Proof.
  apply (total_integrity_check Sample.env _ _ _ _ _ _
           (sample_reaches 20 eq_refl eq_refl)).
  reflexivity.
Defined.

Lemma resolve_In (w : World) (l : list ItemRequest) (lines : list OrderItem)
    (item : ItemRequest) :
  resolve w l = Some lines -> In item l -> snapshot w item <> None.
Proof.
  revert lines. induction l as [|x l IH]; intros lines Hres Hin;
    [contradiction|].
  simpl in Hres. destruct (snapshot w x) eqn:Hx; [|discriminate].
  destruct (resolve w l) eqn:Hl; [|discriminate].
  destruct Hin as [->|Hin]; [congruence|]. now apply (IH l0).
Qed.

Lemma wellFormed_In (l : list ItemRequest) (item : ItemRequest) :
  forallb wellFormedItem l = true -> In item l ->
  exists i q, bookId item = Some i /\ req_quantity item = Some q
    /\ truthy_string i = true /\ (q <=? 0)%float = false.
Proof.
  intros Hall Hin. rewrite List.forallb_forall in Hall.
  specialize (Hall item Hin). unfold wellFormedItem in Hall.
  destruct (bookId item) as [i|]; [|discriminate].
  destruct (req_quantity item) as [q|]; [|discriminate].
  exists i, q. apply andb_prop in Hall as [Hall Hq].
  apply andb_prop in Hall as [Hi _].
  repeat split; auto. now apply negb_true_iff.
Qed.

(** A defective request does not reach the comparison of the totals. *)
Lemma defective_not_reaches (req : Request) (w : World) (customer : Customer)
    (l : list ItemRequest) (totalPrice : float) (lines : list OrderItem) :
  defective w req ->
  reachesIntegrityCheck req w customer l totalPrice lines -> False.
Proof.
  intros Hd [Hv Hc Hi Hne Ht Htruthy Hpos Hwf Hres].
  destruct Hd as [[H|[H|H]]|t H1 H2|l' item H1 H2 H3|l' item q H1 H2 H3 H4
                 |l' item i H1 H2 H3 H4].
  - congruence.
  - congruence.
  - rewrite Hi in H. injection H as ->. contradiction.
  - congruence.
  - rewrite Hi in H1. injection H1 as <-.
    destruct (wellFormed_In _ _ Hwf H2) as (i & q & Hb & _ & Hti & _).
    rewrite Hb in H3. simpl in H3. congruence.
  - rewrite Hi in H1. injection H1 as <-.
    destruct (wellFormed_In _ _ Hwf H2) as (i & q' & _ & Hq & _ & Hle).
    congruence.
  - rewrite Hi in H1. injection H1 as <-.
    apply (resolve_In _ _ _ _ Hres H2). unfold snapshot.
    rewrite H3. destruct (req_quantity item); [|reflexivity].
    now rewrite H4.
Qed.

(** A request whose only defect is an unresolved item gets the 404. *)
Lemma prepare_unresolved (req : Request) (w : World) :
  unresolvedOnly req w ->
  exists r, prepare req w = Throw (Return r)
    /\ res_status r = 404%Z /\ error r = Some "Book not found".
Proof.
  intros [Hv Hc (l & Hi & Hwf & Hres) (t & Ht & Htruthy & Hpos)].
  unfold prepare. rewrite Hv. cbn [length Nat.eqb negb]. cbv zeta.
  destruct (body_customer (body req)) as [customer|] eqn:Hcust;
    [|contradiction].
  rewrite (readLoggedFields_some _ _ Hcust) by (rewrite Hi; discriminate).
  rewrite bind_Normal, Hi.
  destruct l as [|item l]; [discriminate|].
  rewrite bind_Normal, Ht, Htruthy, Hpos. cbn [negb orb].
  rewrite bind_Normal.
  pose proof (processItems_spec w (item :: l) [] 0%float) as Hloop.
  destruct (reduceM (processItem w) (item :: l) ([], 0%float))
    as [[p c]|[r|e]].
  - destruct Hloop as (_ & lines & Hres' & _). congruence.
  - destruct Hloop as (_ & _ & [[_ Hwf']|(H4 & He & _)]); [congruence|].
    exists r. auto.
  - contradiction.
Qed.

(** C2: a request in which the items are missing or empty, or [totalPrice]
    is at most zero, or an item has no [bookId] or a quantity of at most
    zero, or a [bookId] does not resolve to a catalog book, is rejected and
    the world is left as it was: no order is saved, with or without the
    other items.  When an unresolved item is the only defect, the rejection
    is the 404 "Book not found". *)
Theorem defective_request_rejected (env : Env) (req : Request) (w : World) :
  defective w req ->
  success (fst (createOrder env req w)) = false
  /\ data (fst (createOrder env req w)) = None
  /\ snd (createOrder env req w) = w
  /\ (unresolvedOnly req w ->
      res_status (fst (createOrder env req w)) = 404%Z
      /\ error (fst (createOrder env req w)) = Some "Book not found").
Proof.
  intros Hd.
  destruct (createOrder_cases env req w)
    as [(Hs & Hdata & Hw)|(od & order & Hp & _)].
  - split; [exact Hs|split; [exact Hdata|split; [exact Hw|]]].
    intros Hu. destruct (prepare_unresolved _ _ Hu) as (r & Hp & H4 & He).
    unfold createOrder. rewrite Hp. now split.
  - exfalso.
    apply prepare_Normal_inv in Hp as (c & l & t & lines & Hr & _).
    exact (defective_not_reaches _ _ _ _ _ _ Hd Hr).
Qed.

(** C2 on an order for a book the catalog does not have. *)
Lemma defective_request_rejected_witness :
  let req := Sample.order_of "000000000000000000000000" 25.98 in
  let out := createOrder Sample.env req Sample.world in
  success (fst out) = false /\ data (fst out) = None
  /\ snd out = Sample.world
  /\ res_status (fst out) = 404%Z /\ error (fst out) = Some "Book not found".
Proof.
  intros req out.
  assert (Hd : defective Sample.world req).
  { eapply (Unresolved Sample.world req _
              {| bookId := Some "000000000000000000000000";
                 req_quantity := Some 2%float |}
              "000000000000000000000000");
      [reflexivity|now left|reflexivity|reflexivity]. }
  assert (Hu : unresolvedOnly req Sample.world).
  { constructor; [reflexivity|discriminate| |].
    - eexists. repeat split; reflexivity.
    - eexists. repeat split; reflexivity. }
  destruct (defective_request_rejected Sample.env req Sample.world Hd)
    as (H1 & H2 & H3 & H4).
  destruct (H4 Hu) as [H5 H6].
  repeat split; assumption.
Defined.

(** Once the checks have passed, the order validates and its identifier is
    free, the order is saved and returned. *)
Lemma createOrder_created (env : Env) (req : Request) (w : World)
    (od : OrderData) :
  prepare req w = Normal od ->
  validateOrder (newOrder env od) = [] ->
  orders w !! generateOrderId env = None ->
  let order := preSave env (newOrder env od) in
  createOrder env req w
  = (created order,
     sendOrderEmails env order
       {| books := books w;
          orders := <[orderId order := order]> (orders w);
          outbox := outbox w |}).
Proof.
  intros Hp Hv Hfree order. unfold createOrder, save.
  rewrite Hp, Hv. fold order.
  change (orderId order) with (generateOrderId env).
  now rewrite Hfree.
Qed.

(** C5: a request for two copies of a book [B1] whose catalog price is 12.99,
    with a claimed total of 25.98, from a customer the order schema accepts
    and while the generated identifier is free, succeeds: the response is
    the 201 with the saved order, whose [orderId] is "ORD-", the time stamp,
    "-" and the upper-cased random suffix, whose [status] is [pending], whose
    only line is the identifier and quantity of the request with the title,
    publisher, image and price 12.99 of the catalog, and whose [totalPrice]
    is 25.98, the sum of price times quantity over the lines. *)
Theorem valid_order_round_trip (env : Env) (req : Request) (w : World)
    (customer : Customer) (notes : option jsstring) (B1 : string)
    (book : Book) :
  validationErrors req = [] ->
  body req = {| body_customer := Some customer;
                body_items := ItemsArray
                  [ {| bookId := Some B1; req_quantity := Some 2%float |} ];
                body_totalPrice := Some 25.98%float;
                body_notes := notes |} ->
  truthy_string B1 = true ->
  books w !! B1 = Some book ->
  book_price book = 12.99%float ->
  let line := {| Backend.book := B1; quantity := 2; price := 12.99;
                 title := book_title book; publisher := book_publisher book;
                 image := book_image book |} in
  validateOrder (newOrder env (makeOrderData customer [line] 25.98 notes))
  = [] ->
  orders w !! generateOrderId env = None ->
  exists order view,
    res_status (fst (createOrder env req w)) = 201%Z
    /\ success (fst (createOrder env req w)) = true
    /\ data (fst (createOrder env req w)) = Some view
    /\ orders (snd (createOrder env req w)) !! orderId order = Some order
    /\ orderId order
       = "ORD-" +:+ string_of_Z (idTime env) +:+ "-"
         +:+ toUpperCase (String.substring 2 9 (random36 env))
    /\ status order = pending
    /\ items order = [line]
    /\ totalPrice order = 25.98%float
    /\ totalPrice order = lineTotals (items order) 0
    /\ view_orderId view = orderId order
    /\ view_status view = pending
    /\ view_items view = [line]
    /\ view_totalPrice view = 25.98%float.
Proof.
  intros Hv Hb Htruthy Hbook Hprice line Hvalid Hfree.
  assert (Hr : reachesIntegrityCheck req w customer
                 [ {| bookId := Some B1; req_quantity := Some 2%float |} ]
                 25.98 [line]).
  { constructor; try exact Hv; rewrite ?Hb; try reflexivity;
      try discriminate.
    - unfold forallb, wellFormedItem. cbn [bookId req_quantity].
      rewrite Htruthy. reflexivity.
    - unfold resolve, snapshot. cbn [bookId req_quantity].
      now rewrite Hbook, Hprice. }
  pose proof (prepare_reaches _ _ _ _ _ _ Hr) as Hp.
  change (lineTotals [line] 0) with 25.98%float in Hp.
  change (0.01 <? abs (25.98 - 25.98))%float with false in Hp.
  cbv iota in Hp. rewrite Hb in Hp. cbn [body_notes] in Hp.
  rewrite (createOrder_created env req w _ Hp Hvalid Hfree).
  rewrite sendOrderEmails_spec. cbn [fst snd orders].
  exists (preSave env
            (newOrder env (makeOrderData customer [line] 25.98 notes))).
  eexists. repeat split; try reflexivity. apply lookup_insert_eq.
Qed.

(** C5 for the sample customer and catalog. *)
Lemma valid_order_round_trip_witness :
  exists order view,
    let out := createOrder Sample.env (Sample.order_of Sample.B1 25.98)
                 Sample.world in
    res_status (fst out) = 201%Z /\ success (fst out) = true
    /\ data (fst out) = Some view
    /\ orders (snd out) !! orderId order = Some order
    /\ orderId order = "ORD-1730000000001-K3J9X2M1P"
    /\ status order = pending
    /\ items order = [Sample.line]
    /\ totalPrice order = 25.98%float
    /\ totalPrice order = lineTotals (items order) 0
    /\ view_orderId view = orderId order
    /\ view_status view = pending
    /\ view_items view = [Sample.line]
    /\ view_totalPrice view = 25.98%float.
Proof.
  exact (valid_order_round_trip Sample.env
           (Sample.order_of Sample.B1 25.98) Sample.world Sample.alice None
           Sample.B1 Sample.algebra eq_refl eq_refl eq_refl eq_refl eq_refl
           eq_refl eq_refl).
Defined.

(** C10: when [createOrder] succeeds, the [totalPrice] of the order it has
    saved and of the order it returns is the total the server calculated
    from the catalog; it is not the total the client claimed whenever the
    two differ, which the tolerance of 0.01 allows. *)
Theorem stored_total_is_server_total (env : Env) (req : Request) (w : World)
    (l : list ItemRequest) (claimed : float) :
  body_items (body req) = ItemsArray l ->
  body_totalPrice (body req) = Some claimed ->
  success (fst (createOrder env req w)) = true ->
  exists calc view order,
    catalogTotal w l = Some calc
    /\ (0.01 <? abs (calc - claimed))%float = false
    /\ data (fst (createOrder env req w)) = Some view
    /\ view_totalPrice view = calc
    /\ orders (snd (createOrder env req w)) !! view_orderId view = Some order
    /\ totalPrice order = calc
    /\ ((calc =? claimed)%float = false ->
        (view_totalPrice view =? claimed)%float = false
        /\ (totalPrice order =? claimed)%float = false).
Proof.
  intros Hi Ht Hs.
  destruct (createOrder_cases env req w)
    as [(Hf & _)|(od & order & Hp & Hv & Horder & Hfree & Hc)];
    [congruence|].
  apply prepare_Normal_inv in Hp
    as (c & l' & t & lines & Hr & Hcmp & Hod).
  destruct Hr as [_ _ Hi' _ Ht' _ _ _ Hres].
  rewrite Hi in Hi'. injection Hi' as <-.
  rewrite Ht in Ht'. injection Ht' as <-.
  rewrite Hc, sendOrderEmails_spec. cbn [fst snd orders data created].
  assert (Htotal : totalPrice order = lineTotals lines 0).
  { rewrite Horder, Hod. reflexivity. }
  exists (lineTotals lines 0). eexists. exists order.
  split; [unfold catalogTotal; now rewrite Hres|].
  split; [exact Hcmp|]. split; [reflexivity|].
  cbn [view_totalPrice view_orderId].
  split; [exact Htotal|]. split; [apply lookup_insert_eq|].
  split; [exact Htotal|]. rewrite Htotal. auto.
Qed.

(** C10 on a claimed total of 25.985 for lines that sum to 25.98. *)
Lemma stored_total_is_server_total_witness :
  let out := createOrder Sample.env (Sample.order_of Sample.B1 25.985)
               Sample.world in
  exists calc view order,
    catalogTotal Sample.world
      [ {| bookId := Some Sample.B1; req_quantity := Some 2%float |} ]
    = Some calc
    /\ (0.01 <? abs (calc - 25.985))%float = false
    /\ data (fst out) = Some view
    /\ view_totalPrice view = calc
    /\ orders (snd out) !! view_orderId view = Some order
    /\ totalPrice order = calc
    /\ ((calc =? 25.985)%float = false ->
        (view_totalPrice view =? 25.985)%float = false
        /\ (totalPrice order =? 25.985)%float = false).
Proof.
  intros out.
  apply (stored_total_is_server_total Sample.env
           (Sample.order_of Sample.B1 25.985) Sample.world); reflexivity.
Defined.

Example near_total_stored_as_calculated :
  let out := createOrder Sample.env (Sample.order_of Sample.B1 25.985)
               Sample.world in
  option_map view_totalPrice (data (fst out)) = Some 25.98%float
  /\ option_map totalPrice
       (orders (snd out) !! "ORD-1730000000001-K3J9X2M1P")
     = Some 25.98%float.
Proof. split; vm_compute; reflexivity. Qed.

(** C8, as stated, fails: while the transport refuses the notification to
    the owner and would take the confirmation to the customer, the order is
    created and no mail at all goes out. *)
Lemma owner_failure_blocks_confirmation :
  let out := createOrder Sample.env_owner_down
               (Sample.order_of Sample.B1 25.98) Sample.world in
  success (fst out) = true
  /\ (exists order,
        orders (snd out) !! "ORD-1730000000001-K3J9X2M1P" = Some order
        /\ sendMail Sample.env_owner_down (confirmationMail order) = true
        /\ ~ In (confirmationMail order) (outbox (snd out)))
  /\ outbox (snd out) = [].
Proof.
  vm_compute. split; [reflexivity|split; [|reflexivity]].
  eexists. split; [reflexivity|]. split; [reflexivity|]. intros [].
Qed.

(** C8, amended: once the order is saved, a failure of a notification mail
    neither fails nor undoes the order; the response is the 201 with the
    order and the order stays saved, whatever the transport does.  The two
    mails share one handler: the notification to the owner goes out when the
    transport takes it, and the confirmation to the customer is sent only
    after the notification has gone out. *)
Theorem mail_failure_keeps_order (env : Env) (req : Request) (w : World)
    (od : OrderData) :
  prepare req w = Normal od ->
  validateOrder (newOrder env od) = [] ->
  orders w !! generateOrderId env = None ->
  let order := preSave env (newOrder env od) in
  let out := createOrder env req w in
  fst out = created order
  /\ success (fst out) = true
  /\ orders (snd out) = <[orderId order := order]> (orders w)
  /\ books (snd out) = books w
  /\ outbox (snd out)
     = outbox w ++
       (if sendMail env (notificationMail order)
        then notificationMail order
             :: (if sendMail env (confirmationMail order)
                 then [confirmationMail order] else [])
        else []).
Proof.
  intros Hp Hv Hfree order out. unfold out.
  rewrite (createOrder_created env req w od Hp Hv Hfree).
  fold order. rewrite sendOrderEmails_spec. repeat split.
Qed.

(** C8, amended, while the transport refuses every mail. *)
Lemma mail_failure_keeps_order_witness :
  let env := {| saveTime := 1730000000000; idTime := 1730000000001;
                random36 := "0.k3j9x2m1p8q";
                sendMail := fun _ => false;
                toLowerCase := Sample.lower |} in
  let od := makeOrderData Sample.alice [Sample.line] 25.98 None in
  let order := preSave env (newOrder env od) in
  let out := createOrder env (Sample.order_of Sample.B1 25.98)
               Sample.world in
  fst out = created order
  /\ success (fst out) = true
  /\ orders (snd out) = <[orderId order := order]> (orders Sample.world)
  /\ books (snd out) = books Sample.world
  /\ outbox (snd out) = [].
Proof.
  intros env od order out.
  exact (mail_failure_keeps_order env (Sample.order_of Sample.B1 25.98)
           Sample.world od eq_refl eq_refl eq_refl).
Defined.

End OrderProperties.

(** ** Checkout: when the cart is cleared *)

Section CheckoutProperties.
Import JS Checkout.

Lemma submitFailed_keeps_cart (evs : list event) (p : Page) :
  cart (snd (submitFailed evs p)) = cart p
  /\ (In ClearCart (fst (submitFailed evs p)) -> In ClearCart evs).
Proof.
  split; [reflexivity|]. simpl. intros Hin.
  apply List.in_app_or in Hin as [Hin|[Hin|[]]]; [exact Hin|discriminate].
Qed.

(** C7: [handleSubmit] clears the cart only after the order-creation call
    has answered with a success that carries the order: if [ClearCart]
    happens or the cart has changed, the events are the call, the success
    toast, [ClearCart] and the redirection, in this order, and the call was
    confirmed.  Whenever the call answers with a failure or throws, the cart
    is the one the page had and [ClearCart] does not happen. *)
Theorem checkout_clears_cart_only_on_success
    (api : OrderRequest -> ApiOutcome) (p : Page) :
  let out := handleSubmit api p in
  ((In ClearCart (fst out) \/ cart (snd out) <> cart p) ->
   exists request orderId,
     fst out = [CreateOrderCall request; ToastSuccess; ClearCart;
                RedirectLater orderId]
     /\ confirmed (api request) = true)
  /\ (forall request,
        In (CreateOrderCall request) (fst out) ->
        confirmed (api request) = false ->
        cart (snd out) = cart p /\ ~ In ClearCart (fst out)).
Proof.
  unfold handleSubmit.
  destruct (validateForm (formData p)) as [valid newErrors].
  destruct valid; cbn [negb];
    [|split; [intros [[]|Hc]; now contradiction Hc
             |intros request []]].
  cbn [cart set_isSubmitting set_errors formData].
  destruct (mapM toOrderItem (Cart.items (cart p))) as [items|msg].
  2:{ split.
      - intros [Hin|Hc].
        + apply submitFailed_keeps_cart in Hin. destruct Hin.
        + now contradiction Hc.
      - intros request Hin. simpl in Hin. destruct Hin as [Hin|[]].
        discriminate. }
  set (orderData := {| req_customer := formData p; req_items := items;
                       req_totalPrice := Cart.totalPrice (cart p);
                       req_notes := Backend.or_empty (notes (formData p)) |}).
  assert (Hfail : forall q : Page, cart q = cart p ->
    let out := submitFailed [CreateOrderCall orderData] q in
    confirmed (api orderData) = false ->
    ((In ClearCart (fst out) \/ cart (snd out) <> cart p) ->
     exists request orderId,
       fst out = [CreateOrderCall request; ToastSuccess; ClearCart;
                  RedirectLater orderId]
       /\ confirmed (api request) = true)
    /\ (forall request,
          In (CreateOrderCall request) (fst out) ->
          confirmed (api request) = false ->
          cart (snd out) = cart p /\ ~ In ClearCart (fst out))).
  { intros q Hq out Hnot.
    assert (Hno : ~ In ClearCart (fst out)).
    { intros Hin. apply submitFailed_keeps_cart in Hin.
      destruct Hin as [Hin|[]]. discriminate. }
    split.
    - intros [Hin|Hc]; [contradiction|]. now contradiction Hc.
    - intros request _ _. split; [exact Hq|exact Hno]. }
  destruct (api orderData) as [response|msg] eqn:Hapi;
    [|apply Hfail; reflexivity].
  destruct (api_success response) eqn:Hs;
    [|destruct (api_data response); apply Hfail; try reflexivity;
      simpl; now rewrite Hs].
  destruct (api_data response) as [d|] eqn:Hd;
    [|apply Hfail; [reflexivity|simpl; now rewrite Hs, Hd]].
  cbn [fst snd app].
  assert (Hok : confirmed (api orderData) = true)
    by (rewrite Hapi; simpl; now rewrite Hs, Hd).
  split.
  - intros _. now exists orderData, (or_ostring (ref_orderId d) (ref_id d)).
  - intros request [[= <-]|[Hin|[Hin|[Hin|[]]]]]; try discriminate.
    congruence.
Qed.

(** C7 on the sample page while the server answers with a rejection. *)
Lemma checkout_clears_cart_only_on_success_witness :
  let api := fun _ : OrderRequest =>
    Resolved (apiRequest (Fetched (Backend.totalMismatch 25.98 20))) in
  let out := handleSubmit api Sample.page in
  (exists request, In (CreateOrderCall request) (fst out)
                   /\ confirmed (api request) = false)
  /\ cart (snd out) = cart Sample.page
  /\ ~ In ClearCart (fst out).
Proof.
  intros api out.
  assert (Hcall : exists request,
            In (CreateOrderCall request) (fst out)
            /\ confirmed (api request) = false).
  { eexists. split; [left; reflexivity|reflexivity]. }
  split; [exact Hcall|].
  destruct Hcall as (request & Hin & Hnot).
  exact (proj2 (checkout_clears_cart_only_on_success api Sample.page)
           request Hin Hnot).
Defined.

(** A transport error and a response outside 2xx are no success for
    [handleSubmit]. *)
Lemma apiRequest_failure_not_confirmed (x : Exchange) :
  match x with
  | FetchFailed _ => True
  | Fetched r => ok r = false
  end ->
  confirmed (Resolved (apiRequest x)) = false.
Proof.
  destruct x as [m|r]; simpl; [reflexivity|].
  intros Hok. now rewrite Hok.
Qed.

(** The sample page with a server that confirms: the cart is emptied after
    the call. *)
Example checkout_success_clears :
  let answer := fst (Backend.createOrder Sample.env
                       (Sample.order_of Sample.B1 25.98) Sample.world) in
  let out := handleSubmit (fun _ => Resolved (apiRequest (Fetched answer)))
               Sample.page in
  List.map (fun e => match e with CreateOrderCall _ => 0 | ToastSuccess => 1
                                | ClearCart => 2 | RedirectLater _ => 3
                                | ToastError => 4 end) (fst out)
  = [0; 1; 2; 3]
  /\ cart (snd out) = Cart.initialState.
Proof. vm_compute. split; reflexivity. Qed.

End CheckoutProperties.

(** ** The cart store: entries after an operation, lookups, persistence *)

Section CartOperations.
Import JS Cart.
Local Open Scope float_scope.

Lemma find_existsb (p : CartItem -> bool) (l : list CartItem) :
  existsb p l = match List.find p l with Some _ => true | None => false end.
Proof.
  induction l as [|x l IH]; simpl; [reflexivity|].
  destruct (p x); [reflexivity|exact IH].
Qed.

Lemma filter_none (p : CartItem -> bool) (l : list CartItem) :
  existsb p l = false -> List.filter (fun item => negb (p item)) l = l.
Proof.
  induction l as [|x l IH]; simpl; [reflexivity|].
  destruct (p x); [discriminate|]. simpl. intros H. now rewrite IH.
Qed.

(** On a cart whose entries all have a book, an operation leaves the entries
    [itemsAfter] computes, with the totals recomputed from them unless the
    operation has returned before [set]. *)
Lemma dispatch_itemsAfter (o : op) (st : CartState) :
  Forall hasBook (items st) ->
  items (dispatch (action_of o) st) = itemsAfter o (items st)
  /\ (dispatch (action_of o) st = st
      \/ dispatch (action_of o) st = recomputed (itemsAfter o (items st))).
Proof.
  intros H. unfold dispatch.
  assert (Hremove : forall bookId,
    let l := List.filter (fun item => negb (guardedHasId bookId item))
                         (items st) in
    (removeFromCart bookId st = Normal st /\ l = items st)
    \/ removeFromCart bookId st = Normal (recomputed l)).
  { intros bookId l. unfold removeFromCart.
    rewrite (findM_hasId _ _ H), bind_Normal.
    pose proof (find_existsb (guardedHasId bookId) (items st)) as Hex.
    destruct (List.find (guardedHasId bookId) (items st)).
    - right. rewrite (filterM_hasId _ _ H), bind_Normal.
      rewrite calculateTotals_sums; [reflexivity|].
      now apply hasBook_filter.
    - left. split; [reflexivity|]. now apply filter_none. }
  destruct o as [b q|bookId|bookId q|]; simpl.
  - unfold addToCart.
    destruct (bookId_of b) as [bookId|]; [|now split; [|left]].
    destruct (truthy_string bookId); simpl; [|now split; [|left]].
    rewrite (findM_hasId _ _ H), bind_Normal.
    rewrite (find_existsb (guardedHasId bookId) (items st)).
    destruct (List.find (guardedHasId bookId) (items st)).
    + rewrite (mapM_hasId bookId
                 (fun item => {| book := book item;
                                 quantity := quantity item + default 1 q |})
                 _ H), bind_Normal.
      rewrite calculateTotals_sums; [now split; [|right]|].
      now apply hasBook_map.
    + rewrite bind_Normal.
      rewrite calculateTotals_sums; [now split; [|right]|].
      apply List.Forall_app. split; [exact H|]. now repeat constructor.
  - destruct (Hremove bookId) as [[-> Hl]| ->]; simpl.
    + split; [now rewrite Hl|now left].
    + split; [reflexivity|now right].
  - unfold updateQuantity. destruct (q <=? 0).
    + destruct (Hremove bookId) as [[-> Hl]| ->]; simpl.
      * split; [now rewrite Hl|now left].
      * split; [reflexivity|now right].
    + rewrite (mapM_hasId bookId
                 (fun item => {| book := book item; quantity := q |}) _ H),
        bind_Normal.
      rewrite calculateTotals_sums; [now split; [|right]|].
      now apply hasBook_map.
  - split; [reflexivity|now right].
Qed.

Lemma guardedHasId_entryId (bookId : string) (item : CartItem) :
  guardedHasId bookId item = same_id (entryId item) bookId.
Proof. unfold guardedHasId, entryId. now destruct (book item). Qed.

Lemma same_id_eq (v : option string) (bookId : string) :
  same_id v bookId = true <-> v = Some bookId.
Proof.
  destruct v as [s|]; simpl; [|split; discriminate].
  rewrite String.eqb_eq. split; congruence.
Qed.

Lemma guardedHasId_distinct (a b : string) (item : CartItem) :
  a <> b -> guardedHasId a item = true -> guardedHasId b item = false.
Proof.
  rewrite !guardedHasId_entryId. intros Hne Ha.
  apply same_id_eq in Ha. rewrite Ha. simpl. now apply String.eqb_neq.
Qed.

Lemma existsb_entryId (bookId : string) (l : list CartItem) :
  existsb (guardedHasId bookId) l = false ->
  ~ In (Some bookId) (List.map entryId l).
Proof.
  induction l as [|x l IH]; simpl; [tauto|].
  intros H [Hx|Hin].
  - rewrite guardedHasId_entryId, Hx in H. simpl in H.
    now rewrite String.eqb_refl in H.
  - apply IH; [|exact Hin]. apply orb_false_elim in H. tauto.
Qed.

Lemma validItem_hasBook' (l : list CartItem) :
  Forall (fun item => validItem item = true) l -> Forall hasBook l.
Proof.
  apply List.Forall_impl. intros item. apply validItem_hasBook.
Qed.

Lemma map_same_book (p : CartItem -> bool) (g : CartItem -> CartItem)
    (l : list CartItem) :
  (forall item, book (g item) = book item) ->
  List.map entryId (List.map (fun item => if p item then g item else item) l)
  = List.map entryId l
  /\ (Forall (fun item => validItem item = true) l ->
      Forall (fun item => validItem item = true)
             (List.map (fun item => if p item then g item else item) l)).
Proof.
  intros Hg. split.
  - rewrite List.map_map. apply List.map_ext. intros item.
    destruct (p item); [|reflexivity]. unfold entryId. now rewrite Hg.
  - intros H. apply List.Forall_map. eapply List.Forall_impl; [|exact H].
    intros item Hv. destruct (p item); [|exact Hv].
    unfold validItem in *. now rewrite Hg.
Qed.

Lemma NoDup_filter_map (p : CartItem -> bool) (l : list CartItem) :
  NoDup (List.map entryId l) -> NoDup (List.map entryId (List.filter p l)).
Proof.
  induction l as [|x l IH]; simpl; intros H; [constructor|].
  apply NoDup_cons in H as [Hx Hl].
  destruct (p x); simpl; [|now apply IH].
  apply NoDup_cons. split; [|now apply IH].
  rewrite list_elem_of_In in *.
  intros Hin. apply Hx. apply List.in_map_iff in Hin as (y & Hy & Hin).
  apply List.filter_In in Hin as [Hin _].
  apply List.in_map_iff. now exists y.
Qed.

Lemma itemsAfter_wellKept (o : op) (l : list CartItem) :
  Forall (fun item => validItem item = true) l ->
  NoDup (List.map entryId l) ->
  Forall (fun item => validItem item = true) (itemsAfter o l)
  /\ NoDup (List.map entryId (itemsAfter o l)).
Proof.
  intros Hv Hn.
  assert (Hfilter : forall p,
    Forall (fun item => validItem item = true) (List.filter p l)
    /\ NoDup (List.map entryId (List.filter p l))).
  { intros p. split; [|now apply NoDup_filter_map].
    apply List.Forall_forall. intros item Hin.
    apply List.filter_In in Hin as [Hin _].
    revert item Hin. now apply List.Forall_forall. }
  destruct o as [b q|bookId|bookId q|]; simpl.
  - destruct (bookId_of b) as [bookId|] eqn:Hb; [|now split].
    destruct (truthy_string bookId) eqn:Ht; [|now split].
    destruct (existsb (guardedHasId bookId) l) eqn:Hex.
    + destruct (map_same_book (guardedHasId bookId)
                  (fun item => {| book := book item;
                                  quantity := quantity item + default 1 q |})
                  l (fun _ => eq_refl)) as [Hids Hvalid].
      split; [now apply Hvalid|now rewrite Hids].
    + split.
      * apply List.Forall_app. split; [exact Hv|].
        repeat constructor. unfold validItem. simpl. now rewrite Hb.
      * rewrite List.map_app. simpl.
        apply NoDup_app. split; [exact Hn|]. split.
        -- intros v Hin Hk. apply list_elem_of_In in Hin, Hk.
           destruct Hk as [Hv'|[]]. unfold entryId in Hv'. simpl in Hv'.
           rewrite Hb in Hv'. subst v.
           now apply (existsb_entryId _ _ Hex).
        -- apply NoDup_singleton.
  - apply Hfilter.
  - destruct (q <=? 0); [apply Hfilter|].
    destruct (map_same_book (guardedHasId bookId)
                (fun item => {| book := book item; quantity := q |})
                l (fun _ => eq_refl)) as [Hids Hvalid].
    split; [now apply Hvalid|now rewrite Hids].
  - split; constructor.
Qed.

Lemma dispatch_wellKept (o : op) (st : CartState) :
  wellKept st -> wellKept (dispatch (action_of o) st).
Proof.
  intros [Hv Hn]. unfold wellKept.
  rewrite (proj1 (dispatch_itemsAfter o st (validItem_hasBook' _ Hv))).
  now apply itemsAfter_wellKept.
Qed.

Lemma states_wellKept (ops : list op) (st : CartState) :
  wellKept st -> Forall wellKept (states ops st).
Proof.
  revert st.
  induction ops as [|o ops IH]; intros st Hst; simpl; [constructor|].
  pose proof (dispatch_wellKept o st Hst) as Hst'.
  constructor; [exact Hst'|now apply IH].
Qed.

(** X1: from a new store, after each operation of any sequence every entry of
    the cart has a resolvable identifier and no identifier has two
    entries. *)
Theorem cart_entries_unique (ops : list op) :
  Forall (fun st =>
            Forall (fun item => validItem item = true) (items st)
            /\ NoDup (List.map entryId (items st)))
         (states ops initialState).
Proof. apply states_wellKept. split; constructor. Qed.

Lemma find_filter_other (a b : string) (l : list CartItem) :
  a <> b ->
  List.find (guardedHasId b)
    (List.filter (fun item => negb (guardedHasId a item)) l)
  = List.find (guardedHasId b) l.
Proof.
  intros Hne. induction l as [|x l IH]; simpl; [reflexivity|].
  destruct (guardedHasId a x) eqn:Ha; simpl.
  - now rewrite (guardedHasId_distinct a b x Hne Ha).
  - now rewrite IH.
Qed.

Lemma existsb_filter_self (p : CartItem -> bool) (l : list CartItem) :
  existsb p (List.filter (fun item => negb (p item)) l) = false.
Proof.
  induction l as [|x l IH]; simpl; [reflexivity|].
  destruct (p x) eqn:Hx; simpl; [exact IH|]. now rewrite Hx.
Qed.

(** X2: [removeFromCart] on a cart whose entries all have a book: the entry of
    the identifier is gone, the other entries stay in their order and are
    found as before, and nothing changes when the identifier was not in the
    cart. *)
Theorem removeFromCart_removes (bookId : string) (st : CartState) :
  Forall hasBook (items st) ->
  let st' := dispatch (removeFromCart bookId) st in
  isInCart bookId st' = false
  /\ items st'
     = List.filter (fun item => negb (guardedHasId bookId item)) (items st)
  /\ (forall other, other <> bookId ->
        getCartItem other st' = getCartItem other st)
  /\ (isInCart bookId st = false -> st' = st).
Proof.
  intros H st'.
  destruct (dispatch_itemsAfter (RemoveFromCart bookId) st H) as [Hitems Hst].
  simpl in Hitems, Hst. fold st' in Hitems, Hst.
  unfold isInCart, getCartItem. rewrite Hitems.
  split; [apply existsb_filter_self|]. split; [reflexivity|]. split.
  - intros other Hne. now apply find_filter_other.
  - intros Habsent. unfold isInCart in Habsent.
    destruct Hst as [Hst|Hst]; [exact Hst|].
    unfold st', dispatch, removeFromCart.
    rewrite (findM_hasId _ _ H), bind_Normal, (find_none _ _ Habsent).
    reflexivity.
Qed.

(** [removeFromCart] on a cart with two books. *)
Lemma removeFromCart_removes_witness :
  let bk := fun i => {| _id := Some i; id := None; title := "T";
                        publisher := "P"; price := 10;
                        image := "https://example.com/t.png" |} in
  let st := dispatch (addToCart (bk "b2") (Some 1))
              (dispatch (addToCart (bk "b1") (Some 2)) initialState) in
  let st' := dispatch (removeFromCart "b1") st in
  isInCart "b1" st' = false
  /\ items st'
     = List.filter (fun item => negb (guardedHasId "b1" item)) (items st)
  /\ (forall other, other <> "b1" ->
        getCartItem other st' = getCartItem other st)
  /\ (isInCart "b1" st = false -> st' = st).
Proof.
  intros bk st st'.
  apply (removeFromCart_removes "b1" st).
  repeat constructor; discriminate.
Defined.

Lemma find_app (p : CartItem -> bool) (l k : list CartItem) :
  List.find p (l ++ k)
  = match List.find p l with Some x => Some x | None => List.find p k end.
Proof.
  induction l as [|x l IH]; simpl; [reflexivity|].
  destruct (p x); [reflexivity|exact IH].
Qed.

Lemma find_map_same (p : CartItem -> bool) (g : CartItem -> CartItem)
    (l : list CartItem) :
  (forall item, p (g item) = p item) ->
  List.find p (List.map (fun item => if p item then g item else item) l)
  = option_map g (List.find p l).
Proof.
  intros Hg. induction l as [|x l IH]; simpl; [reflexivity|].
  destruct (p x) eqn:Hx.
  - now rewrite Hg, Hx.
  - now rewrite Hx.
Qed.

Lemma find_map_other (a b : string) (g : CartItem -> CartItem)
    (l : list CartItem) :
  a <> b ->
  (forall item, book (g item) = book item) ->
  List.find (guardedHasId b)
    (List.map (fun item => if guardedHasId a item then g item else item) l)
  = List.find (guardedHasId b) l.
Proof.
  intros Hne Hg. induction l as [|x l IH]; simpl; [reflexivity|].
  destruct (guardedHasId a x) eqn:Ha.
  - assert (Hb : guardedHasId b (g x) = guardedHasId b x)
      by (unfold guardedHasId; now rewrite Hg).
    rewrite Hb, (guardedHasId_distinct a b x Hne Ha). exact IH.
  - destruct (guardedHasId b x); [reflexivity|exact IH].
Qed.

(** X3: [updateQuantity] with a quantity above zero, on a cart whose entries all
    have a book: the entry of the identifier, if there is one, has exactly
    the new quantity and its book; the identifiers of the cart and the other
    entries are as before.  With a quantity of at most zero the call is
    [removeFromCart]. *)
Theorem updateQuantity_sets (bookId : string) (q : float) (st : CartState) :
  Forall hasBook (items st) ->
  let st' := dispatch (updateQuantity bookId q) st in
  ((q <=? 0) = false ->
   getCartItem bookId st'
   = option_map (fun item => {| book := book item; quantity := q |})
                (getCartItem bookId st)
   /\ List.map entryId (items st') = List.map entryId (items st)
   /\ (forall other, other <> bookId ->
         getCartItem other st' = getCartItem other st))
  /\ ((q <=? 0) = true -> st' = dispatch (removeFromCart bookId) st).
Proof.
  intros H st'. split.
  - intros Hq.
    destruct (dispatch_itemsAfter (UpdateQuantity bookId q) st H)
      as [Hitems _].
    simpl in Hitems. rewrite Hq in Hitems. fold st' in Hitems.
    unfold getCartItem. rewrite Hitems. split; [|split].
    + now apply find_map_same.
    + now apply (map_same_book (guardedHasId bookId)
                   (fun item => {| book := book item; quantity := q |})).
    + intros other Hne. now apply find_map_other.
  - intros Hq. unfold st', updateQuantity, dispatch. now rewrite Hq.
Qed.

(** [updateQuantity] from 2 to 5 on a cart with one book. *)
Lemma updateQuantity_sets_witness :
  let b := {| _id := Some "b1"; id := None; title := "T"; publisher := "P";
              price := 10; image := "https://example.com/t.png" |} in
  let st := dispatch (addToCart b (Some 2)) initialState in
  let st' := dispatch (updateQuantity "b1" 5) st in
  getCartItem "b1" st' = Some {| book := Some b; quantity := 5 |}
  /\ totalItems st' = 5 /\ totalPrice st' = 50.
Proof.
  intros b st st'.
  assert (H : Forall hasBook (items st)) by (repeat constructor; discriminate).
  split; [|split; reflexivity].
  exact (proj1 (proj1 (updateQuantity_sets "b1" 5 st H) eq_refl)).
Defined.

Lemma addToCart_lookup (b : Book) (bookId : string)
    (q : option float) (st : CartState) :
  Forall hasBook (items st) ->
  bookId_of b = Some bookId ->
  truthy_string bookId = true ->
  let st' := dispatch (addToCart b q) st in
  getCartItem bookId st'
  = Some match getCartItem bookId st with
         | Some old => {| book := book old;
                          quantity := quantity old + default 1 q |}
         | None => {| book := Some b; quantity := default 1 q |}
         end
  /\ (forall other, other <> bookId ->
        getCartItem other st' = getCartItem other st).
Proof.
  intros H Hb Ht st'.
  destruct (dispatch_itemsAfter (AddToCart b q) st H) as [Hitems _].
  simpl in Hitems. rewrite Hb, Ht in Hitems. fold st' in Hitems.
  unfold getCartItem. rewrite Hitems.
  rewrite (find_existsb (guardedHasId bookId) (items st)).
  destruct (List.find (guardedHasId bookId) (items st)) as [old|] eqn:Hf.
  - split.
    + rewrite (find_map_same (guardedHasId bookId)
                 (fun item => {| book := book item;
                                 quantity := quantity item + default 1 q |}))
        by reflexivity.
      now rewrite Hf.
    + intros other Hne. now apply find_map_other.
  - assert (Hex : existsb (guardedHasId bookId) (items st) = false)
      by (rewrite find_existsb; now rewrite Hf).
    split.
    + apply find_last; [exact Hex|now apply guardedHasId_own].
    + intros other Hne. rewrite find_app.
      destruct (List.find (guardedHasId other) (items st));
        [reflexivity|].
      simpl.
      assert (Hown : guardedHasId bookId
                       {| book := Some b; quantity := default 1 q |} = true)
        by now apply guardedHasId_own.
      now rewrite (guardedHasId_distinct bookId other _
                     (fun e => Hne (eq_sym e)) Hown).
Qed.

(** X4: [addToCart] of a book with a resolvable identifier, on a cart whose
    entries all have a book: afterwards the book is in the cart; its entry
    has the quantity added to the one it had, and the book the cart already
    held, or is a new entry with the book and the quantity; the other
    entries are found as before. *)
Theorem addToCart_then_getCartItem (b : Book) (bookId : string)
    (q : option float) (st : CartState) :
  Forall hasBook (items st) ->
  bookId_of b = Some bookId ->
  truthy_string bookId = true ->
  let st' := dispatch (addToCart b q) st in
  isInCart bookId st' = true
  /\ getCartItem bookId st'
     = Some match getCartItem bookId st with
            | Some old => {| book := book old;
                             quantity := quantity old + default 1 q |}
            | None => {| book := Some b; quantity := default 1 q |}
            end
  /\ (forall other, other <> bookId ->
        getCartItem other st' = getCartItem other st).
Proof.
  intros H Hb Ht st'.
  pose proof (addToCart_lookup b bookId q st H Hb Ht) as Hget.
  fold st' in Hget. split; [|exact Hget].
  unfold isInCart. rewrite find_existsb.
  destruct Hget as [Hown _]. unfold getCartItem in Hown. now rewrite Hown.
Qed.

(** [addToCart] of three more copies of a book the cart holds twice. *)
Lemma addToCart_then_getCartItem_witness :
  let b := {| _id := Some "b1"; id := None; title := "T"; publisher := "P";
              price := 10; image := "https://example.com/t.png" |} in
  let st := dispatch (addToCart b (Some 2)) initialState in
  let st' := dispatch (addToCart b (Some 3)) st in
  isInCart "b1" st' = true
  /\ getCartItem "b1" st' = Some {| book := Some b; quantity := 2 + 3 |}.
Proof.
  intros b st st'.
  assert (H : Forall hasBook (items st)) by (repeat constructor; discriminate).
  destruct (addToCart_then_getCartItem b "b1" (Some 3) st H eq_refl eq_refl)
    as (H1 & H2 & _).
  split; [exact H1|exact H2].
Defined.

Lemma map_eta (l : list CartItem) :
  List.map (fun item => {| book := book item; quantity := quantity item |}) l
  = l.
Proof.
  induction l as [|[b q] l IH]; simpl; [reflexivity|]. now rewrite IH.
Qed.

Lemma filter_filter_same (p : CartItem -> bool) (l : list CartItem) :
  List.filter p (List.filter p l) = List.filter p l.
Proof.
  induction l as [|x l IH]; simpl; [reflexivity|].
  destruct (p x) eqn:Hx; simpl; [|exact IH]. now rewrite Hx, IH.
Qed.

(** *** The storage round trip *)

Lemma entryThroughJSON_safe (item : CartItem) :
  safeEntry item -> entryThroughJSON item = Some item.
Proof.
  intros [Hq Hp]. unfold entryThroughJSON. rewrite Hq. cbn.
  destruct item as [[b|] q]; cbn in *; [|reflexivity].
  rewrite (Hp b eq_refl). cbn. now destruct b.
Qed.

Lemma entriesThroughJSON_safe (l : list CartItem) :
  Forall safeEntry l -> entriesThroughJSON l = Some l.
Proof.
  induction 1 as [|item l H _ IH]; [reflexivity|].
  cbn [entriesThroughJSON]. rewrite (entryThroughJSON_safe item H), IH.
  reflexivity.
Qed.

(** The storage changes numbers only: an entry comes back with its
    identifier. *)
Lemma entryThroughJSON_entryId (item item' : CartItem) :
  entryThroughJSON item = Some item' ->
  entryId item' = entryId item /\ validItem item' = validItem item.
Proof.
  unfold entryThroughJSON.
  destruct (throughJSON (quantity item)) as [q|]; [|discriminate]. cbn.
  destruct (book item) as [b|] eqn:Hb.
  - destruct (throughJSON (price b)) as [p|]; [|discriminate]. cbn.
    intros [= <-]. unfold entryId, validItem. now rewrite Hb.
  - intros [= <-]. unfold entryId, validItem. now rewrite Hb.
Qed.

Lemma entriesThroughJSON_Forall2 (l : list CartItem) :
  forall l', entriesThroughJSON l = Some l' ->
  Forall2 (fun written read => entryThroughJSON written = Some read) l l'.
Proof.
  induction l as [|item l IH]; cbn [entriesThroughJSON]; intros l'.
  - intros [= <-]. constructor.
  - destruct (entryThroughJSON item) as [item'|] eqn:Hi; [|discriminate].
    cbn. destruct (entriesThroughJSON l) as [rest|]; [|discriminate].
    cbn. intros [= <-]. constructor; [exact Hi|now apply IH].
Qed.

(** A reload that the embedding follows: the entries with an identifier
    have come back through JSON, and both totals are those of the initial
    state. *)
Lemma reload_inv (st st' : CartState) :
  reload st = Some st' ->
  exists l,
    entriesThroughJSON (List.filter validItem (items st)) = Some l
    /\ st' = {| items := l; totalItems := 0; totalPrice := 0 |}.
Proof.
  unfold reload, readBack.
  assert (Hp : p_items (partialize st) = List.filter validItem (items st))
    by (unfold partialize; cbn [p_items]; apply map_eta).
  rewrite Hp.
  destruct (entriesThroughJSON (List.filter validItem (items st)))
    as [l|] eqn:Hl; [|discriminate].
  cbn. intros [= <-]. exists l. split; [reflexivity|].
  apply rehydrate_intact. cbn [p_items].
  apply entriesThroughJSON_Forall2 in Hl.
  assert (Hv : Forall (fun item => validItem item = true)
                      (List.filter validItem (items st))).
  { apply List.Forall_forall. intros item Hin.
    now apply List.filter_In in Hin as [_ Hv]. }
  clear -Hl Hv.
  induction Hl as [|x y l l' Hxy _ IH]; [reflexivity|].
  apply List.Forall_cons_iff in Hv as [Hx Hv].
  apply entryThroughJSON_entryId in Hxy as [_ Hy].
  cbn [List.filter]. rewrite Hy, Hx. now rewrite (IH Hv).
Qed.

Lemma filter_all (p : CartItem -> bool) (l : list CartItem) :
  Forall (fun item => p item = true) l -> List.filter p l = l.
Proof.
  induction 1 as [|x l Hx _ IH]; simpl; [reflexivity|]. now rewrite Hx, IH.
Qed.

(** X5: what comes back from storage, for a cart whose numbers JSON can
    write (the quantity and the price of every entry with an identifier
    finite, and not [-0]): the reload gives a store whose entries are the
    entries of the cart that have a resolvable identifier, in their order
    with their books and quantities; all the entries, when each of them has
    an identifier. *)
Theorem persisted_entries_come_back (st : CartState) :
  Forall safeEntry (List.filter validItem (items st)) ->
  exists st',
    reload st = Some st'
    /\ items st' = List.filter validItem (items st)
    /\ (Forall (fun item => validItem item = true) (items st) ->
        items st' = items st).
Proof.
  intros Hsafe.
  exists {| items := List.filter validItem (items st);
            totalItems := 0; totalPrice := 0 |}.
  split; [|split; [reflexivity|]].
  - unfold reload, readBack.
    assert (Hp : p_items (partialize st) = List.filter validItem (items st))
      by (unfold partialize; cbn [p_items]; apply map_eta).
    rewrite Hp, (entriesThroughJSON_safe _ Hsafe). cbn [option_map].
    f_equal. apply rehydrate_intact. cbn [p_items].
    apply filter_filter_same.
  - intros Hv. cbn [items]. now apply filter_all.
Qed.

(** Two copies of a book at 10, and an entry without a book that a reload
    drops. *)
Lemma persisted_entries_come_back_witness :
  let b := {| _id := Some "b1"; id := None; title := "T"; publisher := "P";
              price := 10; image := "https://example.com/t.png" |} in
  let st := {| items := [ {| book := None; quantity := 1 |};
                          {| book := Some b; quantity := 2 |} ];
               totalItems := 3; totalPrice := 20 |} in
  exists st',
    reload st = Some st'
    /\ items st' = [ {| book := Some b; quantity := 2 |} ].
Proof.
  intros b st.
  destruct (persisted_entries_come_back st) as (st' & Hr & Hi & _).
  - constructor; [|constructor].
    split; [reflexivity|]. intros b' [= <-]. reflexivity.
  - exists st'. split; [exact Hr|exact Hi].
Defined.

(** X6: [cleanupCart] never throws; it leaves the entries with a resolvable
    identifier, running it again changes nothing, and when it has dropped an
    entry the totals are the sums over the entries it has kept. *)
Theorem cleanupCart_heals (st : CartState) :
  exists st1,
    cleanupCart st = Normal st1
    /\ items st1 = List.filter validItem (items st)
    /\ Forall (fun item => validItem item = true) (items st1)
    /\ cleanupCart st1 = Normal st1
    /\ (items st1 <> items st -> consistent st1).
Proof.
  assert (Hvalid : Forall (fun item => validItem item = true)
                          (List.filter validItem (items st))).
  { apply List.Forall_forall. intros item Hin.
    now apply List.filter_In in Hin as [_ Hv]. }
  destruct (cleanupCart_cases st) as [[Hsame E]|[Hne E]].
  - exists st. split; [exact E|]. split; [now rewrite Hsame|].
    split; [now rewrite <- Hsame|]. split; [exact E|].
    intros Hc. now contradiction Hc.
  - exists (recomputed (List.filter validItem (items st))).
    split; [exact E|]. split; [reflexivity|]. split; [exact Hvalid|].
    split; [exact (cleanupCart_idempotent _ _ E)|].
    intros _. apply recomputed_consistent, filter_validItem_hasBook.
Qed.

(** *** Adding a batch *)

Lemma addToCart_step (b : Book) (q : float) (st : CartState)
    (bookId : string) :
  wellKept st -> truthy_string bookId = true ->
  exists st',
    addToCart b (Some q) st = Normal st'
    /\ wellKept st'
    /\ option_map quantity (getCartItem bookId st')
       = addedTo bookId (option_map quantity (getCartItem bookId st)) (b, q).
Proof.
  intros Hw Ht.
  assert (H : Forall hasBook (items st))
    by (apply validItem_hasBook', (proj1 Hw)).
  pose proof (dispatch_wellKept (AddToCart b (Some q)) st Hw) as Hw'.
  assert (Hd : addToCart b (Some q) st
               = Normal (dispatch (addToCart b (Some q)) st)).
  { unfold dispatch.
    destruct (action_recomputes (AddToCart b (Some q)) st H)
      as [E|(l & _ & E)]; simpl in E; now rewrite E. }
  exists (dispatch (addToCart b (Some q)) st).
  split; [exact Hd|]. split; [exact Hw'|].
  unfold addedTo. cbn [fst snd].
  destruct (bookId_of b) as [i|] eqn:Hb.
  - destruct (truthy_string i) eqn:Hi.
    + destruct (addToCart_lookup b i (Some q) st H Hb Hi) as (Hown & Hother).
      simpl. destruct (String.eqb_spec i bookId) as [->|Hne].
      * rewrite Hown. now destruct (getCartItem bookId st).
      * now rewrite (Hother bookId (fun e => Hne (eq_sym e))).
    + assert (Hsame : dispatch (addToCart b (Some q)) st = st)
        by (unfold dispatch, addToCart; now rewrite Hb, Hi).
      rewrite Hsame. simpl.
      destruct (String.eqb_spec i bookId) as [->|Hne]; [congruence|reflexivity].
  - assert (Hsame : dispatch (addToCart b (Some q)) st = st)
      by (unfold dispatch, addToCart; now rewrite Hb).
    now rewrite Hsame.
Qed.

(** X7: [addMultipleItems] on a cart whose entries all have an identifier, each
    identifier once: no call throws, the cart stays such a cart, and the
    quantity it holds of an identifier is the quantity it held with the
    quantities of the batch for that identifier added one after the other,
    in the order of the batch. *)
Theorem addMultipleItems_accumulates (batch : list (Book * float))
    (st : CartState) (bookId : string) :
  wellKept st -> truthy_string bookId = true ->
  exists st',
    addMultipleItems batch st = (Normal tt, st')
    /\ wellKept st'
    /\ option_map quantity (getCartItem bookId st')
       = fold_left (addedTo bookId) batch
                   (option_map quantity (getCartItem bookId st)).
Proof.
  intros Hw Ht. revert st Hw.
  induction batch as [|[b q] batch IH]; intros st Hw.
  - exists st. repeat split; apply Hw.
  - destruct (addToCart_step b q st bookId Hw Ht) as (st1 & E & Hw1 & Hq).
    destruct (IH st1 Hw1) as (st' & E' & Hw' & Hq').
    exists st'. cbn [addMultipleItems fold_left]. rewrite E.
    split; [exact E'|]. split; [exact Hw'|]. now rewrite Hq', Hq.
Qed.

(** Two and three copies of a book, and one of another, into a new cart. *)
Lemma addMultipleItems_accumulates_witness :
  let b := {| _id := Some "b1"; id := None; title := "T"; publisher := "P";
              price := 10; image := "https://example.com/t.png" |} in
  let c := {| _id := None; id := Some "c7"; title := "U"; publisher := "P";
              price := 4; image := "https://example.com/u.png" |} in
  exists st',
    addMultipleItems [(b, 2); (c, 1); (b, 3)] initialState = (Normal tt, st')
    /\ option_map quantity (getCartItem "b1" st') = Some 5.
Proof.
  intros b c.
  destruct (addMultipleItems_accumulates [(b, 2); (c, 1); (b, 3)]
              initialState "b1")
    as (st' & E & _ & Hq).
  - split; constructor.
  - reflexivity.
  - exists st'. split; [exact E|]. rewrite Hq. reflexivity.
Defined.

End CartOperations.


(** ** The checkout form: what the validators accept *)

Section FormValidators.
Import JS RegExp Checkout.

(** [test] on a pattern [^r]: the pattern [r] matches from the start of the
    string. *)
Lemma test_bol (r : regex) (s : jsstring) :
  wellFormed r = true ->
  test (Seq Bol r) s = true <-> exists y, denote (length s) r s y.
Proof.
  intros Hwf. unfold test. split.
  - intros H. apply search_inv in H as (pre & t & Hs & H).
    apply matcher_sound in H as (y & H & _); [|exact Hwf].
    simpl in H. destruct H as (z & [Hlen <-] & H).
    assert (pre = []) as ->.
    { rewrite Hs, List.length_app in Hlen. destruct pre; [reflexivity|].
      simpl in Hlen. lia. }
    simpl in Hs. subst. now exists y.
  - intros (y & H). apply search_here.
    apply (matcher_complete _ _ s y); [|reflexivity].
    simpl. exists s. now split.
Qed.

(** A match of a pattern that ends on [$] ends the input. *)
Lemma denote_eol (len : nat) (r : regex) :
  ends_at_eol r = true -> forall x y, denote len r x y -> y = [].
Proof.
  induction r as [| | |neg atoms|r1 IH1 r2 IH2|r1 IH1 r2 IH2|r1 IH1
                  |r1 IH1 min max]; simpl; intros He x y H;
    try discriminate.
  - now destruct H.
  - destruct H as (z & _ & H). now apply (IH2 He z).
  - apply andb_prop in He as [He1 He2].
    destruct H as [H|H]; [now apply (IH1 He1 x)|now apply (IH2 He2 x)].
  - now apply (IH1 He x).
Qed.

Lemma denote_chr (len : nat) (c : N) (x y : State) :
  denote len (Cls false [Lit c]) x y <-> x = c :: y.
Proof.
  simpl. unfold class_matches. simpl. split.
  - intros (ch & -> & H). rewrite orb_false_r in H.
    apply N.eqb_eq in H. now subst.
  - intros ->. exists c. split; [reflexivity|].
    now rewrite N.eqb_refl.
Qed.

Lemma plainChar_class (ch : char) :
  class_matches true [Space; Lit 64%N] ch = plainChar ch.
Proof.
  unfold class_matches, plainChar. simpl. now rewrite orb_false_r.
Qed.

Lemma denote_plain (len : nat) (x y : State) :
  denote len (plus (Cls true [Space; Lit 64%N])) x y
  <-> exists w, w <> [] /\ x = w ++ y
                /\ Forall (fun ch => plainChar ch = true) w.
Proof.
  rewrite denote_plus_class. split; intros (w & Hne & Hx & F);
    exists w; repeat split; auto;
    (eapply List.Forall_impl; [|exact F]); intros ch; cbv beta;
    now rewrite plainChar_class.
Qed.

(** X8: the e-mail validator accepts exactly the values that, trimmed, are a
    local part, [@], a domain, [.] and a last part, each part non-empty and
    free of white space and of [@]. *)
Theorem email_validator_shape (value : jsstring) :
  validateField f_email value = ""
  <-> exists a b t,
        trim value = a ++ of_string "@" ++ b ++ of_string "." ++ t
        /\ a <> [] /\ b <> [] /\ t <> []
        /\ Forall (fun ch => plainChar ch = true) a
        /\ Forall (fun ch => plainChar ch = true) b
        /\ Forall (fun ch => plainChar ch = true) t.
Proof.
  assert (Htest : test EMAIL_REGEX (trim value) = true
    <-> exists a b t,
          trim value = a ++ of_string "@" ++ b ++ of_string "." ++ t
          /\ a <> [] /\ b <> [] /\ t <> []
          /\ Forall (fun ch => plainChar ch = true) a
          /\ Forall (fun ch => plainChar ch = true) b
          /\ Forall (fun ch => plainChar ch = true) t).
  { cbv [EMAIL_REGEX seq]. rewrite test_bol by reflexivity.
    cbn [denote]. split.
    - intros (y & z1 & H1 & z2 & H2 & z3 & H3 & z4 & H4 & z5 & H5 & Hz & _).
      apply denote_plain in H1 as (a & Ha & Hs & Fa).
      apply denote_chr in H2. apply denote_plain in H3 as (b & Hb & -> & Fb).
      apply denote_chr in H4. apply denote_plain in H5 as (t & Ht & -> & Ft).
      subst. rewrite List.app_nil_r in *.
      exists a, b, t. repeat split; auto.
    - intros (a & b & t & Hs & Ha & Hb & Ht & Fa & Fb & Ft).
      exists [], (of_string "@" ++ b ++ of_string "." ++ t).
      split; [apply denote_plain; now exists a|].
      exists (b ++ of_string "." ++ t).
      split; [now apply denote_chr|].
      exists (of_string "." ++ t).
      split; [apply denote_plain; now exists b|].
      exists t. split; [now apply denote_chr|].
      exists []. split; [|now split].
      apply denote_plain. exists t. now rewrite List.app_nil_r. }
  split.
  - intros H. apply Htest. unfold validateField in H.
    destruct (blank value); [discriminate|].
    destruct (test EMAIL_REGEX (trim value)); [reflexivity|discriminate].
  - intros H. pose proof (proj2 Htest H) as Ht.
    destruct H as (a & b & t & Hs & _).
    unfold validateField, blank. rewrite Ht.
    destruct (Nat.eqb_spec (length (trim value)) 0) as [Hlen|Hlen];
      [|reflexivity].
    rewrite Hs, !List.length_app in Hlen. simpl in Hlen. lia.
Qed.

Lemma denote_Seq_tail (len : nat) (r1 r2 : regex) (x y : State) :
  denote len (Seq r1 r2) x y ->
  exists w z, x = w ++ z /\ denote len r2 z y.
Proof.
  intros (z & H1 & H2). apply denote_app in H1 as (w & ->). now exists w, z.
Qed.

Lemma phone_may_read (ch : char) :
  may_read PHONE_REGEX ch = true -> phoneChar ch = true.
Proof.
  unfold phoneChar. cbv [PHONE_REGEX seq opt chr may_read class_matches
    atom_matches existsb of_string list_ascii_of_string List.map xorb].
  change (N_of_ascii "+") with 43%N. change (N_of_ascii "(") with 40%N.
  change (N_of_ascii ")") with 41%N. change (N_of_ascii "-") with 45%N.
  change (N_of_ascii ".") with 46%N.
  destruct (is_digit ch), (is_space ch), (N.eqb ch 43), (N.eqb ch 40),
    (N.eqb ch 41), (N.eqb ch 45), (N.eqb ch 46); simpl; auto.
Qed.

(** X9: every value the phone validator accepts consists, once trimmed, of
    digits, white space and the characters [+], [(], [)], [-] and [.] only,
    and ends with a digit. *)
Theorem phone_validator_alphabet (value : jsstring) :
  validateField f_phone value = "" ->
  Forall (fun ch => phoneChar ch = true) (trim value)
  /\ exists w d, trim value = w ++ [d] /\ is_digit d = true.
Proof.
  intros H. apply validateField_phone_inv in H.
  pose proof H as Hall.
  cbv [PHONE_REGEX seq] in H. rewrite test_bol in H by reflexivity.
  destruct H as (y & H). split.
  - assert (Hy : y = [])
      by (eapply denote_eol; [|exact H]; reflexivity).
    apply denote_may_read in H as (w & Hs & F). subst y.
    rewrite List.app_nil_r in Hs. rewrite Hs.
    eapply List.Forall_impl; [|exact F]. intros ch Hch.
    apply phone_may_read. exact Hch.
  - apply denote_Seq_tail in H as (w1 & z1 & -> & H).
    apply denote_Seq_tail in H as (w2 & z2 & -> & H).
    apply denote_Seq_tail in H as (w3 & z3 & -> & H).
    apply denote_Seq_tail in H as (w4 & z4 & -> & H).
    apply denote_Seq_tail in H as (w5 & z5 & -> & H).
    destruct H as (z6 & (d & -> & Hd) & -> & _).
    exists (w1 ++ w2 ++ w3 ++ w4 ++ w5), d.
    split; [now rewrite <- !List.app_assoc|].
    unfold class_matches in Hd. simpl in Hd. now rewrite orb_false_r in Hd.
Qed.

(** The phone validator on the example of its error message. *)
Lemma phone_validator_alphabet_witness :
  Forall (fun ch => phoneChar ch = true) (trim (of_string "+1-555-123-4567"))
  /\ exists w d, trim (of_string "+1-555-123-4567") = w ++ [d]
                 /\ is_digit d = true.
Proof.
  apply phone_validator_alphabet. vm_compute. reflexivity.
Defined.

(** X10: [validateForm] validates the four required fields, all of them: the
    verdict is [true] exactly when each one passes, and the errors hold the
    message of each field that fails and nothing else. *)
Theorem validateForm_reports_every_field (formData : CheckoutFormData) :
  let value := fun f => default [] (get formData f) in
  (fst (validateForm formData) = true
   <-> forall f, In f requiredFields -> validateField f (value f) = "")
  /\ (forall f, In f requiredFields ->
        snd (validateForm formData) !! key f
        = if String.eqb (validateField f (value f)) "" then None
          else Some (validateField f (value f)))
  /\ (forall k, ~ In k (List.map key requiredFields) ->
        snd (validateForm formData) !! k = None).
Proof.
  intros value.
  unfold validateForm, requiredFields. cbn [fold_left get].
  unfold truthy_string. subst value. cbn [get default].
  destruct (String.eqb_spec (validateField f_name (name formData)) "")
    as [En|En];
  destruct (String.eqb_spec (validateField f_phone (phone formData)) "")
    as [Ep|Ep];
  destruct (String.eqb_spec (validateField f_email (email formData)) "")
    as [Ee|Ee];
  destruct (String.eqb_spec (validateField f_address (address formData)) "")
    as [Ea|Ea];
  cbn [negb fst snd];
  (split; [split;
     [intros Hv; try discriminate; intros f [<-|[<-|[<-|[<-|[]]]]];
      cbn [get default]; assumption
     |intros Hall; try reflexivity; exfalso;
      first [apply En; apply (Hall f_name); simpl; tauto
            |apply Ep; apply (Hall f_phone); simpl; tauto
            |apply Ee; apply (Hall f_email); simpl; tauto
            |apply Ea; apply (Hall f_address); simpl; tauto]]
   |split;
     [intros f [<-|[<-|[<-|[<-|[]]]]]; cbn [get default key];
      repeat match goal with
             | |- context [String.eqb ?a ""] =>
                 destruct (String.eqb_spec a ""); try contradiction
             end;
      simplify_map_eq; try reflexivity; congruence
     |intros k Hk; simpl in Hk;
      repeat (rewrite lookup_insert_ne by (intros <-; apply Hk; tauto));
      apply lookup_empty]]).
Qed.

End FormValidators.

(** ** The order service: responses, the stored orders and lookups *)

Section OrderService.
Import JS Backend.

Lemma reduceM_Throw {E A B} (f : B -> A -> completion E B) (l : list A) :
  forall init e, reduceM f l init = Throw e ->
  exists acc a, In a l /\ f acc a = Throw e.
Proof.
  induction l as [|a l IH]; intros init e; simpl; [discriminate|].
  destruct (f init a) as [acc|e'] eqn:Hf; simpl.
  - intros H. apply IH in H as (acc' & a' & Hin & H). eauto.
  - intros [= <-]. eauto.
Qed.

Lemma processItem_Throw (w : World) (acc : list OrderItem * float)
    (item : ItemRequest) (x : exit) :
  processItem w acc item = Throw x ->
  exists status error message,
    x = Return (failure status error message)
    /\ (status = 400%Z \/ status = 404%Z).
Proof.
  unfold processItem. destruct acc as [p c].
  destruct (bookId item) as [i|]; [|intros [= <-]; eauto 6].
  destruct (req_quantity item) as [q|]; [|intros [= <-]; eauto 6].
  destruct (_ || _); [intros [= <-]; eauto 6|].
  destruct (books w !! i); [discriminate|intros [= <-]; eauto 6].
Qed.

(** Every response the checks of the handler return is a rejection with an
    error and the status 400 or 404. *)
Lemma prepare_Return_rejects (req : Request) (w : World) (r : Response) :
  prepare req w = Throw (Return r) ->
  success r = false /\ data r = None /\ error r <> None
  /\ (res_status r = 400%Z \/ res_status r = 404%Z).
Proof.
  unfold prepare.
  destruct (negb (Nat.eqb (length (validationErrors req)) 0));
    [intros [= <-]; repeat split; [discriminate|now left]|].
  cbv zeta. unfold readLoggedFields.
  destruct (body_customer (body req)) as [customer|]; [|discriminate].
  destruct (body_items (body req)) as [| |[|item l]];
    try discriminate; rewrite bind_Normal;
    try (intros [= <-]; repeat split; [discriminate|now left]).
  rewrite bind_Normal.
  destruct (body_totalPrice (body req)) as [t|];
    [|intros [= <-]; repeat split; [discriminate|now left]].
  destruct (negb (truthy_number t) || (t <=? 0)%float);
    [intros [= <-]; repeat split; [discriminate|now left]|].
  rewrite bind_Normal.
  destruct (reduceM (processItem w) (item :: l) ([], 0%float))
    as [[p c]|x] eqn:Hloop.
  - rewrite bind_Normal.
    destruct (0.01 <? abs (c - t))%float; [|discriminate].
    intros [= <-]. repeat split; [discriminate|now left].
  - intros [= ->].
    apply reduceM_Throw in Hloop as (acc & a & _ & H).
    apply processItem_Throw in H as (s & e & m & [= ->] & Hs).
    repeat split; [discriminate|exact Hs].
Qed.

Lemma handleError_rejects (e : exn) :
  success (handleError e) = false /\ data (handleError e) = None
  /\ error (handleError e) <> None
  /\ In (res_status (handleError e)) [400; 409; 500]%Z.
Proof.
  destruct e as [m|errs|code m|m]; simpl;
    try (repeat split; [discriminate|tauto]).
  destruct (code =? 11000)%Z; simpl; repeat split; try discriminate; tauto.
Qed.

(** A rejection has one of four statuses and leaves the world as it was. *)
Lemma createOrder_status_rejects (env : Env) (req : Request) (w : World) :
  success (fst (createOrder env req w)) = false ->
  snd (createOrder env req w) = w
  /\ In (res_status (fst (createOrder env req w))) [400; 404; 409; 500]%Z.
Proof.
  unfold createOrder.
  destruct (prepare req w) as [od|[r|e]] eqn:Hp.
  - pose proof (save_inv env (newOrder env od) w) as Hsave.
    destruct (save env (newOrder env od) w) as [[order|e] w1]; cbn [fst snd].
    + discriminate.
    + intros _. split; [exact Hsave|].
      destruct (handleError_rejects e) as (_ & _ & _ & Hst).
      simpl in Hst. simpl. tauto.
  - intros _. split; [reflexivity|]. cbn [fst].
    destruct (prepare_Return_rejects _ _ _ Hp) as (_ & _ & _ & [-> | ->]);
      simpl; tauto.
  - intros _. split; [reflexivity|]. cbn [fst].
    destruct (handleError_rejects e) as (_ & _ & _ & Hst).
    simpl in Hst. simpl. tauto.
Qed.

(** X11: the status of a response tells what it is: [createOrder] answers with
    201, 400, 404, 409 or 500; the 201 is the only success and the only
    response with the order, and every other response names an error. *)
Theorem createOrder_status_classes (env : Env) (req : Request) (w : World) :
  let r := fst (createOrder env req w) in
  In (res_status r) [201; 400; 404; 409; 500]%Z
  /\ (success r = true <-> res_status r = 201%Z)
  /\ (success r = true <-> data r <> None)
  /\ (success r = false <-> error r <> None).
Proof.
  assert (Hrej : forall r : Response,
    success r = false -> data r = None -> error r <> None ->
    In (res_status r) [400; 404; 409; 500]%Z ->
    In (res_status r) [201; 400; 404; 409; 500]%Z
    /\ (success r = true <-> res_status r = 201%Z)
    /\ (success r = true <-> data r <> None)
    /\ (success r = false <-> error r <> None)).
  { intros r Hs Hd He Hst. rewrite Hs, Hd.
    split; [now right|]. split; [|split].
    - split; [discriminate|]. intros H. rewrite H in Hst. simpl in Hst.
      intuition discriminate.
    - split; [discriminate|congruence].
    - split; auto. }
  intros r. subst r. unfold createOrder.
  destruct (prepare req w) as [od|[r|e]] eqn:Hp.
  - destruct (save env (newOrder env od) w) as [[order|e] w1]; cbn [fst].
    + simpl. split; [now left|]. split; [split; reflexivity|]. split.
      * split; [discriminate|reflexivity].
      * split; [discriminate|]. intros H. now contradiction H.
    + destruct (handleError_rejects e) as (Hs & Hd & He & Hst).
      apply Hrej; auto. simpl in Hst. simpl. tauto.
  - cbn [fst].
    destruct (prepare_Return_rejects _ _ _ Hp) as (Hs & Hd & He & Hst).
    apply Hrej; auto. destruct Hst as [-> | ->]; simpl; tauto.
  - cbn [fst]. destruct (handleError_rejects e) as (Hs & Hd & He & Hst).
    apply Hrej; auto. simpl in Hst. simpl. tauto.
Qed.

(** X12: what [createOrder] leaves alone: the catalog and every order already
    stored; it sends at most two mails, changes nothing at all when it
    rejects, and when it succeeds stores one order under an identifier that
    was free. *)
Theorem createOrder_frame (env : Env) (req : Request) (w : World) :
  let out := createOrder env req w in
  books (snd out) = books w
  /\ (forall id o, orders w !! id = Some o -> orders (snd out) !! id = Some o)
  /\ (exists mails,
        outbox (snd out) = outbox w ++ mails /\ length mails <= 2)
  /\ (success (fst out) = false -> snd out = w)
  /\ (success (fst out) = true ->
      exists view order,
        data (fst out) = Some view
        /\ orderId order = view_orderId view
        /\ orders w !! view_orderId view = None
        /\ orders (snd out) = <[view_orderId view := order]> (orders w)).
Proof.
  intros out. subst out.
  destruct (createOrder_cases env req w)
    as [(Hs & Hd & ->)|(od & order & Hp & Hv & Ho & Hfree & ->)].
  - split; [reflexivity|]. split; [auto|]. split.
    + exists []. split; [now rewrite List.app_nil_r|simpl; lia].
    + split; [reflexivity|]. rewrite Hs. discriminate.
  - cbn [fst snd]. rewrite sendOrderEmails_spec. cbn [books orders outbox].
    split; [reflexivity|]. split; [|split; [|split]].
    + intros id o Hid. rewrite lookup_insert_ne; [exact Hid|].
      intros <-. congruence.
    + eexists. split; [reflexivity|].
      destruct (sendMail env (notificationMail order)); [|simpl; lia].
      destruct (sendMail env (confirmationMail order)); simpl; lia.
    + discriminate.
    + intros _. exists {| view_id := orderId order;
                          view_orderId := orderId order;
                          view_customer := customer order;
                          view_items := items order;
                          view_totalPrice := totalPrice order;
                          view_status := status order;
                          view_orderDate := createdAt order |}, order.
      repeat split. exact Hfree.
Qed.

Lemma prepare_books (req : Request) (w w' : World) :
  books w' = books w -> prepare req w' = prepare req w.
Proof. destruct w, w'. simpl. intros ->. reflexivity. Qed.

(** X13: the unique index on [orderId]: a request that would be accepted is
    answered with the 409 "Duplicate order", and nothing is stored or sent,
    when the identifier the hook generates for it is taken, as it is when the
    request is served again at the same clock reading with the same random
    draw. *)
Theorem taken_orderId_conflicts (env : Env) (req : Request) (w w' : World) :
  success (fst (createOrder env req w)) = true ->
  books w' = books w ->
  orders w' !! generateOrderId env <> None ->
  createOrder env req w'
  = (failure 409 "Duplicate order" "An order with this ID already exists", w').
Proof.
  intros Hs Hb Htaken.
  destruct (createOrder_cases env req w)
    as [(Hs' & _)|(od & order & Hp & Hv & Ho & Hfree & _)]; [congruence|].
  unfold createOrder, save. rewrite (prepare_books req w w' Hb), Hp, Hv.
  change (orderId (preSave env (newOrder env od))) with (generateOrderId env).
  destruct (orders w' !! generateOrderId env); [reflexivity|].
  now contradiction Htaken.
Qed.

(** The sample request served twice at the same instant. *)
Lemma taken_orderId_conflicts_witness :
  let w1 := snd (createOrder Sample.env (Sample.order_of Sample.B1 25.98)
                   Sample.world) in
  createOrder Sample.env (Sample.order_of Sample.B1 25.98) w1
  = (failure 409 "Duplicate order" "An order with this ID already exists", w1).
Proof.
  intros w1.
  apply (taken_orderId_conflicts Sample.env _ Sample.world w1);
    [reflexivity|reflexivity|].
  vm_compute. discriminate.
Defined.

(** *** What the schema has let in *)

Lemma first_error_nil (checks : list (list FieldError)) :
  first_error checks = [] -> Forall (fun l => l = []) checks.
Proof.
  unfold first_error.
  induction checks as [|[|e l] checks IH]; simpl; intros H.
  - constructor.
  - constructor; [reflexivity|now apply IH].
  - discriminate.
Qed.

Lemma check_required_nil (path msg : string) (v : option jsstring) :
  check_required path msg v = [] -> exists s, v = Some s /\ s <> [].
Proof.
  destruct v as [[|c s]|]; try discriminate. intros _. now eexists.
Qed.

Lemma check_maxlength_nil (path msg : string) (max : nat) (s : jsstring) :
  check_maxlength path msg max (Some s) = [] -> List.length s <= max.
Proof.
  simpl. destruct (Nat.leb_spec (List.length s) max); [auto|discriminate].
Qed.

Lemma check_pattern_nil (path msg : string) (r : RegExp.regex) (s : jsstring) :
  check_pattern path msg r (Some s) = [] -> RegExp.test r s = true.
Proof. simpl. now destruct (RegExp.test r s). Qed.

Lemma check_number_nil (path castmsg minmsg : string) (min v : float) :
  check_number path castmsg minmsg min v = [] -> (min <=? v)%float = true.
Proof.
  unfold check_number. destruct (PrimFloat.is_nan v); [discriminate|].
  now destruct (min <=? v)%float.
Qed.

Lemma check_required_string_nil (path msg v : string) :
  check_required_string path msg v = [] -> v <> "".
Proof.
  unfold check_required_string, truthy_string.
  destruct (String.eqb_spec v ""); [discriminate|auto].
Qed.

Lemma validateItems_nil (l : list OrderItem) :
  forall i, validateItems i l = [] ->
  Forall (fun it =>
            (1 <=? quantity it)%float = true
            /\ (0 <=? price it)%float = true
            /\ title it <> "" /\ publisher it <> "" /\ image it <> "") l.
Proof.
  induction l as [|it l IH]; intros i; simpl; [constructor|].
  intros H. apply List.app_eq_nil in H as [Hit Hl].
  constructor; [|now apply (IH (S i))].
  unfold validateItem in Hit.
  apply List.app_eq_nil in Hit as [Hq Hit].
  apply List.app_eq_nil in Hit as [Hp Hit].
  apply List.app_eq_nil in Hit as [Ht Hit].
  apply List.app_eq_nil in Hit as [Hpub Him].
  apply check_number_nil in Hq, Hp.
  apply check_required_string_nil in Ht, Hpub, Him. auto.
Qed.

(** An order that passes the validation of [save] is as the schema asks. *)
Lemma validateOrder_schemaValid (o : Order) :
  validateOrder o = [] -> schemaValid o.
Proof.
  unfold validateOrder. intros H.
  apply List.app_eq_nil in H as [Hc H]. unfold validateCustomer in Hc.
  repeat (apply List.app_eq_nil in Hc as [? Hc]).
  repeat (apply List.app_eq_nil in H as [? H]).
  repeat match goal with
         | E : first_error _ = [] |- _ =>
             apply first_error_nil in E;
             apply List.Forall_cons_iff in E as [? E];
             apply List.Forall_cons_iff in E as [? _]
         end.
  repeat match goal with
         | E : check_required _ _ _ = [] |- _ =>
             apply check_required_nil in E as (? & E & ?);
             try rewrite E in *
         end.
  repeat match goal with
         | E : check_maxlength _ _ _ (Some _) = [] |- _ =>
             apply check_maxlength_nil in E
         | E : check_pattern _ _ _ (Some _) = [] |- _ =>
             apply check_pattern_nil in E
         | E : check_number _ _ _ _ _ = [] |- _ =>
             apply check_number_nil in E
         | E : validateItems _ _ = [] |- _ =>
             apply validateItems_nil in E
         end.
  constructor; eauto.
  destruct (items o); [discriminate|discriminate].
Qed.

Lemma schemaValid_preSave (env : Env) (o : Order) :
  schemaValid o -> schemaValid (preSave env o).
Proof.
  intros [H1 H2 H3 H4 H5 H6 H7 H8 H9]. unfold preSave.
  destruct (negb _); constructor; assumption.
Qed.

(** A request that succeeds has passed every check of the handler and of
    the schema, and leaves the order of its lines stored under the generated
    identifier. *)
Lemma createOrder_success_inv (env : Env) (req : Request) (w : World) :
  success (fst (createOrder env req w)) = true ->
  exists customer l claimed lines,
    reachesIntegrityCheck req w customer l claimed lines
    /\ let od := makeOrderData customer lines (lineTotals lines 0)
                   (body_notes (body req)) in
       let order := preSave env (newOrder env od) in
       validateOrder (newOrder env od) = []
       /\ orderId order = generateOrderId env
       /\ orders w !! generateOrderId env = None
       /\ createOrder env req w
          = (created order,
             {| books := books w;
                orders := <[generateOrderId env := order]> (orders w);
                outbox := outbox w ++
                  (if sendMail env (notificationMail order)
                   then notificationMail order
                        :: (if sendMail env (confirmationMail order)
                            then [confirmationMail order] else [])
                   else []) |}).
Proof.
  intros Hs.
  destruct (createOrder_cases env req w)
    as [(Hs' & _)|(od & order & Hp & Hv & -> & Hfree & Heq)]; [congruence|].
  apply prepare_Normal_inv in Hp as (customer & l & t & lines & Hr & _ & ->).
  exists customer, l, t, lines. split; [exact Hr|]. cbv zeta.
  split; [exact Hv|]. split; [reflexivity|]. split; [exact Hfree|].
  rewrite Heq, sendOrderEmails_spec. reflexivity.
Qed.

Lemma generateOrderId_prefix (env : Env) :
  String.prefix "ORD-" (generateOrderId env) = true.
Proof.
  unfold generateOrderId. simpl.
  match goal with |- String.prefix _ ?s = _ => now destruct s end.
Qed.

Lemma createOrder_storeInvariant (env : Env) (req : Request) (w : World) :
  storeInvariant w -> storeInvariant (snd (createOrder env req w)).
Proof.
  intros [Hk Hsch Hm].
  destruct (success (fst (createOrder env req w))) eqn:Hs.
  2:{ destruct (createOrder_cases env req w)
        as [(_ & _ & ->)|(od & order & _ & _ & _ & _ & Heq)];
        [now constructor|].
      rewrite Heq in Hs. discriminate. }
  apply createOrder_success_inv in Hs
    as (customer & l & t & lines & Hr & Hv & Hid & Hfree & ->).
  cbn [snd].
  set (order := preSave env (newOrder env _)) in *.
  constructor; cbn [orders outbox].
  - intros id o. destruct (decide (id = generateOrderId env)) as [->|Hne].
    + rewrite lookup_insert_eq. intros [= <-].
      split; [exact Hid|apply generateOrderId_prefix].
    + rewrite lookup_insert_ne by congruence. apply Hk.
  - intros id o. destruct (decide (id = generateOrderId env)) as [->|Hne].
    + rewrite lookup_insert_eq. intros [= <-].
      split; [|split; reflexivity].
      apply schemaValid_preSave, validateOrder_schemaValid, Hv.
    + rewrite lookup_insert_ne by congruence. apply Hsch.
  - intros m Hin. apply List.in_app_or in Hin as [Hin|Hin].
    + destruct (Hm m Hin) as (o & Ho & Hcases). exists o.
      split; [|exact Hcases].
      rewrite lookup_insert_ne; [exact Ho|]. intros Heq.
      rewrite <- Heq in Ho. congruence.
    + exists order. split.
      * assert (Hmid : mail_orderId m = generateOrderId env).
        { destruct (sendMail env (notificationMail order)); [|destruct Hin].
          destruct Hin as [<-|Hin]; [exact Hid|].
          destruct (sendMail env (confirmationMail order)); [|destruct Hin].
          destruct Hin as [<-|[]]. exact Hid. }
        rewrite Hmid. apply lookup_insert_eq.
      * destruct (sendMail env (notificationMail order)); [|destruct Hin].
        destruct Hin as [<-|Hin]; [now left|].
        destruct (sendMail env (confirmationMail order)); [|destruct Hin].
        destruct Hin as [<-|[]]. now right.
Qed.

Lemma serve_storeInvariant (l : list (Env * Request)) :
  forall w, storeInvariant w -> storeInvariant (serve l w).
Proof.
  unfold serve. induction l as [|[env req] l IH]; intros w Hw; simpl.
  - exact Hw.
  - apply IH. now apply createOrder_storeInvariant.
Qed.

Lemma freshWorld_storeInvariant (catalog : gmap string Book) :
  storeInvariant (freshWorld catalog).
Proof.
  constructor; simpl.
  - intros id o H. now rewrite lookup_empty in H.
  - intros id o H. now rewrite lookup_empty in H.
  - intros m [].
Qed.

(** X14: whatever requests the service has answered since the database had no
    order: every order in it is stored under its own identifier, which
    starts with "ORD-"; it has at least one line, each line with a quantity
    of at least 1, a price of at least 0 and a title, a publisher and an
    image; its total is at least 0; its customer has a name and an address
    within the lengths of the schema and a phone number and an e-mail
    address the patterns accept; it has a shipping address; and it is
    [pending], with the payment [pending]. *)
Theorem stored_orders_satisfy_schema (catalog : gmap string Book)
    (l : list (Env * Request)) (id : string) (o : Order) :
  orders (serve l (freshWorld catalog)) !! id = Some o ->
  orderId o = id /\ String.prefix "ORD-" id = true
  /\ schemaValid o
  /\ status o = pending /\ paymentStatus o = payment_pending.
Proof.
  intros H.
  destruct (serve_storeInvariant l _ (freshWorld_storeInvariant catalog))
    as [Hk Hsch _].
  destruct (Hk id o H). destruct (Hsch id o H) as (? & ? & ?). auto.
Qed.

(** The order of the sample request, alone in the database. *)
Lemma stored_orders_satisfy_schema_witness :
  exists o,
    orders (serve [(Sample.env, Sample.order_of Sample.B1 25.98)]
              (freshWorld (books Sample.world)))
      !! "ORD-1730000000001-K3J9X2M1P" = Some o
    /\ schemaValid o /\ status o = pending.
Proof.
  eexists. split; [vm_compute; reflexivity|].
  refine ((fun H => conj (proj1 (proj2 (proj2 H)))
                        (proj1 (proj2 (proj2 (proj2 H)))))
            (stored_orders_satisfy_schema (books Sample.world)
               [(Sample.env, Sample.order_of Sample.B1 25.98)]
               "ORD-1730000000001-K3J9X2M1P" _ _)).
  vm_compute. reflexivity.
Defined.

(** X15: no mail without an order: whatever requests the service has answered
    since the database had no order and no mail had gone out, every mail
    that went out is the notification or the confirmation of an order that
    is stored, with its identifier, and a confirmation is addressed to the
    e-mail address stored with the order. *)
Theorem mails_refer_to_stored_orders (catalog : gmap string Book)
    (l : list (Env * Request)) (m : Mail) :
  In m (outbox (serve l (freshWorld catalog))) ->
  exists o,
    orders (serve l (freshWorld catalog)) !! mail_orderId m = Some o
    /\ orderId o = mail_orderId m
    /\ ((mail_kind m = OrderNotification /\ mail_to m = OwnerEmail)
        \/ (mail_kind m = OrderConfirmation
            /\ mail_to m = CustomerEmail (email (customer o)))).
Proof.
  intros H.
  destruct (serve_storeInvariant l _ (freshWorld_storeInvariant catalog))
    as [Hk _ Hm].
  destruct (Hm m H) as (o & Ho & Hcases). exists o.
  split; [exact Ho|]. split; [apply (Hk _ _ Ho)|].
  destruct Hcases as [-> | ->]; [left|right]; split; reflexivity.
Qed.

(** The notification of the sample order. *)
Lemma mails_refer_to_stored_orders_witness :
  exists o,
    orders (serve [(Sample.env, Sample.order_of Sample.B1 25.98)]
              (freshWorld (books Sample.world)))
      !! "ORD-1730000000001-K3J9X2M1P" = Some o
    /\ orderId o = "ORD-1730000000001-K3J9X2M1P".
Proof.
  destruct (mails_refer_to_stored_orders (books Sample.world)
              [(Sample.env, Sample.order_of Sample.B1 25.98)]
              {| mail_kind := OrderNotification; mail_to := OwnerEmail;
                 mail_orderId := "ORD-1730000000001-K3J9X2M1P" |})
    as (o & Ho & Hid & _).
  - vm_compute. now left.
  - exists o. split; [exact Ho|exact Hid].
Defined.

(** *** What is stored, and what a lookup returns *)

Lemma trimStart_idempotent (s : jsstring) :
  trimStart (trimStart s) = trimStart s.
Proof.
  induction s as [|c s IH]; [reflexivity|].
  simpl. destruct (is_space c) eqn:Hc; [exact IH|]. simpl. now rewrite Hc.
Qed.

Lemma trimStart_snoc (s : jsstring) (c : char) :
  is_space c = false -> trimStart (s ++ [c]) = trimStart s ++ [c].
Proof.
  intros Hc. induction s as [|d s IH]; simpl; [now rewrite Hc|].
  now destruct (is_space d).
Qed.

Lemma trimStart_fixed (s : jsstring) :
  trimStart s = s -> trimStart (trimEnd s) = trimEnd s.
Proof.
  destruct s as [|c s]; [reflexivity|]. simpl.
  destruct (is_space c) eqn:Hc.
  - intros H. exfalso.
    assert (Hlen : forall t : jsstring,
              List.length (trimStart t) <= List.length t).
    { induction t as [|d t IH]; simpl; [lia|].
      destruct (is_space d); simpl; lia. }
    pose proof (Hlen s) as Hs. rewrite H in Hs. simpl in Hs. lia.
  - intros _. unfold trimEnd. simpl rev.
    rewrite (trimStart_snoc _ c Hc), List.rev_app_distr. simpl.
    now rewrite Hc.
Qed.

(** [trim] leaves nothing for a second [trim]. *)
Lemma trim_idempotent (s : jsstring) : trim (trim s) = trim s.
Proof.
  unfold trim.
  rewrite (trimStart_fixed (trimStart s) (trimStart_idempotent s)).
  unfold trimEnd. now rewrite List.rev_involutive, trimStart_idempotent.
Qed.

Lemma resolve_snapshot (w : World) (l : list ItemRequest) :
  forall lines, resolve w l = Some lines ->
  Forall2 (fun item line => snapshot w item = Some line) l lines.
Proof.
  induction l as [|item l IH]; simpl; intros lines.
  - intros [= <-]. constructor.
  - destruct (snapshot w item) as [s|] eqn:Hs; [|discriminate].
    destruct (resolve w l) as [ss|]; [|discriminate].
    intros [= <-]. constructor; [exact Hs|now apply IH].
Qed.

Lemma snapshot_inv (w : World) (item : ItemRequest) (line : OrderItem) :
  snapshot w item = Some line ->
  bookId item = Some (book line)
  /\ req_quantity item = Some (quantity line)
  /\ exists b, books w !! book line = Some b
               /\ price line = book_price b
               /\ title line = book_title b
               /\ publisher line = book_publisher b
               /\ image line = book_image b.
Proof.
  unfold snapshot.
  destruct (bookId item) as [i|]; [|discriminate].
  destruct (req_quantity item) as [q|]; [|discriminate].
  destruct (books w !! i) as [b|] eqn:Hb; [|discriminate].
  intros [= <-]. simpl. repeat split. now exists b.
Qed.

Lemma preSave_fields (env : Env) (o : Order) :
  customer (preSave env o) = customer o
  /\ items (preSave env o) = items o
  /\ totalPrice (preSave env o) = totalPrice o
  /\ status (preSave env o) = status o
  /\ shippingAddress (preSave env o) = shippingAddress o
  /\ notes (preSave env o) = notes o
  /\ createdAt (preSave env o) = createdAt o.
Proof. unfold preSave. destruct (negb _); repeat split. Qed.

(** X16: the lines of a stored order follow the request: when [createOrder]
    succeeds, the order has one line for each item of the request, in the
    order of the request, with the identifier and the quantity of the item
    and the price, title, publisher and image the catalog has for the book;
    and the virtual [totalItems] of the order is the sum of the quantities
    asked for. *)
Theorem stored_lines_follow_request (env : Env) (req : Request) (w : World)
    (l : list ItemRequest) :
  success (fst (createOrder env req w)) = true ->
  body_items (body req) = ItemsArray l ->
  let out := createOrder env req w in
  exists view order,
    data (fst out) = Some view
    /\ orders (snd out) !! view_orderId view = Some order
    /\ items order = view_items view
    /\ Forall2 (fun item line =>
                  bookId item = Some (book line)
                  /\ req_quantity item = Some (quantity line)
                  /\ exists b, books w !! book line = Some b
                               /\ price line = book_price b
                               /\ title line = book_title b
                               /\ publisher line = book_publisher b
                               /\ image line = book_image b)
               l (items order)
    /\ exists quantities,
         List.map req_quantity l = List.map Some quantities
         /\ order_totalItems order
            = fold_left (fun total q => (total + q)%float) quantities 0%float.
Proof.
  intros Hs Hl out. subst out.
  apply createOrder_success_inv in Hs
    as (cust & l' & t & lines & Hr & Hv & Hid & Hfree & ->).
  pose proof (ric_items _ _ _ _ _ _ Hr) as Hl'. rewrite Hl in Hl'.
  injection Hl' as <-.
  set (order := preSave env (newOrder env _)) in *.
  exists {| view_id := orderId order; view_orderId := orderId order;
            view_customer := customer order; view_items := items order;
            view_totalPrice := totalPrice order;
            view_status := status order;
            view_orderDate := createdAt order |}, order.
  cbn [fst snd data created view_orderId view_items orders].
  split; [reflexivity|]. split; [rewrite Hid; apply lookup_insert_eq|].
  split; [reflexivity|].
  assert (Hitems : items order = lines)
    by (unfold order; now rewrite (proj1 (proj2 (preSave_fields env _)))).
  pose proof (resolve_snapshot _ _ _ (ric_resolve _ _ _ _ _ _ Hr)) as Hsnap.
  assert (Hlines : Forall2 (fun item line =>
                     bookId item = Some (book line)
                     /\ req_quantity item = Some (quantity line)
                     /\ exists b, books w !! book line = Some b
                                  /\ price line = book_price b
                                  /\ title line = book_title b
                                  /\ publisher line = book_publisher b
                                  /\ image line = book_image b) l lines).
  { clear -Hsnap. induction Hsnap as [|item line l lines H _ IH];
      constructor; [now apply snapshot_inv|exact IH]. }
  split; [now rewrite Hitems|].
  exists (List.map quantity lines). split.
  - clear -Hlines. induction Hlines as [|item line l lines (_ & H & _) _ IH];
      simpl; [reflexivity|]. now rewrite H, IH.
  - unfold order_totalItems. rewrite Hitems.
    generalize 0%float. clear. induction lines as [|line lines IH];
      intros acc; simpl; [reflexivity|]. apply IH.
Qed.

(** The sample request: one line, two copies. *)
Lemma stored_lines_follow_request_witness :
  let out := createOrder Sample.env (Sample.order_of Sample.B1 25.98)
               Sample.world in
  exists view order,
    data (fst out) = Some view
    /\ orders (snd out) !! view_orderId view = Some order
    /\ items order = view_items view
    /\ List.length (items order) = 1.
Proof.
  intros out.
  destruct (stored_lines_follow_request Sample.env
              (Sample.order_of Sample.B1 25.98) Sample.world _
              eq_refl eq_refl)
    as (view & order & Hd & Ho & Hi & Hl & _).
  exists view, order. repeat split; try assumption.
  now rewrite <- (Forall2_length _ _ _ Hl).
Defined.

(** X17: the customer of a stored order is the customer of the request after the
    [trim] setters of the schema: the name, the phone number and the address
    trimmed, an organization that was not given stored as the empty string,
    the address stored a second time as the shipping address, and the notes
    trimmed.  None of these stored strings has white space left at either
    end. *)
Theorem stored_customer_is_trimmed (env : Env) (req : Request) (w : World)
    (c : Customer) :
  success (fst (createOrder env req w)) = true ->
  body_customer (body req) = Some c ->
  let out := createOrder env req w in
  exists view order,
    data (fst out) = Some view
    /\ orders (snd out) !! view_orderId view = Some order
    /\ customer order = view_customer view
    /\ name (customer order) = option_map trim (name c)
    /\ organization (customer order) = Some (trim (or_empty (organization c)))
    /\ phone (customer order) = option_map trim (phone c)
    /\ address (customer order) = option_map trim (address c)
    /\ shippingAddress order = address (customer order)
    /\ notes order = trim (or_empty (body_notes (body req)))
    /\ (forall s,
          In (Some s) [name (customer order); organization (customer order);
                       phone (customer order); address (customer order);
                       shippingAddress order; Some (notes order)] ->
          trim s = s).
Proof.
  intros Hs Hc out. subst out.
  apply createOrder_success_inv in Hs
    as (cust & l & t & lines & Hr & Hv & Hid & Hfree & ->).
  pose proof (ric_customer _ _ _ _ _ _ Hr) as Hc'. rewrite Hc in Hc'.
  injection Hc' as <-.
  set (order := preSave env (newOrder env _)) in *.
  exists {| view_id := orderId order; view_orderId := orderId order;
            view_customer := customer order;
            view_items := items order;
            view_totalPrice := totalPrice order;
            view_status := status order;
            view_orderDate := createdAt order |}, order.
  cbn [fst snd data created view_orderId view_customer orders].
  split; [reflexivity|]. split; [rewrite Hid; apply lookup_insert_eq|].
  split; [reflexivity|].
  destruct (preSave_fields env
              (newOrder env (makeOrderData c lines (lineTotals lines 0)
                               (body_notes (body req)))))
    as (Ec & _ & _ & _ & Esh & En & _).
  fold order in Ec, Esh, En. rewrite Ec, Esh, En.
  cbn [newOrder makeOrderData od_customer od_shippingAddress od_notes
       Backend.customer shippingAddress notes name organization phone email
       address set_trim set_lowercase option_map].
  repeat (split; [now destruct c as [[?|] [?|] [?|] [?|] [?|]]|]).
  intros s Hin. simpl in Hin.
  assert (Hopt : forall v : option jsstring,
            option_map trim v = Some s -> trim s = s).
  { intros [v|]; [|discriminate]. intros [= <-]. apply trim_idempotent. }
  destruct Hin as [H|[H|[H|[H|[H|[H|[]]]]]]]; try (now apply Hopt in H);
    injection H as <-; apply trim_idempotent.
Qed.

(** The sample customer: the stored name is the one of the request. *)
Lemma stored_customer_is_trimmed_witness :
  let out := createOrder Sample.env (Sample.order_of Sample.B1 25.98)
               Sample.world in
  exists view order,
    data (fst out) = Some view
    /\ orders (snd out) !! view_orderId view = Some order
    /\ name (customer order) = Some (of_string "Alice Doe").
Proof.
  intros out.
  destruct (stored_customer_is_trimmed Sample.env
              (Sample.order_of Sample.B1 25.98) Sample.world Sample.alice
              eq_refl eq_refl)
    as (view & order & Hd & Ho & _ & Hn & _).
  exists view, order. repeat split; assumption.
Defined.

Lemma populate_snapshots (w w1 : World) (l : list ItemRequest)
    (lines : list OrderItem) :
  books w1 = books w ->
  Forall2 (fun item line => snapshot w item = Some line) l lines ->
  List.map (populateItem w1) lines
  = List.map (fun line =>
                {| pi_book := Some {| pb_id := book line;
                                      pb_title := title line;
                                      pb_publisher := publisher line;
                                      pb_image := image line |};
                   pi_quantity := quantity line;
                   pi_price := price line;
                   pi_title := title line;
                   pi_publisher := publisher line;
                   pi_image := image line |}) lines.
Proof.
  intros Hb Hsnap. induction Hsnap as [|item line l lines H _ IH];
    [reflexivity|].
  cbn [List.map]. rewrite IH. f_equal.
  apply snapshot_inv in H as (_ & _ & b & Hbook & _ & Ht & Hp & Hi).
  unfold populateItem. rewrite Hb, Hbook. now rewrite Ht, Hp, Hi.
Qed.

(** X18: an order that has just been created is found: [getOrderById] with the
    identifier of the response answers 200 with the stored order, which has
    the customer, total, status and date the response of [createOrder]
    showed, and whose lines have their [book] populated from the catalog,
    with the title, publisher and image the line has copied.  The lookup of
    every other identifier answers as it did before the order. *)
Theorem created_order_is_found (env : Env) (req : Request) (w : World) :
  success (fst (createOrder env req w)) = true ->
  let out := createOrder env req w in
  exists view doc,
    data (fst out) = Some view
    /\ getOrderById (view_orderId view) (snd out)
       = {| lookup_status := 200; lookup_success := true;
            lookup_error := None; lookup_message := None;
            lookup_data := Some doc |}
    /\ doc_orderId doc = view_orderId view
    /\ doc_customer doc = view_customer view
    /\ doc_totalPrice doc = view_totalPrice view
    /\ doc_status doc = view_status view
    /\ doc_createdAt doc = view_orderDate view
    /\ doc_items doc
       = List.map (fun line =>
                     {| pi_book := Some {| pb_id := book line;
                                           pb_title := title line;
                                           pb_publisher := publisher line;
                                           pb_image := image line |};
                        pi_quantity := quantity line;
                        pi_price := price line;
                        pi_title := title line;
                        pi_publisher := publisher line;
                        pi_image := image line |})
                  (view_items view)
    /\ (forall id, id <> view_orderId view ->
          getOrderById id (snd out) = getOrderById id w).
Proof.
  intros Hs out. subst out.
  apply createOrder_success_inv in Hs
    as (cust & l & t & lines & Hr & Hv & Hid & Hfree & ->).
  set (order := preSave env (newOrder env _)) in *.
  set (w1 := {| books := books w;
                orders := <[generateOrderId env := order]> (orders w);
                outbox := _ |}).
  exists {| view_id := orderId order; view_orderId := orderId order;
            view_customer := customer order; view_items := items order;
            view_totalPrice := totalPrice order;
            view_status := status order;
            view_orderDate := createdAt order |}, (populateOrder w1 order).
  cbn [fst snd data created view_orderId view_customer view_items
       view_totalPrice view_status view_orderDate].
  split; [reflexivity|]. split.
  { unfold getOrderById. rewrite Hid. cbn [orders w1].
    now rewrite lookup_insert_eq. }
  repeat (split; [reflexivity|]). split.
  - cbn [populateOrder doc_items].
    assert (Hitems : items order = lines)
      by (unfold order; now rewrite (proj1 (proj2 (preSave_fields env _)))).
    rewrite Hitems.
    apply (populate_snapshots w w1 l); [reflexivity|].
    apply resolve_snapshot, (ric_resolve _ _ _ _ _ _ Hr).
  - intros id Hne. unfold getOrderById. cbn [orders w1].
    rewrite lookup_insert_ne by congruence.
    destruct (orders w !! id); reflexivity.
Qed.

(** The sample order, looked up under the identifier of the response. *)
Lemma created_order_is_found_witness :
  let out := createOrder Sample.env (Sample.order_of Sample.B1 25.98)
               Sample.world in
  exists view,
    data (fst out) = Some view
    /\ lookup_status (getOrderById (view_orderId view) (snd out)) = 200%Z.
Proof.
  intros out.
  destruct (created_order_is_found Sample.env
              (Sample.order_of Sample.B1 25.98) Sample.world eq_refl)
    as (view & doc & Hd & Hg & _).
  exists view. split; [exact Hd|]. fold out in Hg. now rewrite Hg.
Defined.

End OrderService.

(** ** The checkout: from the cart to the order service and back *)

Section CheckoutFlow.
Import JS Checkout.

Lemma mapM_toOrderItem (l : list Cart.CartItem) :
  forall items, mapM toOrderItem l = Normal items ->
  Forall2 (fun entry item =>
             exists b, Cart.book entry = Some b
                       /\ Cart.bookId_of b = Some (bookId item)
                       /\ truthy_string (bookId item) = true
                       /\ quantity item = Cart.quantity entry)
          l items.
Proof.
  induction l as [|entry l IH]; simpl; intros items.
  - intros [= <-]. constructor.
  - unfold toOrderItem at 1.
    destruct (Cart.book entry) as [b|] eqn:Hb; [|discriminate].
    destruct (Cart.bookId_of b) as [i|] eqn:Hi; [|discriminate].
    destruct (truthy_string i) eqn:Ht; [|discriminate].
    simpl. destruct (mapM toOrderItem l) as [rest|]; [|discriminate].
    intros [= <-]. constructor; [|now apply IH].
    exists b. simpl. auto.
Qed.

Lemma mapM_toOrderItem_Normal (l : list Cart.CartItem) :
  (exists items, mapM toOrderItem l = Normal items)
  <-> Forall (fun entry => Cart.validItem entry = true) l.
Proof.
  induction l as [|entry l IH]; cbn [mapM].
  - split; [constructor|]. intros _. now eexists.
  - rewrite List.Forall_cons_iff, <- IH.
    unfold toOrderItem at 1. unfold Cart.validItem, truthy_ostring.
    destruct (Cart.book entry) as [b|]; simpl;
      [|split; [intros [? H]|intros [H _]]; discriminate].
    destruct (Cart.bookId_of b) as [i|]; simpl;
      [|split; [intros [? H]|intros [H _]]; discriminate].
    destruct (truthy_string i); simpl;
      [|split; [intros [? H]|intros [H _]]; discriminate].
    destruct (mapM toOrderItem l) as [rest|]; simpl.
    + split; [intros _; split; [reflexivity|now eexists]|].
      intros _. now eexists.
    + split; [intros [? H]|intros [_ [? H]]]; discriminate.
Qed.

(** A call of the order API by [handleSubmit]: the form is valid, the call
    comes first and once, and its request is built from the page. *)
Lemma handleSubmit_call_inv
    (api : OrderRequest -> ApiOutcome) (p : Page) (request : OrderRequest) :
  In (CreateOrderCall request) (fst (handleSubmit api p)) ->
  fst (validateForm (formData p)) = true
  /\ (exists rest,
        fst (handleSubmit api p) = CreateOrderCall request :: rest
        /\ forall r, ~ In (CreateOrderCall r) rest)
  /\ exists items,
       mapM toOrderItem (Cart.items (cart p)) = Normal items
       /\ request = {| req_customer := formData p; req_items := items;
                       req_totalPrice := Cart.totalPrice (cart p);
                       req_notes := Backend.or_empty (notes (formData p)) |}.
Proof.
  unfold handleSubmit.
  destruct (validateForm (formData p)) as [valid newErrors].
  destruct valid; cbn [negb fst]; [|intros []].
  cbn [cart set_isSubmitting set_errors formData].
  destruct (mapM toOrderItem (Cart.items (cart p))) as [items|msg] eqn:Hmap.
  2:{ simpl. intros [Hin|[]]. discriminate. }
  set (orderData := {| req_customer := formData p; req_items := items;
                       req_totalPrice := Cart.totalPrice (cart p);
                       req_notes := Backend.or_empty (notes (formData p)) |}).
  assert (Hdata : forall rest,
    (forall r, ~ In (CreateOrderCall r) rest) ->
    In (CreateOrderCall request) (CreateOrderCall orderData :: rest) ->
    true = true
    /\ (exists rest',
          CreateOrderCall orderData :: rest = CreateOrderCall request :: rest'
          /\ forall r, ~ In (CreateOrderCall r) rest')
    /\ exists items',
         @Normal string _ items = Normal items' /\ request
         = {| req_customer := formData p; req_items := items';
              req_totalPrice := Cart.totalPrice (cart p);
              req_notes := Backend.or_empty (notes (formData p)) |}).
  { intros rest Hrest [[= <-]|Hin]; [|now apply Hrest in Hin].
    split; [reflexivity|]. split; [now exists rest|].
    exists items. split; reflexivity. }
  assert (Hfail : forall r, ~ In (CreateOrderCall r) [ToastError])
    by (intros r [H|[]]; discriminate).
  destruct (api orderData) as [response|msg];
    [|apply (Hdata [ToastError] Hfail)].
  destruct (api_success response);
    [|destruct (api_data response); apply (Hdata [ToastError] Hfail)].
  destruct (api_data response) as [d|]; [|apply (Hdata [ToastError] Hfail)].
  apply Hdata. intros r [H|[H|[H|[]]]]; discriminate.
Qed.

(** X19: what [handleSubmit] sends: when it calls the order API, the form has
    passed [validateForm], the call is the first thing that happens and
    there is no second one, and the request carries the form, the cached
    total of the cart and one item for each entry of the cart, in order,
    with the identifier of the entry, which is not empty, and its
    quantity. *)
Theorem handleSubmit_request_mirrors_cart
    (api : OrderRequest -> ApiOutcome) (p : Page) (request : OrderRequest) :
  In (CreateOrderCall request) (fst (handleSubmit api p)) ->
  fst (validateForm (formData p)) = true
  /\ (exists rest,
        fst (handleSubmit api p) = CreateOrderCall request :: rest
        /\ forall r, ~ In (CreateOrderCall r) rest)
  /\ req_customer request = formData p
  /\ req_totalPrice request = Cart.totalPrice (cart p)
  /\ req_notes request = default [] (notes (formData p))
  /\ Forall2 (fun entry item =>
                Cart.entryId entry = Some (bookId item)
                /\ bookId item <> ""
                /\ quantity item = Cart.quantity entry)
             (Cart.items (cart p)) (req_items request).
Proof.
  intros Hin.
  destruct (handleSubmit_call_inv api p request Hin)
    as (Hvalid & Hfirst & items & Hmap & ->).
  split; [exact Hvalid|]. split; [exact Hfirst|].
  split; [reflexivity|]. split; [reflexivity|]. split.
  - simpl. now destruct (notes (formData p)) as [[|c s]|].
  - simpl. apply mapM_toOrderItem in Hmap.
    eapply Forall2_impl; [exact Hmap|].
    intros entry item (b & Hb & Hi & Ht & Hq). unfold Cart.entryId.
    rewrite Hb. split; [exact Hi|]. split; [|exact Hq].
    intros E. rewrite E in Ht. discriminate.
Qed.

(** The sample page: the call carries the one entry of the cart. *)
Lemma handleSubmit_request_mirrors_cart_witness :
  let api := fun _ : OrderRequest => Rejected "offline" in
  exists request,
    In (CreateOrderCall request) (fst (handleSubmit api Sample.page))
    /\ req_totalPrice request = Cart.totalPrice (cart Sample.page)
    /\ List.map bookId (req_items request) = [Sample.B1].
Proof.
  intros api.
  eexists. split; [left; reflexivity|].
  refine ((fun H => conj (proj1 (proj2 (proj2 (proj2 H)))) eq_refl)
            (handleSubmit_request_mirrors_cart api Sample.page _ _)).
  left. reflexivity.
Defined.

(** X20: when [handleSubmit] calls the order API at all: exactly when the form
    passes [validateForm] and every entry of the cart has a book with an
    identifier. *)
Theorem handleSubmit_calls_iff (api : OrderRequest -> ApiOutcome) (p : Page) :
  (exists request, In (CreateOrderCall request) (fst (handleSubmit api p)))
  <-> fst (validateForm (formData p)) = true
      /\ Forall (fun entry => Cart.validItem entry = true)
                (Cart.items (cart p)).
Proof.
  rewrite <- mapM_toOrderItem_Normal.
  unfold handleSubmit.
  destruct (validateForm (formData p)) as [valid newErrors].
  destruct valid; cbn [negb fst];
    [|split; [intros [? []]|intros [[=] _]]].
  cbn [cart set_isSubmitting set_errors formData].
  destruct (mapM toOrderItem (Cart.items (cart p))) as [items|msg].
  - split; [intros _; split; [reflexivity|now eexists]|].
    intros _. eexists.
    destruct (api _) as [response|m]; [|left; reflexivity].
    destruct (api_success response), (api_data response);
      left; reflexivity.
  - split; [|intros [_ [? [=]]]].
    intros [request [H|[]]]. discriminate.
Qed.

(** The request and the storage write numbers the same way. *)
Lemma jsonNumber_throughJSON (x : float) :
  jsonNumber x = Cart.throughJSON x.
Proof. reflexivity. Qed.

Lemma created_confirmed (o : Backend.Order) :
  apiRequest (Fetched (Backend.created o))
  = {| api_success := true;
       api_data := Some {| ref_orderId := Some (Backend.orderId o);
                           ref_id := Some (Backend.orderId o) |};
       api_error := None |}.
Proof. reflexivity. Qed.

Lemma rejection_not_ok (r : Backend.Response) :
  In (Backend.res_status r) [400; 404; 409; 500]%Z -> ok r = false.
Proof.
  unfold ok. intros [<-|[<-|[<-|[<-|[]]]]]; reflexivity.
Qed.

(** X21: the page and the service together: when [handleSubmit] sends its
    request to [createOrder], however the request is put on the wire, either the
    service has stored the order, and then the page shows the success, empties
    the cart and redirects to the identifier under which the order is stored;
    or the service has rejected the request and changed nothing, and then the
    page shows the failure and keeps the cart. *)
Theorem server_verdict_decides_checkout
    (wire : OrderRequest -> Backend.Request) (env : Backend.Env)
    (w : Backend.World) (p : Page) (request : OrderRequest) :
  let api := fun r =>
    Resolved (apiRequest (Fetched (fst (Backend.createOrder env (wire r) w))))
  in
  In (CreateOrderCall request) (fst (handleSubmit api p)) ->
  let out := handleSubmit api p in
  let server := Backend.createOrder env (wire request) w in
  (Backend.success (fst server) = true
   /\ exists id order,
        fst out = [CreateOrderCall request; ToastSuccess; ClearCart;
                   RedirectLater (Some id)]
        /\ Backend.orders w !! id = None
        /\ Backend.orders (snd server) !! id = Some order
        /\ Backend.orderId order = id
        /\ cart (snd out) = Cart.initialState
        /\ isSubmitting (snd out) = false)
  \/ (Backend.success (fst server) = false
      /\ snd server = w
      /\ fst out = [CreateOrderCall request; ToastError]
      /\ cart (snd out) = cart p
      /\ isSubmitting (snd out) = false
      /\ errors (snd out) !! "submit"
         = Some "Failed to process your order. Please try again.").
Proof.
  intros api Hin out server. subst out.
  revert Hin. unfold handleSubmit.
  destruct (validateForm (formData p)) as [valid newErrors].
  destruct valid; cbn [negb fst]; [|intros []].
  cbn [cart set_isSubmitting set_errors formData].
  destruct (mapM toOrderItem (Cart.items (cart p))) as [items|msg].
  2:{ simpl. intros [Hin|[]]. discriminate. }
  set (orderData := {| req_customer := formData p; req_items := items;
                       req_totalPrice := Cart.totalPrice (cart p);
                       req_notes := Backend.or_empty (notes (formData p)) |}).
  assert (Hreq : In (CreateOrderCall request)
                   (fst (let evs := [CreateOrderCall orderData] in
                         match api orderData with
                         | Rejected _ => submitFailed evs
                             (set_isSubmitting (set_errors p newErrors) true)
                         | Resolved response =>
                             match api_success response, api_data response with
                             | true, Some d =>
                                 (evs ++ [ToastSuccess; ClearCart;
                                          RedirectLater
                                            (or_ostring (ref_orderId d)
                                               (ref_id d))],
                                  set_isSubmitting
                                    (set_cart
                                       (set_isSubmitting
                                          (set_errors p newErrors) true)
                                       (Cart.dispatch Cart.clearCart (cart p)))
                                    false)
                             | _, _ => submitFailed evs
                                 (set_isSubmitting (set_errors p newErrors)
                                    true)
                             end
                         end)) -> request = orderData).
  { cbv zeta. destruct (api orderData) as [response|m].
    - destruct (api_success response), (api_data response);
        simpl; intros [[= <-]|H]; try reflexivity;
        repeat (destruct H as [H|H]; try discriminate); destruct H.
    - simpl. intros [[= <-]|[H|[]]]; [reflexivity|discriminate]. }
  intros Hin. pose proof (Hreq Hin) as ->. clear Hreq Hin.
  subst server. unfold api.
  destruct (Backend.success (fst (Backend.createOrder env (wire orderData) w)))
    eqn:Hs.
  - left. split; [reflexivity|].
    apply createOrder_success_inv in Hs
      as (cust & l & t & lines & Hr & Hv & Hid & Hfree & ->).
    cbn [fst snd]. rewrite created_confirmed. cbn [api_success api_data].
    eexists _, _. split; [|split; [exact Hfree|split;
      [cbn [Backend.orders]; apply lookup_insert_eq|split; [exact Hid|]]]].
    + cbn [ref_orderId ref_id app]. rewrite Hid.
      unfold or_ostring. now destruct (truthy_ostring _).
    + split; reflexivity.
  - right. split; [reflexivity|].
    destruct (createOrder_status_rejects env (wire orderData) w Hs)
      as (Hw & Hst).
    split; [exact Hw|].
    unfold apiRequest. rewrite (rejection_not_ok _ Hst). cbn [negb].
    cbn [api_success]. repeat split.
Qed.

(** The sample page against the sample catalog: the order is stored and the
    cart emptied. *)
Lemma server_verdict_decides_checkout_witness :
  let api := fun r =>
    Resolved (apiRequest (Fetched (fst (Backend.createOrder Sample.env
                                          (Sample.wire r) Sample.world)))) in
  let out := handleSubmit api Sample.page in
  exists request,
    In (CreateOrderCall request) (fst out)
    /\ Backend.success
         (fst (Backend.createOrder Sample.env (Sample.wire request)
                 Sample.world)) = true
    /\ cart (snd out) = Cart.initialState.
Proof.
  intros api out.
  eexists. split; [left; reflexivity|].
  destruct (server_verdict_decides_checkout Sample.wire Sample.env
              Sample.world Sample.page _ (or_introl eq_refl))
    as [(Hs & id & order & _ & _ & _ & _ & Hc & _)|(Hs & _)].
  - split; [exact Hs|exact Hc].
  - vm_compute in Hs. discriminate.
Defined.

(** *** The total of the cart against the total of the server *)

(** A number minus itself is [0] or [NaN], neither of which is above the
    tolerance of the integrity check. *)
Lemma sub_self_within (x : float) :
  (0.01 <? abs (x - x))%float = false.
Proof.
  rewrite FloatAxioms.ltb_spec, FloatAxioms.abs_spec, FloatAxioms.sub_spec.
  destruct (Prim2SF x) as [[]|[]| |sg m e]; try reflexivity.
  unfold FloatAxioms.SF64sub, SpecFloat.SFsub. rewrite Z.sub_diag.
  reflexivity.
Qed.

Lemma honest_lines (w : Backend.World) (entries : list Cart.CartItem)
    (items : list OrderItemRequest) :
  Forall2 (fun entry item =>
             exists b, Cart.book entry = Some b
                       /\ Cart.bookId_of b = Some (bookId item)
                       /\ truthy_string (bookId item) = true
                       /\ quantity item = Cart.quantity entry)
          entries items ->
  Forall (catalogPrice w) entries ->
  Forall (fun item => jsonNumber (quantity item) = Some (quantity item))
         items ->
  forall acc,
  option_map (fun lines => Backend.lineTotals lines acc)
             (Backend.resolve w (List.map toBodyItem items))
  = Some (fold_left (fun sum entry => (sum + Cart.lineTotal entry)%float)
                    entries acc).
Proof.
  induction 1 as [|entry item entries items (b & Hb & Hi & _ & Hq) _ IH];
    intros Hcat Hwire acc; [reflexivity|].
  apply List.Forall_cons_iff in Hcat
    as [(b' & i & bk & Hb' & Hi' & Hbk & Hp) Hcat].
  apply List.Forall_cons_iff in Hwire as [Hjson Hwire].
  rewrite Hb in Hb'. injection Hb' as <-.
  rewrite Hi in Hi'. injection Hi' as <-.
  specialize (IH Hcat Hwire).
  cbn [List.map Backend.resolve]. unfold Backend.snapshot at 1.
  cbn [toBodyItem Backend.bookId Backend.req_quantity].
  rewrite Hjson, Hbk.
  destruct (Backend.resolve w (List.map toBodyItem items)) as [lines|];
    [|specialize (IH acc); discriminate].
  cbn [option_map] in *. unfold Backend.lineTotals in *.
  cbn [fold_left Backend.price Backend.quantity].
  rewrite IH.
  assert (Hline : Cart.lineTotal entry
                  = (Backend.book_price bk * quantity item)%float)
    by (unfold Cart.lineTotal; now rewrite Hb, Hp, Hq).
  now rewrite Hline.
Qed.

(** X22: a cart whose totals are the sums over its entries, whose books all are
    in the catalog of the server at the prices the cart shows, and whose
    quantities are finite and not zero: the items [handleSubmit] sends for it
    all resolve, and the total the server calculates from its catalog is the
    total of the cart, bit for bit, so that the integrity check of
    [createOrder] finds no mismatch. *)
Theorem honest_cart_passes_integrity_check (w : Backend.World)
    (st : Cart.CartState) (items : list OrderItemRequest) :
  Cart.consistent st ->
  mapM toOrderItem (Cart.items st) = Normal items ->
  Forall (catalogPrice w) (Cart.items st) ->
  Forall (fun item => jsonNumber (quantity item) = Some (quantity item))
         items ->
  exists calc,
    Backend.catalogTotal w (List.map toBodyItem items) = Some calc
    /\ calc = Cart.totalPrice st
    /\ (0.01 <? abs (calc - Cart.totalPrice st))%float = false.
Proof.
  intros (_ & _ & Htotal) Hmap Hcat Hwire.
  exists (Cart.totalPrice st). split; [|split; [reflexivity|]].
  - unfold Backend.catalogTotal. rewrite Htotal.
    apply honest_lines; [now apply mapM_toOrderItem|exact Hcat|exact Hwire].
  - apply sub_self_within.
Qed.

(** The cart of the sample page against the sample catalog. *)
Lemma honest_cart_passes_integrity_check_witness :
  exists calc,
    Backend.catalogTotal Sample.world
      [ {| Backend.bookId := Some Sample.B1;
           Backend.req_quantity := Some 2%float |} ] = Some calc
    /\ calc = Cart.totalPrice (cart Sample.page).
Proof.
  destruct (honest_cart_passes_integrity_check Sample.world
              (cart Sample.page)
              [ {| bookId := Sample.B1; quantity := 2 |} ])
    as (calc & Hc & He & _).
  - split; [|split; reflexivity].
    constructor; [discriminate|constructor].
  - reflexivity.
  - constructor; [|constructor].
    eexists _, _, _. repeat split; reflexivity.
  - constructor; [reflexivity|constructor].
  - exists calc. split; assumption.
Defined.

(** *** After a reload *)

(** X23: what a reload does to the totals: the store that comes back from
    [localStorage] has the entries that were written, each with its
    identifier and its numbers as JSON gives them back, and both totals at
    [0], whatever the cart held.  The cart icon then shows no count, and a
    checkout from this cart sends a total of [0] with the items of the
    cart, which [createOrder] never accepts. *)
Theorem reloaded_cart_forgets_totals (st st' : Cart.CartState) :
  Cart.reload st = Some st' ->
  Forall2 (fun written read => Cart.entryThroughJSON written = Some read)
          (List.filter Cart.validItem (Cart.items st)) (Cart.items st')
  /\ List.map Cart.entryId (Cart.items st')
     = List.map Cart.entryId (List.filter Cart.validItem (Cart.items st))
  /\ Cart.totalItems st' = 0%float
  /\ Cart.totalPrice st' = 0%float
  /\ Header.badge (Cart.totalItems st') = Header.NoBadge
  /\ (forall api p request,
        cart p = st' ->
        In (CreateOrderCall request) (fst (handleSubmit api p)) ->
        req_totalPrice request = 0%float
        /\ List.length (req_items request)
           = List.length (List.filter Cart.validItem (Cart.items st))
        /\ (forall env req w,
              Backend.body_totalPrice (Backend.body req)
              = jsonNumber (req_totalPrice request) ->
              Backend.success (fst (Backend.createOrder env req w)) = false)).
Proof.
  intros Hreload.
  apply reload_inv in Hreload as (l & Hl & ->).
  apply entriesThroughJSON_Forall2 in Hl.
  cbn [Cart.items Cart.totalItems Cart.totalPrice].
  split; [exact Hl|]. split.
  { clear -Hl. induction Hl as [|x y l0 l' Hxy _ IH]; [reflexivity|].
    cbn [List.map]. rewrite IH.
    now rewrite (proj1 (entryThroughJSON_entryId _ _ Hxy)). }
  split; [reflexivity|]. split; [reflexivity|]. split; [reflexivity|].
  intros api p request Hp Hin.
  destruct (handleSubmit_call_inv api p request Hin)
    as (_ & _ & items & Hmap & ->).
  rewrite Hp in *. cbn [req_totalPrice req_items Cart.totalPrice Cart.items]
    in *.
  split; [reflexivity|]. split.
  - apply mapM_toOrderItem in Hmap.
    rewrite <- (Forall2_length _ _ _ Hmap). symmetry.
    exact (Forall2_length _ _ _ Hl).
  - intros env req w Ht.
    destruct (Backend.success (fst (Backend.createOrder env req w))) eqn:Hs;
      [|reflexivity].
    apply createOrder_success_inv in Hs
      as (cust & l0 & t & lines & Hr & _).
    pose proof (Backend.ric_total _ _ _ _ _ _ Hr) as Ht'.
    pose proof (Backend.ric_total_truthy _ _ _ _ _ _ Hr) as Htruthy.
    rewrite Ht in Ht'. injection Ht' as <-. discriminate.
Qed.

(** The cart of the sample page, reloaded: the entry is back, the total of
    25.98 is not. *)
Lemma reloaded_cart_forgets_totals_witness :
  exists st',
    Cart.reload (cart Sample.page) = Some st'
    /\ List.length (Cart.items st') = 1
    /\ Cart.totalPrice (cart Sample.page) = 25.98%float
    /\ Cart.totalPrice st' = 0%float.
Proof.
  eexists. split; [vm_compute; reflexivity|].
  split; [reflexivity|]. split; [reflexivity|].
  refine (proj1 (proj2 (proj2 (proj2
            (reloaded_cart_forgets_totals (cart Sample.page) _ _))))).
  vm_compute. reflexivity.
Defined.

End CheckoutFlow.
